(** * Download subsystem: job store, target path builder, worker, scheduler

    A shallow embedding of [backend/app/services/download_manager.py],
    [backend/app/routers/downloads.py] and [backend/app/models/download.py],
    followed by the properties of the download subsystem that are settled
    against it.

    Conventions of the embedding.
    - A Python [str] is a [string]; a character is a code point below 256.
    - A Python [int] is a [Z]; a [datetime] is an [N] counting microseconds
      from [datetime.min], so that [datetime.min] is [0].
    - A table is a finite map from primary key to row ([gmap Z _]).
    - Every [session.get] ... [session.commit] block runs without a suspension
      point between the read and the write, so it is one function on the
      database.
    - What the Python standard library and the HTTP peer decide (URL
      parsing, the clock, chunk sizes, exception texts) enters as an
      argument. *)

From Stdlib Require Import ZArith NArith List String Ascii Lia.
From Stdlib Require Import Decimal DecimalString DecimalZ DecimalPos DecimalN.
From stdpp Require Import gmap strings list fin_maps sorting.

Open Scope Z_scope.
Open Scope string_scope.

(* ===================================================================== *)
(** ** Strings as Python uses them *)
(* ===================================================================== *)

Module PyStr.

(** [str.isspace] and the regular expression class [\s] agree on one set of
    code points; below 256 these are U+0009..U+000D, U+001C..U+0020, U+0085
    and U+00A0. *)
Definition is_space (c : ascii) : bool :=
  let n := nat_of_ascii c in
  ((9 <=? n)%nat && (n <=? 13)%nat)
  || ((28 <=? n)%nat && (n <=? 32)%nat)
  || (n =? 133)%nat || (n =? 160)%nat.

(** The character class of the first [re.sub] of [_safe_filename]:
    backslash, slash, colon, star, question mark, double quote (code 34),
    less-than, greater-than and bar. *)
Definition illegal_chars : list ascii :=
  ["\"; "/"; ":"; "*"; "?"; "034"; "<"; ">"; "|"]%char.

Definition is_illegal (c : ascii) : bool :=
  existsb (Ascii.eqb c) illegal_chars.

Fixpoint lstrip (s : string) : string :=
  match s with
  | String c s' => if is_space c then lstrip s' else s
  | EmptyString => EmptyString
  end.

Fixpoint rstrip (s : string) : string :=
  match s with
  | String c s' =>
      match rstrip s' with
      | EmptyString => if is_space c then EmptyString else String c EmptyString
      | r => String c r
      end
  | EmptyString => EmptyString
  end.

(** [s.strip()] *)
Definition strip (s : string) : string := rstrip (lstrip s).

(** [re.sub] of a character class by one character. *)
Fixpoint sub_class (cls : ascii -> bool) (by_ : ascii) (s : string) : string :=
  match s with
  | String c s' => String (if cls c then by_ else c) (sub_class cls by_ s')
  | EmptyString => EmptyString
  end.

(** [re.sub] of every maximal run of the space class by one U+0020:
    [in_run] tells that the previous character belonged to a run that has
    already been replaced. *)
Fixpoint sub_runs (in_run : bool) (s : string) : string :=
  match s with
  | String c s' =>
      if is_space c
      then (if in_run then sub_runs true s' else String " " (sub_runs true s'))
      else String c (sub_runs false s')
  | EmptyString => EmptyString
  end.

(** Python truthiness of a [str]. *)
Definition truthy (s : string) : bool :=
  match s with EmptyString => false | _ => true end.

(** [a or b] on strings. *)
Definition or_else (a b : string) : string := if truthy a then a else b.

(** [s[:n]] for [n >= 0]. *)
Fixpoint slice_to (n : nat) (s : string) : string :=
  match n, s with
  | S n', String c s' => String c (slice_to n' s')
  | _, _ => EmptyString
  end.

(** [str(i)] for an [int]. *)
Definition str_of_int (i : Z) : string := NilZero.string_of_int (Z.to_int i).

(** [s.split] at slashes. *)
Fixpoint split_slash (s : string) : list string :=
  match s with
  | String c s' =>
      match split_slash s' with
      | hd :: tl => if Ascii.eqb c "/" then EmptyString :: hd :: tl
                    else String c hd :: tl
      | [] => [s]
      end
  | EmptyString => [EmptyString]
  end.

(** [join] with a slash. *)
Fixpoint join_slash (l : list string) : string :=
  match l with
  | [] => EmptyString
  | [x] => x
  | x :: tl => x ++ "/" ++ join_slash tl
  end.

(** [s.lower()], on the code points that can take part in a match with an
    ASCII word: no code point from 128 to 255 lowers to an ASCII letter. *)
Definition lower_char (c : ascii) : ascii :=
  let n := nat_of_ascii c in
  if ((65 <=? n)%nat && (n <=? 90)%nat)%bool then ascii_of_nat (n + 32) else c.

Fixpoint lower (s : string) : string :=
  match s with
  | String c s' => String (lower_char c) (lower s')
  | EmptyString => EmptyString
  end.

Definition has_char (p : ascii -> bool) (s : string) : bool :=
  existsb p (list_ascii_of_string s).

(** Two neighbouring characters of the space class. *)
Fixpoint has_space_pair (s : string) : bool :=
  match s with
  | String c ((String c' _) as s') =>
      (is_space c && is_space c') || has_space_pair s'
  | _ => false
  end.

(** Every character of the space class is U+0020. *)
Definition only_plain_spaces (s : string) : bool :=
  negb (has_char (fun c => is_space c && negb (Ascii.eqb c " ")) s).

Definition starts_space (s : string) : bool :=
  match s with String c _ => is_space c | EmptyString => false end.

Definition is_slash (c : ascii) : bool := Ascii.eqb c "/".

Definition is_digit (c : ascii) : bool :=
  let n := nat_of_ascii c in (48 <=? n)%nat && (n <=? 57)%nat.

Definition all_digits (s : string) : bool :=
  forallb is_digit (list_ascii_of_string s).

End PyStr.

(* ===================================================================== *)
(** ** Paths as [pathlib] builds them (POSIX flavour) and the file system *)
(* ===================================================================== *)

Module PyPath.

(** A path is its root (empty, one slash or two slashes) and its parts. *)
Record Path := mkPath { root : string; parts : list string }.

#[global] Instance Path_eq_dec : EqDecision Path.
Proof. solve_decision. Defined.

#[global] Instance Path_countable : Countable Path :=
  inj_countable' (fun p => (root p, parts p)) (fun t => mkPath t.1 t.2)
                 (fun p => match p with mkPath _ _ => eq_refl end).

Definition splitroot (s : string) : string * string :=
  match s with
  | String "/" (String "/" (String "/" _)) => ("/", s)
  | String "/" (String "/" r) => ("//", r)
  | String "/" r => ("/", r)
  | _ => ("", s)
  end.

(** Empty components and single dots are dropped when a string is parsed. *)
Definition keep_part (c : string) : bool :=
  negb (String.eqb c "") && negb (String.eqb c ".").

Definition parse_parts (s : string) : list string :=
  List.filter keep_part (PyStr.split_slash s).

(** [Path(s)] *)
Definition of_str (s : string) : Path :=
  let '(r, rest) := splitroot s in mkPath r (parse_parts rest).

(** [p / s]: a rooted right operand replaces the left one. *)
Definition truediv (p : Path) (s : string) : Path :=
  let q := of_str s in
  if PyStr.truthy (root q) then q else mkPath (root p) (parts p ++ parts q).

(** [str(p)] *)
Definition to_str (p : Path) : string :=
  match root p, parts p with
  | EmptyString, [] => "."
  | r, l => r ++ PyStr.join_slash l
  end.

(** [p.parent] *)
Definition parent (p : Path) : Path := mkPath (root p) (removelast (parts p)).

(** The path itself and every proper ancestor that has a name. *)
Definition self_and_parents (p : Path) : list Path :=
  map (fun k => mkPath (root p) (take k (parts p))) (seq 1 (length (parts p))).

(** The file system as far as the download manager touches it: the regular
    files and the directories that exist. *)
Record FS := mkFS { files : gset Path; dirs : gset Path }.

(** [p.mkdir(parents=True, exist_ok=True)] *)
Definition mkdir_p (p : Path) (fs : FS) : FS :=
  mkFS (files fs) (dirs fs ∪ list_to_set (self_and_parents p)).

(** [p.exists()] for a path used as a regular file. *)
Definition exists_ (p : Path) (fs : FS) : bool := bool_decide (p ∈ files fs).

(** [open(p, mode wb)]: the file exists afterwards. *)
Definition create (p : Path) (fs : FS) : FS := mkFS (files fs ∪ {[p]}) (dirs fs).

(** [p.unlink()] *)
Definition unlink (p : Path) (fs : FS) : FS := mkFS (files fs ∖ {[p]}) (dirs fs).

(** [p.replace(q)] *)
Definition replace (p q : Path) (fs : FS) : FS :=
  mkFS ((files fs ∖ {[p]}) ∪ {[q]}) (dirs fs).

End PyPath.
Export PyPath.

(* ===================================================================== *)
(** ** The data model: [models/download.py] and the catalog columns that
       the manager writes *)
(* ===================================================================== *)

Definition datetime := N.
Definition datetime_min : datetime := 0%N.

Inductive DownloadStatus :=
  PENDING | DOWNLOADING | COMPLETED | FAILED | PAUSED | CANCELLED.

Inductive DownloadPriority := LOW | NORMAL | HIGH.

#[global] Instance DownloadStatus_eq_dec : EqDecision DownloadStatus.
Proof. solve_decision. Defined.

#[global] Instance DownloadPriority_eq_dec : EqDecision DownloadPriority.
Proof. solve_decision. Defined.

(** The [value] of the priority enumeration. *)
Definition priority_value (p : DownloadPriority) : string :=
  match p with LOW => "low" | NORMAL => "normal" | HIGH => "high" end.

(** A row of the table [downloads]. The column [updated_at] is maintained by
    the database engine and read by no code path; it is left out. *)
Record Download := mkDownload {
  id : Z;
  document_id : option Z;
  source : string;
  source_id : string;
  url : string;
  file_path : option string;
  file_name : option string;
  status : DownloadStatus;
  priority : DownloadPriority;
  progress : Z;
  downloaded_bytes : Z;
  total_bytes : option Z;
  speed : option Z;
  attempts : option Z;
  last_attempt : option datetime;
  error_message : option string;
  created_at : option datetime;
  started_at : option datetime;
  completed_at : option datetime
}.

(** The columns of [documents] that the manager writes. *)
Record Document := mkDocument {
  is_downloaded : bool;
  download_status : option string;
  doc_file_path : option string;
  file_size : option Z;
  download_error : option string;
  download_attempts : option Z;
  last_download_attempt : option datetime
}.

Record DB := mkDB {
  downloads : gmap Z Download;
  documents : gmap Z Document
}.

(** Attribute assignment [d.f = v], one function per assigned column. *)
Definition set_status (v : DownloadStatus) (d : Download) : Download :=
  mkDownload (id d) (document_id d) (source d) (source_id d) (url d)
    (file_path d) (file_name d) v (priority d) (progress d)
    (downloaded_bytes d) (total_bytes d) (speed d) (attempts d)
    (last_attempt d) (error_message d) (created_at d) (started_at d)
    (completed_at d).

Definition set_file_path (v : option string) (d : Download) : Download :=
  mkDownload (id d) (document_id d) (source d) (source_id d) (url d)
    v (file_name d) (status d) (priority d) (progress d)
    (downloaded_bytes d) (total_bytes d) (speed d) (attempts d)
    (last_attempt d) (error_message d) (created_at d) (started_at d)
    (completed_at d).

Definition set_progress (v : Z) (d : Download) : Download :=
  mkDownload (id d) (document_id d) (source d) (source_id d) (url d)
    (file_path d) (file_name d) (status d) (priority d) v
    (downloaded_bytes d) (total_bytes d) (speed d) (attempts d)
    (last_attempt d) (error_message d) (created_at d) (started_at d)
    (completed_at d).

Definition set_downloaded_bytes (v : Z) (d : Download) : Download :=
  mkDownload (id d) (document_id d) (source d) (source_id d) (url d)
    (file_path d) (file_name d) (status d) (priority d) (progress d)
    v (total_bytes d) (speed d) (attempts d)
    (last_attempt d) (error_message d) (created_at d) (started_at d)
    (completed_at d).

Definition set_total_bytes (v : option Z) (d : Download) : Download :=
  mkDownload (id d) (document_id d) (source d) (source_id d) (url d)
    (file_path d) (file_name d) (status d) (priority d) (progress d)
    (downloaded_bytes d) v (speed d) (attempts d)
    (last_attempt d) (error_message d) (created_at d) (started_at d)
    (completed_at d).

Definition set_speed (v : option Z) (d : Download) : Download :=
  mkDownload (id d) (document_id d) (source d) (source_id d) (url d)
    (file_path d) (file_name d) (status d) (priority d) (progress d)
    (downloaded_bytes d) (total_bytes d) v (attempts d)
    (last_attempt d) (error_message d) (created_at d) (started_at d)
    (completed_at d).

Definition set_attempts (v : option Z) (d : Download) : Download :=
  mkDownload (id d) (document_id d) (source d) (source_id d) (url d)
    (file_path d) (file_name d) (status d) (priority d) (progress d)
    (downloaded_bytes d) (total_bytes d) (speed d) v
    (last_attempt d) (error_message d) (created_at d) (started_at d)
    (completed_at d).

Definition set_last_attempt (v : option datetime) (d : Download) : Download :=
  mkDownload (id d) (document_id d) (source d) (source_id d) (url d)
    (file_path d) (file_name d) (status d) (priority d) (progress d)
    (downloaded_bytes d) (total_bytes d) (speed d) (attempts d)
    v (error_message d) (created_at d) (started_at d)
    (completed_at d).

Definition set_error_message (v : option string) (d : Download) : Download :=
  mkDownload (id d) (document_id d) (source d) (source_id d) (url d)
    (file_path d) (file_name d) (status d) (priority d) (progress d)
    (downloaded_bytes d) (total_bytes d) (speed d) (attempts d)
    (last_attempt d) v (created_at d) (started_at d)
    (completed_at d).

Definition set_started_at (v : option datetime) (d : Download) : Download :=
  mkDownload (id d) (document_id d) (source d) (source_id d) (url d)
    (file_path d) (file_name d) (status d) (priority d) (progress d)
    (downloaded_bytes d) (total_bytes d) (speed d) (attempts d)
    (last_attempt d) (error_message d) (created_at d) v
    (completed_at d).

Definition set_completed_at (v : option datetime) (d : Download) : Download :=
  mkDownload (id d) (document_id d) (source d) (source_id d) (url d)
    (file_path d) (file_name d) (status d) (priority d) (progress d)
    (downloaded_bytes d) (total_bytes d) (speed d) (attempts d)
    (last_attempt d) (error_message d) (created_at d) (started_at d)
    v.

Definition commit_doc (k : Z) (doc : Document) (db : DB) : DB :=
  mkDB (downloads db) (<[k := doc]> (documents db)).

(** Python truthiness of an optional integer: [None] and [0] are false. *)
Definition truthy_int (o : option Z) : bool :=
  match o with Some z => negb (Z.eqb z 0) | None => false end.

(** [o or 0] on an optional integer. *)
Definition or_zero (o : option Z) : Z :=
  match o with Some z => z | None => 0 end.

(* ===================================================================== *)
(** ** [services/download_manager.py]: module-level helpers *)
(* ===================================================================== *)

(** What the manager takes from its surroundings: [urlparse(url).path]
    ([None] when [urlparse] raises), [os.path.basename] and
    [settings.paths.library_dir]. *)
Record Env := mkEnv {
  urlparse_path : string -> option string;
  os_path_basename : string -> string;
  library_dir : Path
}.

Record DownloadManagerConfig := mkConfig {
  max_parallel : Z;
  chunk_size : Z;
  timeout : Z
}.

Definition _safe_filename (name : string) : string :=
  let name := PyStr.or_else (PyStr.strip name) "download" in
  let name := PyStr.sub_class PyStr.is_illegal "_" name in
  let name := PyStr.sub_runs false name in
  name.

Definition _default_filename_from_url (E : Env) (url : string) : string :=
  match urlparse_path E url with
  | Some path =>
      let base := os_path_basename E path in
      PyStr.or_else base "download.bin"
  | None => "download.bin"
  end.

(** The dictionary lookup with default [0]. *)
Definition _priority_rank (value : string) : Z :=
  if String.eqb value "high" then 3
  else if String.eqb value "normal" then 2
  else if String.eqb value "low" then 1
  else 0.

(** [o or b] for an optional string. *)
Definition opt_or_else (o : option string) (b : string) : string :=
  match o with Some a => PyStr.or_else a b | None => b end.

(** The formatted string of the last line of [_build_target_path]: the id,
    a dash, the file name. *)
Definition job_file_name (i : Z) (filename : string) : string :=
  PyStr.str_of_int i ++ "-" ++ filename.

(** [_build_target_path]: the path, and the file system after the
    [mkdir] of the source directory. *)
Definition _build_target_path (E : Env) (d : Download) (fs : FS) : Path * FS :=
  let source_dir := truediv (library_dir E) (_safe_filename (source d)) in
  let fs := mkdir_p source_dir fs in
  let filename := opt_or_else (file_name d) (_default_filename_from_url E (url d)) in
  let filename := _safe_filename filename in
  (truediv source_dir (job_file_name (id d) filename), fs).

(** The temporary path next to a target path. *)
Definition part_path (target_path : Path) : Path :=
  of_str (to_str target_path ++ ".part").



(* ===================================================================== *)
(** ** [DownloadManager]: the blocks that read and write the store *)
(* ===================================================================== *)

(** [session.commit()] of the row that the session fetched under [k]. *)
Definition commit_at (k : Z) (d : Download) (db : DB) : DB :=
  mkDB (<[k := d]> (downloads db)) (documents db).

Definition _is_cancelled (download_id : Z) (db : DB) : bool :=
  match downloads db !! download_id with
  | Some d => bool_decide (status d = CANCELLED)
  | None => false
  end.

Definition _update_progress (download_id downloaded_bytes : Z)
    (total_bytes speed : option Z) (progress : Z) (db : DB) : DB :=
  match downloads db !! download_id with
  | None => db
  | Some d =>
      let d := set_downloaded_bytes downloaded_bytes d in
      let d := set_total_bytes total_bytes d in
      let d := set_speed speed d in
      let d := set_progress (Z.max 0 (Z.min progress 99)) d in
      commit_at download_id d db
  end.

(** The catalog entry after a completed download. *)
Definition doc_completed (d : Download) (doc : Document) : Document :=
  mkDocument true (Some "completed") (file_path d) (Some (downloaded_bytes d))
    (download_error doc) (download_attempts doc) (last_download_attempt doc).

(** The catalog entry after a failed download. *)
Definition doc_failed (d : Download) (doc : Document) : Document :=
  mkDocument (is_downloaded doc) (Some "failed") (doc_file_path doc)
    (file_size doc) (error_message d) (attempts d) (last_attempt d).

(** The tail of [_mark_completed] and [_mark_failed]: the linked catalog
    entry is written when [document_id] is true and the entry exists. *)
Definition update_linked (upd : Download -> Document -> Document)
    (d : Download) (db : DB) : DB :=
  if truthy_int (document_id d) then
    match documents db !! or_zero (document_id d) with
    | Some doc => commit_doc (or_zero (document_id d)) (upd d doc) db
    | None => db
    end
  else db.

Definition _mark_completed (download_id downloaded_bytes : Z)
    (total_bytes : option Z) (target_path : Path) (now : datetime)
    (w : DB * FS) : DB * FS :=
  let '(db, fs) := w in
  let tmp_path := part_path target_path in
  let fs := if exists_ tmp_path fs then replace tmp_path target_path fs else fs in
  match downloads db !! download_id with
  | None => (db, fs)
  | Some d =>
      let d := set_status COMPLETED d in
      let d := set_completed_at (Some now) d in
      let d := set_progress 100 d in
      let d := set_downloaded_bytes downloaded_bytes d in
      let d := set_total_bytes total_bytes d in
      let d := set_speed None d in
      let d := set_error_message None d in
      (update_linked doc_completed d (commit_at download_id d db), fs)
  end.

Definition _mark_failed (download_id : Z) (message : string) (now : datetime)
    (db : DB) : DB :=
  match downloads db !! download_id with
  | None => db
  | Some d =>
      let d := set_status FAILED d in
      let d := set_error_message (Some (PyStr.slice_to 512 message)) d in
      let d := set_completed_at (Some now) d in
      let d := set_speed None d in
      update_linked doc_failed d (commit_at download_id d db)
  end.

Definition _mark_cancelled (download_id : Z) (now : datetime) (db : DB) : DB :=
  match downloads db !! download_id with
  | None => db
  | Some d =>
      let d := set_status CANCELLED d in
      let d := set_completed_at (Some now) d in
      let d := set_speed None d in
      commit_at download_id d db
  end.

(* ===================================================================== *)
(** ** [DownloadManager._download_one], one block per suspension-free
       stretch of the coroutine *)
(* ===================================================================== *)

(** Where a worker coroutine stands. *)
Inductive Task :=
| Spawned
| Claimed (url : string) (target_path : Path)
| Streaming (target_path : Path) (total_bytes : option Z) (downloaded : Z)
| Done.

#[global] Instance Task_eq_dec : EqDecision Task.
Proof. solve_decision. Defined.

(** The first block: the guard on [PENDING], the claim, the target path and
    the directory of the temporary file. [None] is the early [return]. The
    two commits write disjoint columns and nothing reads [file_path] in
    between, so they are taken together. *)
Definition _download_one_claim (E : Env) (download_id : Z)
    (now_started now_attempt : datetime) (w : DB * FS)
    : option (string * Path) * (DB * FS) :=
  let '(db, fs) := w in
  match downloads db !! download_id with
  | None => (None, (db, fs))
  | Some d =>
      if bool_decide (status d <> PENDING) then (None, (db, fs))
      else
        let d := set_status DOWNLOADING d in
        let d := set_started_at (Some now_started) d in
        let d := set_progress 0 d in
        let d := set_downloaded_bytes 0 d in
        let d := set_error_message None d in
        let d := set_last_attempt (Some now_attempt) d in
        let d := set_attempts (Some (or_zero (attempts d) + 1)) d in
        let url := url d in
        let '(target_path, fs) := _build_target_path E d fs in
        let d := set_file_path (Some (to_str target_path)) d in
        let db := commit_at download_id d db in
        let tmp_path := part_path target_path in
        let fs := mkdir_p (parent tmp_path) fs in
        (Some (url, target_path), (db, fs))
  end.

(** The progress that the stream loop computes. The source divides in
    floating point and truncates; below 2^53 that is the integer quotient. *)
Definition _download_one_progress (downloaded : Z) (total_bytes : option Z) : Z :=
  if truthy_int total_bytes
  then Z.quot (downloaded * 100) (or_zero total_bytes)
  else Z.min (Z.quot (Z.quot downloaded 1024) 1024) 99.

(** One chunk after the cancellation check: the counter grows and, when a
    second has passed ([persist] holds the measured speed), the row is
    written. *)
Definition _download_one_chunk (download_id : Z) (total_bytes : option Z)
    (downloaded chunk_len : Z) (persist : option Z) (db : DB) : Z * DB :=
  let downloaded := downloaded + chunk_len in
  match persist with
  | Some speed =>
      let progress := _download_one_progress downloaded total_bytes in
      (downloaded,
       _update_progress download_id downloaded total_bytes (Some speed) progress db)
  | None => (downloaded, db)
  end.

(** The removal of the temporary file in both handlers. *)
Definition unlink_part (target_path : Path) (fs : FS) : FS :=
  let tmp_path := part_path target_path in
  if exists_ tmp_path fs then unlink tmp_path fs else fs.

(** [except asyncio.CancelledError] *)
Definition _download_one_cancelled (download_id : Z) (target_path : Path)
    (now : datetime) (w : DB * FS) : DB * FS :=
  (_mark_cancelled download_id now w.1, unlink_part target_path w.2).

(** [except Exception as e], with [message] the text of [e]. *)
Definition _download_one_failed (download_id : Z) (target_path : Path)
    (message : string) (now : datetime) (w : DB * FS) : DB * FS :=
  (_mark_failed download_id message now w.1, unlink_part target_path w.2).

(* ===================================================================== *)
(** ** The scheduler: [_run_loop] and [_spawn_pending] *)
(* ===================================================================== *)

Definition is_done (t : Task) : bool :=
  match t with Done => true | _ => false end.

(** The clean-up of finished tasks at the top of the loop. *)
Definition reap (active : gmap Z Task) : gmap Z Task :=
  filter (fun kv => is_done kv.2 = false) active.

Definition _run_loop_capacity (cfg : DownloadManagerConfig)
    (active : gmap Z Task) : Z :=
  Z.max (max_parallel cfg - Z.of_nat (size active)) 0.

(** The rows that the query for [PENDING] finds; the query has no
    [ORDER BY], so the loop may receive them in any order. *)
Definition select_pending (db : DB) : list Download :=
  List.filter (fun d => bool_decide (status d = PENDING))
              (map snd (map_to_list (downloads db))).

(** The sort key: the rank of the priority and the creation time, with
    [datetime.min] for a missing one. *)
Definition sort_key (d : Download) : Z * datetime :=
  (_priority_rank (priority_value (priority d)),
   match created_at d with Some t => t | None => datetime_min end).

(** Tuple comparison [a <= b]. *)
Definition key_leb (a b : Z * datetime) : bool :=
  (a.1 <? b.1)%Z || ((a.1 =? b.1)%Z && (a.2 <=? b.2)%N).

(** [list.sort(key=sort_key, reverse=True)]: descending in the key, rows
    with equal keys stay in their order. *)
Fixpoint insert_reverse (x : Download) (l : list Download) : list Download :=
  match l with
  | y :: l' =>
      if key_leb (sort_key y) (sort_key x) then x :: y :: l'
      else y :: insert_reverse x l'
  | [] => [x]
  end.

Definition sort_reverse (l : list Download) : list Download :=
  foldr insert_reverse [] l.

(** [a] is dispatched no later than [b]: its key is at least that of [b]. *)
Definition key_ge (a b : Download) : Prop :=
  key_leb (sort_key b) (sort_key a) = true.

(** [l[:n]] *)
Definition py_slice_to {A} (n : Z) (l : list A) : list A :=
  if (0 <=? n)%Z then take (Z.to_nat n) l
  else take (length l - Z.to_nat (- n)) l.

(** The order in which [_spawn_pending] considers the fetched rows. *)
Definition spawn_order (rows : list Download) (active : gmap Z Task)
    : list Download :=
  let downloads := List.filter (fun d => bool_decide (active !! id d = None)) rows in
  sort_reverse downloads.

Definition spawn_all (chosen : list Download) (active : gmap Z Task)
    : gmap Z Task :=
  foldl (fun act d => <[id d := Spawned]> act) active chosen.

(** [_spawn_pending] after its query has returned [rows]. *)
Definition _spawn_pending (capacity : Z) (rows : list Download)
    (active : gmap Z Task) : gmap Z Task * bool :=
  let chosen := py_slice_to capacity (spawn_order rows active) in
  (spawn_all chosen active,
   match chosen with [] => false | _ => true end).

(* ===================================================================== *)
(** ** [routers/downloads.py] *)
(* ===================================================================== *)

(** What a handler returns: the job (the source copies its columns into the
    response model with [_to_out]) or an HTTP error. *)
Inductive Response (A : Type) :=
| Ok (a : A)
| HTTPException (status_code : Z) (detail : string).
Arguments Ok {A} a.
Arguments HTTPException {A} status_code detail.

Record DownloadCreateRequest := mkRequest {
  req_url : string;
  req_source : string;
  req_source_id : string;
  req_document_id : option Z;
  req_file_name : option string;
  req_priority : string
}.

Definition priority_map_get (s : string) : option DownloadPriority :=
  if String.eqb s "low" then Some LOW
  else if String.eqb s "normal" then Some NORMAL
  else if String.eqb s "high" then Some HIGH
  else None.

(** [enqueue_download]; the store assigns the key [new_id] and the creation
    time [now]. *)
Definition enqueue_download (payload : DownloadCreateRequest) (new_id : Z)
    (now : datetime) (db : DB) : Response Download * DB :=
  match priority_map_get (PyStr.lower (req_priority payload)) with
  | None => (HTTPException 400 "Invalid priority. Use low|normal|high", db)
  | Some priority =>
      let d := mkDownload new_id (req_document_id payload) (req_source payload)
                 (req_source_id payload) (req_url payload) None
                 (req_file_name payload) PENDING priority 0 0 None None
                 (Some 0) None None (Some now) None None in
      (Ok d, commit_at new_id d db)
  end.

Definition cancel_download (download_id : Z) (db : DB) : Response Download * DB :=
  match downloads db !! download_id with
  | None => (HTTPException 404 "Download not found", db)
  | Some d =>
      let d := set_status CANCELLED d in
      let d := set_error_message None d in
      (Ok d, commit_at download_id d db)
  end.

Definition retry_download (download_id : Z) (db : DB) : Response Download * DB :=
  match downloads db !! download_id with
  | None => (HTTPException 404 "Download not found", db)
  | Some d =>
      if negb (bool_decide (status d = FAILED) || bool_decide (status d = CANCELLED))
      then (HTTPException 400 "Only failed/cancelled downloads can be retried", db)
      else
        let d := set_status PENDING d in
        let d := set_progress 0 d in
        let d := set_downloaded_bytes 0 d in
        let d := set_total_bytes None d in
        let d := set_speed None d in
        let d := set_error_message None d in
        (Ok d, commit_at download_id d db)
  end.

(** ** The rows that the blocks write, for use in statements *)

(** The row after a successful [retry_download]. *)
Definition retried (d : Download) : Download :=
  set_error_message None (set_speed None (set_total_bytes None
    (set_downloaded_bytes 0 (set_progress 0 (set_status PENDING d))))).

(** The guard of [retry_download]. *)
Definition retry_allowed (d : Download) : bool :=
  bool_decide (status d = FAILED) || bool_decide (status d = CANCELLED).

(** The row after the claim of [_download_one]. *)
Definition claimed (E : Env) (t1 t2 : datetime) (fs : FS) (d : Download)
    : Download :=
  let d' := set_attempts (Some (or_zero (attempts d) + 1))
              (set_last_attempt (Some t2) (set_error_message None
                 (set_downloaded_bytes 0 (set_progress 0
                    (set_started_at (Some t1) (set_status DOWNLOADING d)))))) in
  set_file_path (Some (to_str (_build_target_path E d' fs).1)) d'.

(** The columns that neither the claim nor a retry assigns. *)
Definition same_request (d d' : Download) : Prop :=
  id d' = id d /\ document_id d' = document_id d /\ source d' = source d
  /\ source_id d' = source_id d /\ url d' = url d
  /\ file_name d' = file_name d /\ priority d' = priority d
  /\ created_at d' = created_at d.

(* ===================================================================== *)
(** ** The running system: store, files, loop and workers interleaved *)
(* ===================================================================== *)

(** One manager runs: the request handlers, the loop and the workers take
    turns, each turn being one suspension-free stretch of its coroutine.
    Waiting (the wake event and its timeout) only delays a turn and is not a
    step. The shutdown of the manager and failures of the store itself are
    not part of a run. *)

(** Where [_run_loop] stands: at the top of an iteration (or waiting for
    the wake event), inside the query of [_spawn_pending], or with the
    fetched rows in hand. The active map changes only in the loop itself. *)
Inductive LoopPhase :=
| AtTop
| Querying (capacity : Z)
| Fetched (capacity : Z) (rows : list Download).

Record Sys := mkSys {
  db : DB;
  fs : FS;
  active : gmap Z Task;
  loop : LoopPhase
}.

(** What can happen next, with the values that the surroundings supply. *)
Inductive Action :=
| AEnqueue (payload : DownloadCreateRequest) (new_id : Z) (now : datetime)
| ACancel (download_id : Z)
| ARetry (download_id : Z)
| ALoopTop
| AQuery (rows : list Download)
| ASpawn
| WClaim (download_id : Z) (now_started now_attempt : datetime)
| WOpen (download_id : Z) (total_bytes : option Z)
| WChunk (download_id : Z) (chunk_len : Z) (persist : option Z)
| WSeenCancelled (download_id : Z) (now : datetime)
| WTaskCancelled (download_id : Z) (now : datetime)
| WFailed (download_id : Z) (message : string) (now : datetime)
| WCompleted (download_id : Z) (now : datetime).

(** The task in which a worker has claimed its row and not yet left. *)
Definition in_flight (t : Task) : bool :=
  match t with Claimed _ _ | Streaming _ _ _ => true | _ => false end.

Definition target_of (t : Task) : option Path :=
  match t with
  | Claimed _ p | Streaming p _ _ => Some p
  | _ => None
  end.

Section Steps.

Variable cfg : DownloadManagerConfig.
Variable E : Env.

Inductive step : Sys -> Action -> Sys -> Prop :=
(* the request handlers *)
| step_enqueue s payload new_id now :
    downloads (db s) !! new_id = None ->
    step s (AEnqueue payload new_id now)
      (mkSys (enqueue_download payload new_id now (db s)).2 (fs s) (active s) (loop s))
| step_cancel s i :
    step s (ACancel i)
      (mkSys (cancel_download i (db s)).2 (fs s) (active s) (loop s))
| step_retry s i :
    step s (ARetry i)
      (mkSys (retry_download i (db s)).2 (fs s) (active s) (loop s))
(* the loop *)
| step_loop_top s :
    loop s = AtTop ->
    let active' := reap (active s) in
    let capacity := _run_loop_capacity cfg active' in
    step s ALoopTop
      (mkSys (db s) (fs s) active'
             (if (0 <? capacity)%Z then Querying capacity else AtTop))
| step_query s capacity rows :
    loop s = Querying capacity ->
    rows ≡ₚ select_pending (db s) ->
    step s (AQuery rows) (mkSys (db s) (fs s) (active s) (Fetched capacity rows))
| step_spawn s capacity rows :
    loop s = Fetched capacity rows ->
    step s ASpawn
      (mkSys (db s) (fs s) (_spawn_pending capacity rows (active s)).1 AtTop)
(* a worker *)
| step_claim s i t1 t2 :
    active s !! i = Some Spawned ->
    let r := _download_one_claim E i t1 t2 (db s, fs s) in
    step s (WClaim i t1 t2)
      (mkSys r.2.1 r.2.2
             (<[i := match r.1 with
                     | Some (u, p) => Claimed u p
                     | None => Done
                     end]> (active s))
             (loop s))
| step_open s i u p total :
    active s !! i = Some (Claimed u p) ->
    (forall t, total = Some t -> 0 <= t) ->
    step s (WOpen i total)
      (mkSys (db s) (create (part_path p) (fs s))
             (<[i := Streaming p total 0]> (active s)) (loop s))
| step_chunk s i p total downloaded chunk_len persist :
    active s !! i = Some (Streaming p total downloaded) ->
    0 <= chunk_len ->
    let r := _download_one_chunk i total downloaded chunk_len persist (db s) in
    step s (WChunk i chunk_len persist)
      (mkSys r.2 (fs s) (<[i := Streaming p total r.1]> (active s)) (loop s))
| step_seen_cancelled s i p total downloaded now :
    active s !! i = Some (Streaming p total downloaded) ->
    _is_cancelled i (db s) = true ->
    let w := _download_one_cancelled i p now (db s, fs s) in
    step s (WSeenCancelled i now)
      (mkSys w.1 w.2 (<[i := Done]> (active s)) (loop s))
| step_task_cancelled s i t p now :
    active s !! i = Some t ->
    target_of t = Some p ->
    let w := _download_one_cancelled i p now (db s, fs s) in
    step s (WTaskCancelled i now)
      (mkSys w.1 w.2 (<[i := Done]> (active s)) (loop s))
| step_failed s i t p message now :
    active s !! i = Some t ->
    target_of t = Some p ->
    let w := _download_one_failed i p message now (db s, fs s) in
    step s (WFailed i message now)
      (mkSys w.1 w.2 (<[i := Done]> (active s)) (loop s))
| step_completed s i p total downloaded now :
    active s !! i = Some (Streaming p total downloaded) ->
    let w := _mark_completed i downloaded total p now (db s, fs s) in
    step s (WCompleted i now)
      (mkSys w.1 w.2 (<[i := Done]> (active s)) (loop s)).

(** A fresh installation: no job, nothing active, the loop at its top. *)
Definition initial (docs : gmap Z Document) (fs0 : FS) : Sys :=
  mkSys (mkDB ∅ docs) fs0 ∅ AtTop.

Inductive reachable : Sys -> Prop :=
| reach_initial docs fs0 : reachable (initial docs fs0)
| reach_step s a s' : reachable s -> step s a s' -> reachable s'.

(** A run: the actions taken from one state to another, in order. *)
Inductive run : Sys -> list Action -> Sys -> Prop :=
| run_nil s : run s [] s
| run_cons s a s' l s'' : step s a s' -> run s' l s'' -> run s (a :: l) s''.

End Steps.

(* ===================================================================== *)
(** ** What holds of every state of a run *)
(* ===================================================================== *)

(** Whether the worker of a job, if any, is between its claim and its end. *)
Definition flight (t : option Task) : bool :=
  match t with Some x => in_flight x | None => false end.

(** A row, next to the knowledge whether its worker is in flight. *)
Definition row_ok (d : Download) (flying : bool) : Prop :=
  0 <= progress d <= 100
  /\ (status d = COMPLETED -> progress d = 100)
  /\ (progress d = 100 -> status d = COMPLETED \/ status d = CANCELLED)
  /\ (flying = true ->
        progress d <= 99 /\ status d <> COMPLETED /\ error_message d = None)
  /\ (status d = DOWNLOADING -> flying = true).


(** Between the computation of the capacity and the spawning, the loop
    holds a positive capacity that the active map still has room for. *)
Definition loop_ok (cfg : DownloadManagerConfig) (s : Sys) : Prop :=
  match loop s with
  | AtTop => True
  | Querying c | Fetched c _ =>
      0 < c /\ Z.of_nat (size (active s)) + c <= Z.max (max_parallel cfg) 0
  end.

(** Every row sits under its own id and is as its worker allows. *)
Definition rows_ok (rows : gmap Z Download) (act : gmap Z Task) : Prop :=
  forall i d, rows !! i = Some d ->
    id d = i /\ row_ok d (flight (act !! i)).

Definition Inv (cfg : DownloadManagerConfig) (s : Sys) : Prop :=
  rows_ok (downloads (db s)) (active s)
  /\ Z.of_nat (size (active s)) <= Z.max (max_parallel cfg) 0
  /\ loop_ok cfg s.

(* ===================================================================== *)
(** ** Values used in the examples *)
(* ===================================================================== *)

(** [os.path.basename] of [posixpath]: what follows the last slash. *)
Fixpoint after_last_slash (p : string) : option string :=
  match p with
  | String c p' =>
      match after_last_slash p' with
      | Some r => Some r
      | None => if Ascii.eqb c "/" then Some p' else None
      end
  | EmptyString => None
  end.

Definition posix_basename (p : string) : string :=
  match after_last_slash p with Some r => r | None => p end.

(** An environment for the examples: the library lives in [/library]; the
    URLs of the examples are bare paths, which [urlparse] returns whole as
    the path component. *)
Definition example_env : Env :=
  mkEnv (fun u => Some u) posix_basename (mkPath "/" ["library"]).

Definition example_cfg : DownloadManagerConfig := mkConfig 3 1048576 300.

Definition empty_fs : FS := mkFS ∅ ∅.

Definition example_job (i : Z) (src : string) (name : option string)
    (st : DownloadStatus) (pr : DownloadPriority) (created : datetime)
    : Download :=
  mkDownload i None src "manual" "/files/report.pdf" None name st pr 0 0
    None None (Some 0) None None (Some created) None None.

(** A store that holds the given rows under their ids, and a catalog. *)
Definition db_of (rows : list Download) (docs : gmap Z Document) : DB :=
  mkDB (list_to_map (map (fun d => (id d, d)) rows)) docs.

(** One job from its request to a cancellation after it has completed: the
    request, the row at each stage, and the state after each action. *)
Definition example_payload : DownloadCreateRequest :=
  mkRequest "/files/guide.pdf" "who" "manual" None (Some "guide.pdf") "normal".

Definition example_target : Path := mkPath "/" ["library"; "who"; "1-guide.pdf"].

Definition example_dirs : gset Path :=
  {[ mkPath "/" ["library"]; mkPath "/" ["library"; "who"] ]}.

Definition row_enqueued : Download :=
  mkDownload 1 None "who" "manual" "/files/guide.pdf" None (Some "guide.pdf")
    PENDING NORMAL 0 0 None None (Some 0) None None (Some 5%N) None None.

Definition row_claimed : Download :=
  mkDownload 1 None "who" "manual" "/files/guide.pdf"
    (Some "/library/who/1-guide.pdf") (Some "guide.pdf")
    DOWNLOADING NORMAL 0 0 None None (Some 1) (Some 11%N) None (Some 5%N)
    (Some 10%N) None.

Definition row_completed : Download :=
  mkDownload 1 None "who" "manual" "/files/guide.pdf"
    (Some "/library/who/1-guide.pdf") (Some "guide.pdf")
    COMPLETED NORMAL 100 4096 None None (Some 1) (Some 11%N) None (Some 5%N)
    (Some 10%N) (Some 20%N).

Definition row_cancelled : Download :=
  mkDownload 1 None "who" "manual" "/files/guide.pdf"
    (Some "/library/who/1-guide.pdf") (Some "guide.pdf")
    CANCELLED NORMAL 100 4096 None None (Some 1) (Some 11%N) None (Some 5%N)
    (Some 10%N) (Some 20%N).

Definition example_actions : list Action :=
  [ AEnqueue example_payload 1 5%N;
    ALoopTop;
    AQuery [row_enqueued];
    ASpawn;
    WClaim 1 10%N 11%N;
    WOpen 1 None;
    WChunk 1 4096 None;
    WCompleted 1 20%N;
    ACancel 1 ].

Definition st_enqueued : Sys :=
  mkSys (db_of [row_enqueued] ∅) empty_fs ∅ AtTop.

Definition st_querying : Sys :=
  mkSys (db_of [row_enqueued] ∅) empty_fs ∅ (Querying 3).

Definition st_fetched : Sys :=
  mkSys (db_of [row_enqueued] ∅) empty_fs ∅ (Fetched 3 [row_enqueued]).

Definition st_spawned : Sys :=
  mkSys (db_of [row_enqueued] ∅) empty_fs {[1 := Spawned]} AtTop.

Definition st_claimed : Sys :=
  mkSys (db_of [row_claimed] ∅) (mkFS ∅ example_dirs)
        {[1 := Claimed "/files/guide.pdf" example_target]} AtTop.

Definition st_open : Sys :=
  mkSys (db_of [row_claimed] ∅)
        (mkFS {[part_path example_target]} example_dirs)
        {[1 := Streaming example_target None 0]} AtTop.

Definition st_streaming : Sys :=
  mkSys (db_of [row_claimed] ∅)
        (mkFS {[part_path example_target]} example_dirs)
        {[1 := Streaming example_target None 4096]} AtTop.

Definition st_completed : Sys :=
  mkSys (db_of [row_completed] ∅) (mkFS {[example_target]} example_dirs)
        {[1 := Done]} AtTop.

Definition st_cancelled : Sys :=
  mkSys (db_of [row_cancelled] ∅) (mkFS {[example_target]} example_dirs)
        {[1 := Done]} AtTop.

(** A job that has failed with a message. *)
Definition row_failed : Download :=
  mkDownload 1 None "who" "manual" "/files/guide.pdf"
    (Some "/library/who/1-guide.pdf") (Some "guide.pdf")
    FAILED NORMAL 40 2048 (Some 4096) None (Some 1) (Some 11%N)
    (Some "connection reset") (Some 5%N) (Some 10%N) (Some 20%N).

(* ===================================================================== *)
(** ** [routers/downloads.py]: the response model and the read handler *)
(* ===================================================================== *)

(** The [value] of the status enumeration. *)
Definition status_value (s : DownloadStatus) : string :=
  match s with
  | PENDING => "pending"
  | DOWNLOADING => "downloading"
  | COMPLETED => "completed"
  | FAILED => "failed"
  | PAUSED => "paused"
  | CANCELLED => "cancelled"
  end.

Record DownloadOut := mkOut {
  out_id : Z;
  out_document_id : option Z;
  out_source : string;
  out_source_id : string;
  out_url : string;
  out_file_path : option string;
  out_file_name : option string;
  out_status : string;
  out_priority : string;
  out_progress : Z;
  out_downloaded_bytes : Z;
  out_total_bytes : option Z;
  out_speed : option Z;
  out_attempts : Z;
  out_last_attempt : option datetime;
  out_error_message : option string;
  out_created_at : option datetime;
  out_started_at : option datetime;
  out_completed_at : option datetime
}.

(** [_to_out]. On the integer columns [progress] and [downloaded_bytes] the
    source's [or 0] changes nothing; on [attempts] it turns a missing counter
    into zero. *)
Definition _to_out (d : Download) : DownloadOut :=
  mkOut (id d) (document_id d) (source d) (source_id d) (url d)
    (file_path d) (file_name d) (status_value (status d))
    (priority_value (priority d)) (progress d) (downloaded_bytes d)
    (total_bytes d) (speed d) (or_zero (attempts d)) (last_attempt d)
    (error_message d) (created_at d) (started_at d) (completed_at d).

Definition get_download (download_id : Z) (db : DB) : Response DownloadOut :=
  match downloads db !! download_id with
  | None => HTTPException 404 "Download not found"
  | Some d => Ok (_to_out d)
  end.

(** The rows of a list that carry a given sort key, in their order. *)
Definition with_key (k : Z * datetime) (l : list Download) : list Download :=
  List.filter (fun d => bool_decide (sort_key d = k)) l.

(** The fetched rows that [_spawn_pending] may choose from. *)
Definition candidates (rows : list Download) (active : gmap Z Task)
    : list Download :=
  List.filter (fun d => bool_decide (active !! id d = None)) rows.

(** Whether the last character of a string is of the space class. *)
Fixpoint ends_space (s : string) : bool :=
  match s with
  | String c s' =>
      match s' with
      | EmptyString => PyStr.is_space c
      | _ => ends_space s'
      end
  | EmptyString => false
  end.

(** A path as [pathlib] holds it: one of the three roots, and parts that
    are non-empty, are not a single dot and hold no slash. *)
Definition wf_part (c : string) : bool :=
  negb (PyStr.has_char PyStr.is_slash c) && keep_part c.

Definition wf_path (p : Path) : Prop :=
  (root p = "" \/ root p = "/" \/ root p = "//")
  /\ Forall (fun c => wf_part c = true) (parts p).

(* ===================================================================== *)
(** ** More of what holds of every state of a run *)
(* ===================================================================== *)

(** A job that a worker has claimed at least once. *)
Definition dispatched (d : Download) : Prop :=
  file_path d <> None /\ started_at d <> None /\ last_attempt d <> None
  /\ 1 <= or_zero (attempts d).

(** The byte counts that a streaming worker carries. *)
Definition task_shape (t : Task) : Prop :=
  match t with
  | Streaming _ total downloaded =>
      0 <= downloaded /\ (forall tb, total = Some tb -> 0 <= tb)
  | _ => True
  end.

(** The target path of the worker of a job, if it has one. *)
Definition worker_target (t : option Task) : option Path :=
  match t with Some x => target_of x | None => None end.

(** A row, next to the task of its worker. *)
Definition row_shape (E : Env) (d : Download) (t : option Task) : Prop :=
  status d <> PAUSED
  /\ (attempts d <> None /\ 0 <= or_zero (attempts d))
  /\ created_at d <> None
  /\ 0 <= downloaded_bytes d
  /\ (forall tb, total_bytes d = Some tb -> 0 <= tb)
  /\ (error_message d <> None <-> status d = FAILED)
  /\ (status d = COMPLETED \/ status d = FAILED -> completed_at d <> None)
  /\ (status d = DOWNLOADING \/ status d = COMPLETED \/ status d = FAILED ->
      dispatched d)
  /\ (flight t = false -> speed d = None)
  /\ (flight t = false -> status d = PENDING ->
      progress d = 0 /\ downloaded_bytes d = 0 /\ total_bytes d = None)
  /\ (forall p, worker_target t = Some p ->
        dispatched d /\ file_path d = Some (to_str p)
        /\ p = (_build_target_path E d empty_fs).1)
  /\ (forall u p, t = Some (Claimed u p) -> u = url d).

Definition Shape (E : Env) (s : Sys) : Prop :=
  (forall i d, downloads (db s) !! i = Some d ->
     row_shape E d (active s !! i))
  /\ (forall i t, active s !! i = Some t ->
        downloads (db s) !! i <> None /\ task_shape t)
  /\ match loop s with
     | Fetched _ rows =>
         forall d, d ∈ rows -> downloads (db s) !! id d <> None
     | _ => True
     end.

(** A second run, with two jobs claimed by two workers at the same time. *)
Definition example_payload2 : DownloadCreateRequest :=
  mkRequest "/files/atlas.pdf" "who" "manual" None (Some "atlas.pdf") "high".

Definition example_target2 : Path := mkPath "/" ["library"; "who"; "2-atlas.pdf"].

Definition row2_enqueued : Download :=
  mkDownload 2 None "who" "manual" "/files/atlas.pdf" None (Some "atlas.pdf")
    PENDING HIGH 0 0 None None (Some 0) None None (Some 6%N) None None.

Definition row2_claimed : Download :=
  mkDownload 2 None "who" "manual" "/files/atlas.pdf"
    (Some "/library/who/2-atlas.pdf") (Some "atlas.pdf")
    DOWNLOADING HIGH 0 0 None None (Some 1) (Some 13%N) None (Some 6%N)
    (Some 12%N) None.

Definition example_actions2 : list Action :=
  [ AEnqueue example_payload 1 5%N;
    AEnqueue example_payload2 2 6%N;
    ALoopTop;
    AQuery [row_enqueued; row2_enqueued];
    ASpawn;
    WClaim 1 10%N 11%N;
    WClaim 2 12%N 13%N ].

Definition st2_enqueued : Sys :=
  mkSys (db_of [row_enqueued; row2_enqueued] ∅) empty_fs ∅ AtTop.

Definition st2_querying : Sys :=
  mkSys (db_of [row_enqueued; row2_enqueued] ∅) empty_fs ∅ (Querying 3).

Definition st2_fetched : Sys :=
  mkSys (db_of [row_enqueued; row2_enqueued] ∅) empty_fs ∅
        (Fetched 3 [row_enqueued; row2_enqueued]).

Definition st2_spawned : Sys :=
  mkSys (db_of [row_enqueued; row2_enqueued] ∅) empty_fs
        {[1 := Spawned; 2 := Spawned]} AtTop.

Definition st2_claimed_one : Sys :=
  mkSys (db_of [row_claimed; row2_enqueued] ∅) (mkFS ∅ example_dirs)
        {[1 := Claimed "/files/guide.pdf" example_target; 2 := Spawned]} AtTop.

Definition st2_claimed : Sys :=
  mkSys (db_of [row_claimed; row2_claimed] ∅) (mkFS ∅ example_dirs)
        {[1 := Claimed "/files/guide.pdf" example_target;
          2 := Claimed "/files/atlas.pdf" example_target2]} AtTop.

(** The writes that a step can make to the row of a job that exists: the
    row stays, or it is rewritten by the one block that the action names. *)
Inductive row_write (E : Env) (s : Sys) (i : Z) (d : Download)
    : Action -> Download -> Prop :=
| write_none a : row_write E s i d a d
| write_cancel :
    row_write E s i d (ACancel i)
      (set_error_message None (set_status CANCELLED d))
| write_retry :
    retry_allowed d = true ->
    row_write E s i d (ARetry i) (retried d)
| write_claim t1 t2 :
    active s !! i = Some Spawned -> status d = PENDING ->
    row_write E s i d (WClaim i t1 t2) (claimed E t1 t2 (fs s) d)
| write_progress p total dl len sp :
    active s !! i = Some (Streaming p total dl) -> 0 <= len ->
    row_write E s i d (WChunk i len (Some sp))
      (set_progress
         (Z.max 0 (Z.min (_download_one_progress (dl + len) total) 99))
         (set_speed (Some sp) (set_total_bytes total
            (set_downloaded_bytes (dl + len) d))))
| write_cancelled a t now :
    active s !! i = Some t -> in_flight t = true ->
    a = WSeenCancelled i now \/ a = WTaskCancelled i now ->
    row_write E s i d a
      (set_speed None (set_completed_at (Some now) (set_status CANCELLED d)))
| write_failed t msg now :
    active s !! i = Some t -> in_flight t = true ->
    row_write E s i d (WFailed i msg now)
      (set_speed None (set_completed_at (Some now)
         (set_error_message (Some (PyStr.slice_to 512 msg))
            (set_status FAILED d))))
| write_completed p total dl now :
    active s !! i = Some (Streaming p total dl) ->
    row_write E s i d (WCompleted i now)
      (set_error_message None (set_speed None (set_total_bytes total
         (set_downloaded_bytes dl (set_progress 100
            (set_completed_at (Some now) (set_status COMPLETED d))))))).

(** The target path of a job, as the builder gives it for the row. *)
Definition job_target (E : Env) (d : Download) : Path :=
  (_build_target_path E d empty_fs).1.

(** A worker that is streaming to the temporary file of [p]. *)
Definition streaming_in (act : gmap Z Task) (i : Z) (p : Path) : Prop :=
  exists total downloaded, act !! i = Some (Streaming p total downloaded).

(** The files of a run that started on the file system [fs0]. *)
Definition files_ok (E : Env) (fs0 : FS) (s : Sys) : Prop :=
  (forall i p, streaming_in (active s) i p -> part_path p ∈ files (fs s))
  /\ (forall i d, downloads (db s) !! i = Some d ->
        (file_path d <> None -> file_path d = Some (to_str (job_target E d)))
        /\ (status d = COMPLETED -> job_target E d ∈ files (fs s)))
  /\ (forall q, q ∈ files (fs s) ->
        q ∈ files fs0
        \/ (exists i p, streaming_in (active s) i p /\ q = part_path p)
        \/ (exists i d, downloads (db s) !! i = Some d /\ q = job_target E d)).

(** An action other than the completion of a worker. *)
Definition no_completion (a : Action) : Prop :=
  forall i now, a <> WCompleted i now.

(* ===================================================================== *)
(** ** The stream loop of [_download_one], run without interruption *)
(* ===================================================================== *)

(** How the loop over the chunks ends. *)
Inductive StreamEnd :=
| StreamCancelled
| StreamFinished (downloaded : Z).

(** The loop over the chunks of the response when no other coroutine
    writes to the store in between: before each chunk the row is checked
    for a cancellation, then the chunk is counted and, when a second has
    passed, the row is written. Each chunk comes with its length and with
    the measured speed when the row is to be written. *)
Fixpoint _download_one_stream (download_id : Z) (total_bytes : option Z)
    (chunks : list (Z * option Z)) (downloaded : Z) (db : DB)
    : StreamEnd * DB :=
  match chunks with
  | [] => (StreamFinished downloaded, db)
  | (chunk_len, persist) :: rest =>
      if _is_cancelled download_id db then (StreamCancelled, db)
      else
        let r := _download_one_chunk download_id total_bytes downloaded
                   chunk_len persist db in
        _download_one_stream download_id total_bytes rest r.1 r.2
  end.

(** The bytes of a list of chunks. *)
Definition chunk_bytes (chunks : list (Z * option Z)) : Z :=
  foldr (fun c n => c.1 + n) 0 chunks.

(* ===================================================================== *)
(** * Properties *)
(* ===================================================================== *)

(** ** Strings *)

Module PyStrFacts.
Import PyStr.

#[global] Arguments is_space : simpl never.
#[global] Arguments is_illegal : simpl never.

Lemma has_char_cons p c s :
  has_char p (String c s) = p c || has_char p s.
Proof. reflexivity. Qed.

Lemma has_space_pair_cons c s :
  has_space_pair (String c s)
  = (is_space c && starts_space s) || has_space_pair s.
Proof. destruct s; simpl; [by rewrite andb_false_r|done]. Qed.

Lemma sub_class_no_char cls by_ s :
  cls by_ = false -> has_char cls (sub_class cls by_ s) = false.
Proof.
  intros Hby. induction s as [|c s IH]; [done|].
  simpl sub_class. rewrite has_char_cons, IH, orb_false_r.
  destruct (cls c) eqn:Hc; done.
Qed.

Lemma sub_class_truthy cls by_ s :
  truthy (sub_class cls by_ s) = truthy s.
Proof. by destruct s. Qed.

Lemma sub_class_length cls by_ s :
  String.length (sub_class cls by_ s) = String.length s.
Proof. induction s as [|c s IH]; simpl; congruence. Qed.

Lemma sub_runs_no_char p b s :
  p " "%char = false -> has_char p s = false ->
  has_char p (sub_runs b s) = false.
Proof.
  intros Hsp. revert b. induction s as [|c s IH]; intros b Hs; [done|].
  rewrite has_char_cons in Hs. apply orb_false_elim in Hs as [Hc Hs].
  simpl. destruct (is_space c), b; rewrite ?has_char_cons, ?Hsp, ?Hc; simpl; auto.
Qed.

Lemma sub_runs_true_start s : starts_space (sub_runs true s) = false.
Proof.
  induction s as [|c s IH]; [done|].
  simpl. destruct (is_space c) eqn:Hc; [done|]. simpl. done.
Qed.

Lemma sub_runs_no_pair b s : has_space_pair (sub_runs b s) = false.
Proof.
  revert b. induction s as [|c s IH]; intros b; [done|].
  simpl. destruct (is_space c) eqn:Hc.
  - destruct b; [apply IH|].
    rewrite has_space_pair_cons, sub_runs_true_start, IH.
    by rewrite andb_false_r.
  - rewrite has_space_pair_cons, Hc, IH. done.
Qed.

Lemma sub_runs_plain b s : only_plain_spaces (sub_runs b s) = true.
Proof.
  unfold only_plain_spaces. apply negb_true_iff.
  revert b. induction s as [|c s IH]; intros b; [done|].
  simpl. destruct (is_space c) eqn:Hc.
  - destruct b; [apply IH|]. rewrite has_char_cons, IH. done.
  - rewrite has_char_cons, Hc, IH. done.
Qed.

Lemma sub_runs_truthy s : truthy (sub_runs false s) = truthy s.
Proof. destruct s as [|c s]; [done|]. simpl. by destruct (is_space c). Qed.


Lemma lstrip_id s : starts_space s = false -> lstrip s = s.
Proof. destruct s as [|c s]; [done|]. simpl. by intros ->. Qed.



Lemma or_else_truthy a b : truthy b = true -> truthy (or_else a b) = true.
Proof. unfold or_else. by destruct (truthy a) eqn:Ha. Qed.

Lemma truthy_true s : truthy s = true <-> s <> "".
Proof. destruct s; simpl; split; congruence. Qed.



Lemma slice_to_short n s : (String.length s <= n)%nat -> slice_to n s = s.
Proof.
  revert s. induction n as [|n IH]; intros [|c s]; simpl; try done; try lia.
  intros Hl. f_equal. apply IH. lia.
Qed.

End PyStrFacts.

(** ** Decimal rendering of the job id *)

Module IntStrFacts.
Import PyStr.

Lemma uint_all_digits (d : uint) : all_digits (NilEmpty.string_of_uint d) = true.
Proof. induction d; simpl; try done; exact IHd. Qed.

Lemma nilzero_all_digits (d : uint) :
  all_digits (NilZero.string_of_uint d) = true.
Proof. destruct d; try done; apply (uint_all_digits (_ d)). Qed.

Lemma to_int_not_nil (i : Z) : Z.to_int i <> Pos Nil /\ Z.to_int i <> Neg Nil.
Proof.
  destruct i as [|p|p]; simpl; split; try discriminate;
    intros [= H]; by apply Unsigned.to_uint_nonnil in H.
Qed.

Lemma str_of_int_inj (i j : Z) : str_of_int i = str_of_int j -> i = j.
Proof.
  unfold str_of_int. intros Hs.
  destruct (to_int_not_nil i) as [Hi1 Hi2], (to_int_not_nil j) as [Hj1 Hj2].
  pose proof (NilZero.isi _ Hi1 Hi2) as Ei.
  pose proof (NilZero.isi _ Hj1 Hj2) as Ej.
  rewrite Hs, Ej in Ei. injection Ei as Ei.
  rewrite <- (DecimalZ.of_to i), <- (DecimalZ.of_to j). by rewrite Ei.
Qed.

(** A rendered id is a run of digits, with a minus sign in front of it for
    a negative id. *)
Lemma str_of_int_shape (i : Z) :
  exists s, all_digits s = true /\
            (str_of_int i = s \/ str_of_int i = String "-" s).
Proof.
  unfold str_of_int. destruct (Z.to_int i) as [d|d]; simpl;
    exists (NilZero.string_of_uint d); split; auto using nilzero_all_digits.
Qed.

(** The dash after a run of digits marks its end. *)
Lemma digits_dash_unique (s1 s2 r1 r2 : string) :
  all_digits s1 = true -> all_digits s2 = true ->
  s1 ++ String "-" r1 = s2 ++ String "-" r2 -> s1 = s2.
Proof.
  revert s2. induction s1 as [|c s1 IH]; intros [|c2 s2] H1 H2 Heq;
    simpl in *; try done.
  - injection Heq as <- _. by apply andb_prop in H2 as [? _].
  - injection Heq as -> _. by apply andb_prop in H1 as [? _].
  - injection Heq as -> Heq.
    apply andb_prop in H1 as [_ H1]. apply andb_prop in H2 as [_ H2].
    f_equal. by apply IH.
Qed.

Lemma all_digits_no_dash_start c s :
  all_digits (String c s) = true -> c <> "-"%char.
Proof. simpl. intros [H _]%andb_prop ->. done. Qed.

Lemma all_digits_nonempty_of_int (d : uint) :
  NilZero.string_of_uint d <> "".
Proof.
  destruct d; simpl; discriminate.
Qed.

(** The id can be read back from the file name of a job. *)
Lemma id_prefix_inj (i j : Z) (f g : string) :
  str_of_int i ++ "-" ++ f = str_of_int j ++ "-" ++ g -> i = j.
Proof.
  intros Heq. apply str_of_int_inj.
  destruct (str_of_int_shape i) as (si & Hsi & Hi),
           (str_of_int_shape j) as (sj & Hsj & Hj).
  assert (Hni : si <> "").
  { intros ->. unfold str_of_int in Hi.
    destruct (Z.to_int i) as [d|d]; simpl in Hi; destruct Hi as [Hi|Hi];
      try discriminate;
      first [ by apply all_digits_nonempty_of_int in Hi
            | injection Hi as Hi; by apply all_digits_nonempty_of_int in Hi
            | idtac ].
    pose proof (nilzero_all_digits d) as Hd. rewrite Hi in Hd. done. }
  assert (Hnj : sj <> "").
  { intros ->. unfold str_of_int in Hj.
    destruct (Z.to_int j) as [d|d]; simpl in Hj; destruct Hj as [Hj|Hj];
      try discriminate;
      first [ by apply all_digits_nonempty_of_int in Hj
            | injection Hj as Hj; by apply all_digits_nonempty_of_int in Hj
            | idtac ].
    pose proof (nilzero_all_digits d) as Hd. rewrite Hj in Hd. done. }
  change ("-" ++ f) with (String "-" f) in Heq.
  change ("-" ++ g) with (String "-" g) in Heq.
  destruct Hi as [Hi|Hi], Hj as [Hj|Hj]; rewrite Hi, Hj in Heq |- *.
  - by rewrite (digits_dash_unique _ _ _ _ Hsi Hsj Heq).
  - destruct si as [|c si]; [done|]. simpl in Heq. injection Heq as -> _.
    by apply all_digits_no_dash_start in Hsi.
  - destruct sj as [|c sj]; [done|]. simpl in Heq. injection Heq as <- _.
    by apply all_digits_no_dash_start in Hsj.
  - simpl in Heq. injection Heq as Heq.
    by rewrite (digits_dash_unique _ _ _ _ Hsi Hsj Heq).
Qed.

Lemma str_of_int_no_slash (i : Z) :
  has_char (fun c => Ascii.eqb c "/") (str_of_int i) = false.
Proof.
  assert (Hd : forall s, all_digits s = true ->
                 has_char (fun c => Ascii.eqb c "/") s = false).
  { induction s as [|c s IH]; [done|]. intros H.
    change (all_digits (String c s)) with (is_digit c && all_digits s) in H.
    apply andb_prop in H as [Hc Hs].
    rewrite PyStrFacts.has_char_cons, (IH Hs), orb_false_r.
    destruct (Ascii.eqb_spec c "/") as [->|]; done. }
  destruct (str_of_int_shape i) as (s & Hs & [->| ->]); [by apply Hd|].
  change (has_char _ (String "-" s))
    with (false || has_char (fun c => Ascii.eqb c "/") s). by rewrite Hd.
Qed.

Lemma str_of_int_truthy (i : Z) : truthy (str_of_int i) = true.
Proof.
  unfold str_of_int. destruct (Z.to_int i) as [d|d]; simpl; [|done].
  pose proof (all_digits_nonempty_of_int d). by destruct (NilZero.string_of_uint d).
Qed.

End IntStrFacts.

(** ** Sanitized names and path components *)

Module NameFacts.
Import PyStr PyStrFacts.

Lemma has_char_app p a b :
  has_char p (a ++ b) = has_char p a || has_char p b.
Proof.
  induction a as [|c a IH]; [done|].
  change (String c a ++ b) with (String c (a ++ b)).
  by rewrite !has_char_cons, IH, orb_assoc.
Qed.

Lemma has_char_weaken (p q : ascii -> bool) s :
  (forall c, q c = true -> p c = true) ->
  has_char p s = false -> has_char q s = false.
Proof.
  intros Hpq. induction s as [|c s IH]; [done|].
  rewrite !has_char_cons. intros [Hc Hs]%orb_false_elim.
  rewrite (IH Hs), orb_false_r.
  destruct (q c) eqn:Hq; [|done]. apply Hpq in Hq. congruence.
Qed.

Lemma safe_truthy name : truthy (_safe_filename name) = true.
Proof.
  unfold _safe_filename.
  by rewrite sub_runs_truthy, sub_class_truthy, or_else_truthy.
Qed.


Lemma safe_no_illegal name : has_char is_illegal (_safe_filename name) = false.
Proof.
  unfold _safe_filename. apply sub_runs_no_char; [done|].
  by apply sub_class_no_char.
Qed.

Lemma safe_no_slash name : has_char is_slash (_safe_filename name) = false.
Proof.
  apply (has_char_weaken is_illegal); [|apply safe_no_illegal].
  intros c Hc. unfold is_slash in Hc. by apply Ascii.eqb_eq in Hc as ->.
Qed.

Lemma safe_no_pair name : has_space_pair (_safe_filename name) = false.
Proof. apply sub_runs_no_pair. Qed.

Lemma safe_plain name : only_plain_spaces (_safe_filename name) = true.
Proof. apply sub_runs_plain. Qed.



End NameFacts.

Module PathFacts.
Import PyStr PyStrFacts NameFacts.

Lemma split_slash_component s :
  has_char is_slash s = false -> split_slash s = [s].
Proof.
  induction s as [|c s IH]; [done|].
  rewrite has_char_cons. intros [Hc Hs]%orb_false_elim.
  simpl. rewrite (IH Hs). unfold is_slash in Hc. by rewrite Hc.
Qed.

Lemma splitroot_component s :
  has_char is_slash s = false -> splitroot s = ("", s).
Proof.
  destruct s as [|c s]; [done|].
  rewrite has_char_cons. intros [Hc _]%orb_false_elim.
  unfold is_slash in Hc. apply Ascii.eqb_neq in Hc.
  unfold splitroot.
  destruct c as [[] [] [] [] [] [] [] []]; try done.
Qed.

Lemma of_str_component s :
  has_char is_slash s = false ->
  of_str s = mkPath "" (if keep_part s then [s] else []).
Proof.
  intros Hs. unfold of_str, parse_parts.
  by rewrite splitroot_component, split_slash_component.
Qed.

Lemma truediv_component p s :
  has_char is_slash s = false ->
  truediv p s = mkPath (root p) (parts p ++ (if keep_part s then [s] else []))%list.
Proof. intros Hs. unfold truediv. by rewrite of_str_component. Qed.

(** The file name of a job is one path component. *)
Lemma job_name_component (i : Z) (name : string) :
  let n := job_file_name i (_safe_filename name) in
  has_char is_slash n = false /\ keep_part n = true.
Proof.
  unfold job_file_name. simpl. split.
  - rewrite !has_char_app, safe_no_slash.
    pose proof (IntStrFacts.str_of_int_no_slash i) as Hi.
    unfold is_slash. by rewrite Hi.
  - pose proof (IntStrFacts.str_of_int_truthy i) as Hi.
    destruct (str_of_int i) as [|c r]; [done|].
    unfold keep_part. simpl. destruct (Ascii.eqb c "."); [|done].
    by destruct r.
Qed.

End PathFacts.

(* ===================================================================== *)
(** ** The target path builder *)
(* ===================================================================== *)

Module TargetPath.
Import PyStr PyStrFacts NameFacts PathFacts.

Lemma default_filename_cases (E : Env) (u : string) :
  _default_filename_from_url E u
  = match urlparse_path E u with
    | Some p => if truthy (os_path_basename E p) then os_path_basename E p
                else "download.bin"
    | None => "download.bin"
    end.
Proof. reflexivity. Qed.

Lemma source_dir_shape (E : Env) (src : string) :
  truediv (library_dir E) (_safe_filename src)
  = mkPath (root (library_dir E))
      (parts (library_dir E)
       ++ (if keep_part (_safe_filename src) then [_safe_filename src] else []))%list.
Proof. apply truediv_component, safe_no_slash. Qed.

Lemma target_path_parts (E : Env) (d : Download) (fs : FS) :
  (_build_target_path E d fs).1
  = mkPath (root (library_dir E))
      (parts (truediv (library_dir E) (_safe_filename (source d)))
       ++ [job_file_name (id d)
             (_safe_filename
                (opt_or_else (file_name d)
                   (_default_filename_from_url E (url d))))])%list.
Proof.
  unfold _build_target_path. cbn [fst].
  destruct (job_name_component (id d)
              (opt_or_else (file_name d) (_default_filename_from_url E (url d))))
    as [Hs Hk].
  rewrite (truediv_component _ _ Hs), Hk.
  by rewrite source_dir_shape.
Qed.




(** C9. Two jobs with distinct ids never get the same target path, whatever
    their sources, names and URLs are: the decimal id in front of the dash
    can be read back from the last component of the path. *)
Theorem target_path_injective_in_id (E : Env) (d1 d2 : Download) (fs1 fs2 : FS) :
  id d1 <> id d2 ->
  (_build_target_path E d1 fs1).1 <> (_build_target_path E d2 fs2).1.
Proof.
  intros Hid Heq. apply Hid.
  rewrite !target_path_parts in Heq.
  injection Heq as Heq.
  apply (f_equal (fun l => List.last l "")) in Heq.
  rewrite !last_last in Heq.
  by apply IntStrFacts.id_prefix_inj in Heq.
Qed.

Lemma target_path_injective_in_id_witness :
  let d1 := example_job 7 "who" (Some "guide.pdf") PENDING NORMAL 5%N in
  let d2 := example_job 8 "who" (Some "guide.pdf") PENDING NORMAL 5%N in
  (source d1 = source d2 /\ file_name d1 = file_name d2)
  /\ (_build_target_path example_env d1 empty_fs).1
     <> (_build_target_path example_env d2 empty_fs).1.
Proof.
  split; [split; reflexivity|].
  apply (target_path_injective_in_id example_env _ _ empty_fs empty_fs).
  simpl. lia.
Defined.

End TargetPath.

(* ===================================================================== *)
(** ** The blocks that write the store *)
(* ===================================================================== *)

Module StoreFacts.

Lemma commit_at_lookup k d db : downloads (commit_at k d db) !! k = Some d.
Proof. apply lookup_insert_eq. Qed.

Lemma commit_at_lookup_ne k j d db :
  k <> j -> downloads (commit_at k d db) !! j = downloads db !! j.
Proof. intros. by apply lookup_insert_ne. Qed.

Lemma commit_at_documents k d db : documents (commit_at k d db) = documents db.
Proof. reflexivity. Qed.

Lemma update_linked_downloads upd d db :
  downloads (update_linked upd d db) = downloads db.
Proof.
  unfold update_linked. destruct (truthy_int _); [|done].
  by destruct (documents db !! _).
Qed.

Lemma update_linked_hit upd d db k doc :
  document_id d = Some k -> k <> 0 -> documents db !! k = Some doc ->
  documents (update_linked upd d db) !! k = Some (upd d doc).
Proof.
  intros Hk Hne Hdoc. unfold update_linked. rewrite Hk. simpl.
  apply Z.eqb_neq in Hne as ->. simpl. rewrite Hdoc. simpl.
  apply lookup_insert_eq.
Qed.

(** Each block, seen from one row: what it leaves under another key, and
    the row it writes under its own. *)
Lemma update_progress_row i dl tb sp pr db j :
  downloads (_update_progress i dl tb sp pr db) !! j
  = if decide (i = j) then
      (fun d => set_progress (Z.max 0 (Z.min pr 99))
                  (set_speed sp (set_total_bytes tb (set_downloaded_bytes dl d))))
      <$> downloads db !! j
    else downloads db !! j.
Proof.
  unfold _update_progress. case_decide as Hij.
  - subst j. destruct (downloads db !! i) eqn:Hd; simpl; [|by rewrite Hd].
    apply commit_at_lookup.
  - destruct (downloads db !! i); [|done]. by apply commit_at_lookup_ne.
Qed.

Lemma mark_cancelled_row i now db j :
  downloads (_mark_cancelled i now db) !! j
  = if decide (i = j) then
      (fun d => set_speed None (set_completed_at (Some now) (set_status CANCELLED d)))
      <$> downloads db !! j
    else downloads db !! j.
Proof.
  unfold _mark_cancelled. case_decide as Hij.
  - subst j. destruct (downloads db !! i) eqn:Hd; simpl; [|by rewrite Hd].
    apply commit_at_lookup.
  - destruct (downloads db !! i); [|done]. by apply commit_at_lookup_ne.
Qed.

Lemma mark_failed_row i msg now db j :
  downloads (_mark_failed i msg now db) !! j
  = if decide (i = j) then
      (fun d => set_speed None (set_completed_at (Some now)
                  (set_error_message (Some (PyStr.slice_to 512 msg))
                     (set_status FAILED d))))
      <$> downloads db !! j
    else downloads db !! j.
Proof.
  unfold _mark_failed. case_decide as Hij.
  - subst j. destruct (downloads db !! i) eqn:Hd; simpl; [|by rewrite Hd].
    rewrite update_linked_downloads. apply commit_at_lookup.
  - destruct (downloads db !! i); [|done].
    rewrite update_linked_downloads. by apply commit_at_lookup_ne.
Qed.

Lemma mark_completed_row i dl tb p now db fs j :
  downloads (_mark_completed i dl tb p now (db, fs)).1 !! j
  = if decide (i = j) then
      (fun d => set_error_message None (set_speed None (set_total_bytes tb
                  (set_downloaded_bytes dl (set_progress 100
                     (set_completed_at (Some now) (set_status COMPLETED d)))))))
      <$> downloads db !! j
    else downloads db !! j.
Proof.
  unfold _mark_completed. case_decide as Hij.
  - subst j. destruct (downloads db !! i) eqn:Hd; simpl; [|by rewrite Hd].
    rewrite update_linked_downloads. apply commit_at_lookup.
  - destruct (downloads db !! i); [|done]. simpl.
    rewrite update_linked_downloads. by apply commit_at_lookup_ne.
Qed.

Lemma cancel_row i db j :
  downloads (cancel_download i db).2 !! j
  = if decide (i = j) then
      (fun d => set_error_message None (set_status CANCELLED d))
      <$> downloads db !! j
    else downloads db !! j.
Proof.
  unfold cancel_download. case_decide as Hij.
  - subst j. destruct (downloads db !! i) eqn:Hd; simpl; [|by rewrite Hd].
    apply commit_at_lookup.
  - destruct (downloads db !! i); [|done]. by apply commit_at_lookup_ne.
Qed.

Lemma retry_row i db j :
  downloads (retry_download i db).2 !! j
  = if decide (i = j) then
      (fun d => if retry_allowed d then retried d else d) <$> downloads db !! j
    else downloads db !! j.
Proof.
  unfold retry_download. fold (retry_allowed). case_decide as Hij.
  - subst j. destruct (downloads db !! i) as [d|] eqn:Hd; simpl; [|by rewrite Hd].
    fold (retry_allowed d). destruct (retry_allowed d); simpl; [|by rewrite Hd].
    apply commit_at_lookup.
  - destruct (downloads db !! i) as [d|]; [|done].
    fold (retry_allowed d). destruct (retry_allowed d); simpl; [|done].
    by apply commit_at_lookup_ne.
Qed.

Lemma claim_row E i t1 t2 db fs j :
  downloads (_download_one_claim E i t1 t2 (db, fs)).2.1 !! j
  = if decide (i = j) then
      (fun d => if bool_decide (status d = PENDING) then claimed E t1 t2 fs d else d)
      <$> downloads db !! j
    else downloads db !! j.
Proof.
  unfold _download_one_claim.
  destruct (downloads db !! i) as [d|] eqn:Hd.
  2:{ cbn [fst snd]. case_decide; [subst; by rewrite Hd|done]. }
  destruct (decide (status d = PENDING)) as [Hp|Hp].
  - rewrite (bool_decide_eq_false_2 (status d <> PENDING)) by tauto.
    match goal with
    | |- context [_build_target_path E ?x fs] =>
        pose proof (eq_refl : claimed E t1 t2 fs d
                    = set_file_path (Some (to_str (_build_target_path E x fs).1)) x)
          as Hc;
        destruct (_build_target_path E x fs) as [tp fs']
    end.
    cbn [fst snd commit_at downloads] in *.
    case_decide as Hij.
    + subst j. rewrite lookup_insert_eq, Hd. cbn [fmap option_fmap option_map].
      by rewrite (bool_decide_eq_true_2 _ Hp), Hc.
    + by rewrite lookup_insert_ne.
  - rewrite (bool_decide_eq_true_2 (status d <> PENDING)) by done.
    cbn [fst snd]. case_decide as Hij; [|done].
    subst j. rewrite Hd. cbn [fmap option_fmap option_map].
    by rewrite (bool_decide_eq_false_2 _ Hp).
Qed.

Lemma enqueue_row payload i now db j :
  downloads (enqueue_download payload i now db).2 !! j
  = match priority_map_get (PyStr.lower (req_priority payload)) with
    | Some pr =>
        if decide (i = j) then
          Some (mkDownload i (req_document_id payload) (req_source payload)
                  (req_source_id payload) (req_url payload) None
                  (req_file_name payload) PENDING pr 0 0 None None
                  (Some 0) None None (Some now) None None)
        else downloads db !! j
    | None => downloads db !! j
    end.
Proof.
  unfold enqueue_download. destruct (priority_map_get _); [|done].
  case_decide as Hij; [subst; apply commit_at_lookup|].
  by apply commit_at_lookup_ne.
Qed.

End StoreFacts.

(* ===================================================================== *)
(** ** Claiming a job, retrying it, recording a failure, writing progress *)
(* ===================================================================== *)

Module Blocks.
Import StoreFacts.

Lemma claim_result (E : Env) (i : Z) (t1 t2 : datetime) (db : DB) (fs : FS) :
  (_download_one_claim E i t1 t2 (db, fs)).1
  = match downloads db !! i with
    | Some d =>
        if bool_decide (status d = PENDING)
        then Some (url d, (_build_target_path E (claimed E t1 t2 fs d) fs).1)
        else None
    | None => None
    end.
Proof.
  unfold _download_one_claim.
  destruct (downloads db !! i) as [d|]; [|done].
  destruct (decide (status d = PENDING)) as [Hp|Hp].
  - rewrite (bool_decide_eq_false_2 (status d <> PENDING)) by tauto.
    rewrite (bool_decide_eq_true_2 _ Hp). reflexivity.
  - rewrite (bool_decide_eq_true_2 (status d <> PENDING)) by done.
    by rewrite (bool_decide_eq_false_2 _ Hp).
Qed.

Lemma claim_abort (E : Env) (i : Z) (t1 t2 : datetime) (db : DB) (fs : FS) :
  (forall d, downloads db !! i = Some d -> status d <> PENDING) ->
  _download_one_claim E i t1 t2 (db, fs) = (None, (db, fs)).
Proof.
  intros Hn. unfold _download_one_claim.
  destruct (downloads db !! i) as [d|]; [|done].
  by rewrite (bool_decide_eq_true_2 (status d <> PENDING)) by auto.
Qed.

Lemma claim_documents (E : Env) (i : Z) (t1 t2 : datetime) (db : DB) (fs : FS) :
  documents (_download_one_claim E i t1 t2 (db, fs)).2.1 = documents db.
Proof.
  unfold _download_one_claim.
  destruct (downloads db !! i) as [d|]; [|done].
  destruct (bool_decide (status d <> PENDING)); [done|].
  match goal with
  | |- context [_build_target_path E ?x fs] =>
      destruct (_build_target_path E x fs) as [tp fs']
  end. reflexivity.
Qed.


(** C4. For a job that exists, [retry_download] answers with the job exactly
    when its status is [FAILED] or [CANCELLED]; in every other status (a
    completed job among them) it answers with error 400 and the store is
    what it was. On success the committed row is [PENDING] with [progress]
    and [downloaded_bytes] zero and [total_bytes], [speed] and
    [error_message] empty; the other columns of the row, the other rows and
    the catalog are kept. *)
Theorem retry_download_guard (i : Z) (db : DB) (d : Download) :
  downloads db !! i = Some d ->
  let r := retry_download i db in
  ((exists d', r.1 = Ok d') <-> (status d = FAILED \/ status d = CANCELLED))
  /\ (status d <> FAILED -> status d <> CANCELLED ->
        r = (HTTPException 400 "Only failed/cancelled downloads can be retried", db))
  /\ (status d = COMPLETED -> exists detail, r = (HTTPException 400 detail, db))
  /\ (status d = FAILED \/ status d = CANCELLED ->
        exists d',
          r.1 = Ok d'
          /\ downloads r.2 !! i = Some d'
          /\ status d' = PENDING
          /\ progress d' = 0
          /\ downloaded_bytes d' = 0
          /\ total_bytes d' = None
          /\ speed d' = None
          /\ error_message d' = None
          /\ same_request d d'
          /\ file_path d' = file_path d
          /\ attempts d' = attempts d
          /\ last_attempt d' = last_attempt d
          /\ started_at d' = started_at d
          /\ completed_at d' = completed_at d
          /\ (forall j, j <> i -> downloads r.2 !! j = downloads db !! j)
          /\ documents r.2 = documents db).
Proof.
  intros Hd r.
  assert (Hno : status d <> FAILED -> status d <> CANCELLED ->
    r = (HTTPException 400 "Only failed/cancelled downloads can be retried", db)).
  { intros H1 H2. subst r. unfold retry_download. rewrite Hd.
    by rewrite (bool_decide_eq_false_2 _ H1), (bool_decide_eq_false_2 _ H2). }
  assert (Hyes : status d = FAILED \/ status d = CANCELLED ->
    r = (Ok (retried d), commit_at i (retried d) db)).
  { intros H. subst r. unfold retry_download. rewrite Hd.
    destruct H as [H|H]; rewrite (bool_decide_eq_true_2 _ H); try done.
    by rewrite orb_true_r. }
  split; [|split; [exact Hno|split]].
  - split.
    + intros [d' Hr].
      destruct (decide (status d = FAILED)); [by left|].
      destruct (decide (status d = CANCELLED)); [by right|].
      rewrite Hno in Hr by done. discriminate.
    + intros H. rewrite (Hyes H). eauto.
  - intros Hc. eexists. apply Hno; rewrite Hc; discriminate.
  - intros H. rewrite (Hyes H). exists (retried d).
    split; [reflexivity|]. split; [apply commit_at_lookup|].
    do 6 (split; [reflexivity|]).
    split; [by repeat split|].
    do 5 (split; [reflexivity|]).
    split; [|reflexivity].
    intros j Hj. by apply commit_at_lookup_ne.
Qed.



Lemma retry_download_guard_witness :
  let d := example_job 1 "who" (Some "guide.pdf") FAILED NORMAL 5%N in
  exists d', (retry_download 1 (db_of [d] ∅)).1 = Ok d' /\ status d' = PENDING.
Proof.
  cbv zeta.
  destruct (retry_download_guard 1
              (db_of [example_job 1 "who" (Some "guide.pdf") FAILED NORMAL 5%N] ∅)
              _ eq_refl) as (_ & _ & _ & H).
  destruct (H (or_introl eq_refl)) as (d' & Hr & _ & Hs & _).
  exists d'. split; [exact Hr|exact Hs].
Defined.

End Blocks.

Module Failure.
Import PyStr PyStrFacts StoreFacts.

Lemma unlink_part_gone (p : Path) (fs : FS) :
  part_path p ∉ files (unlink_part p fs).
Proof.
  unfold unlink_part, exists_. case_bool_decide as Hin; [|done].
  simpl. rewrite elem_of_difference, elem_of_singleton. tauto.
Qed.

Lemma unlink_part_others (p q : Path) (fs : FS) :
  q <> part_path p -> q ∈ files (unlink_part p fs) <-> q ∈ files fs.
Proof.
  intros Hq. unfold unlink_part, exists_. case_bool_decide; [|done].
  simpl. rewrite elem_of_difference, elem_of_singleton. tauto.
Qed.






End Failure.

Module Progress.
Import StoreFacts.

(** The row that [_update_progress] has written. *)
Lemma update_progress_written (i dl : Z) (tb sp : option Z) (pr : Z)
    (db : DB) (d' : Download) :
  downloads (_update_progress i dl tb sp pr db) !! i = Some d' ->
  exists d, downloads db !! i = Some d
    /\ d' = set_progress (Z.max 0 (Z.min pr 99))
              (set_speed sp (set_total_bytes tb (set_downloaded_bytes dl d))).
Proof.
  rewrite update_progress_row, decide_True by done.
  destruct (downloads db !! i) as [d|]; [|discriminate].
  intros [= <-]. eauto.
Qed.

Lemma update_progress_range (i dl : Z) (tb sp : option Z) (pr : Z)
    (db : DB) (d' : Download) :
  downloads (_update_progress i dl tb sp pr db) !! i = Some d' ->
  0 <= progress d' <= 99.
Proof.
  intros (d & _ & ->)%update_progress_written. simpl. lia.
Qed.

(** C10. Whatever [_update_progress] is called with, the row it commits
    has its progress between 0 and 99: the value written is the argument
    cut down to 99 and lifted to 0. The other three columns take the
    arguments as they are, and the status is not touched. *)
Theorem update_progress_clamped (i dl : Z) (tb sp : option Z) (pr : Z)
    (db : DB) (d' : Download) :
  downloads (_update_progress i dl tb sp pr db) !! i = Some d' ->
  0 <= progress d' <= 99
  /\ progress d' = Z.max 0 (Z.min pr 99)
  /\ downloaded_bytes d' = dl /\ total_bytes d' = tb /\ speed d' = sp
  /\ exists d, downloads db !! i = Some d /\ status d' = status d.
Proof.
  intros H. pose proof (update_progress_range _ _ _ _ _ _ _ H) as Hr.
  apply update_progress_written in H as (d & Hd & ->).
  split; [exact Hr|]. simpl. repeat split. eauto.
Qed.

(** The same for the write of the stream loop, whose progress is computed
    from the byte counts. *)
Lemma chunk_progress_clamped (i : Z) (total : option Z) (downloaded len speed : Z)
    (db : DB) (d' : Download) :
  downloads (_download_one_chunk i total downloaded len (Some speed) db).2 !! i
  = Some d' ->
  0 <= progress d' <= 99.
Proof.
  unfold _download_one_chunk. cbn [snd]. apply update_progress_range.
Qed.

(** A server that announces 100 bytes and has sent 250: the loop computes
    250 per cent and the row receives 99. *)
Lemma update_progress_clamped_witness :
  let d := example_job 1 "who" (Some "guide.pdf") DOWNLOADING NORMAL 5%N in
  let db := db_of [d] ∅ in
  _download_one_progress 250 (Some 100) = 250
  /\ exists d',
       downloads (_download_one_chunk 1 (Some 100) 200 50 (Some 7) db).2 !! 1
       = Some d'
       /\ 0 <= progress d' <= 99.
Proof.
  cbv zeta. split; [reflexivity|].
  eexists. split; [reflexivity|].
  refine (proj1 (update_progress_clamped 1 250 (Some 100) (Some 7) 250
            (db_of [example_job 1 "who" (Some "guide.pdf") DOWNLOADING NORMAL 5%N] ∅)
            _ eq_refl)).
Defined.

End Progress.

(* ===================================================================== *)
(** ** The dispatch order of [_spawn_pending] *)
(* ===================================================================== *)

Module Dispatch.

Lemma key_leb_total (a b : Z * datetime) : key_leb a b = false -> key_leb b a = true.
Proof.
  unfold key_leb. destruct a as [a1 a2], b as [b1 b2]; simpl.
  intros H. apply orb_false_elim in H as [H1 H2].
  apply Z.ltb_ge in H1.
  destruct (Z.ltb_spec b1 a1); [done|]. simpl.
  assert (a1 = b1) as -> by lia. rewrite Z.eqb_refl in *. simpl in *.
  apply N.leb_gt in H2. apply N.leb_le. lia.
Qed.

Lemma key_leb_trans (a b c : Z * datetime) :
  key_leb a b = true -> key_leb b c = true -> key_leb a c = true.
Proof.
  unfold key_leb. destruct a as [a1 a2], b as [b1 b2], c as [c1 c2]; simpl.
  intros [H1|[H1 H1']%andb_prop]%orb_prop [H2|[H2 H2']%andb_prop]%orb_prop;
    rewrite ?Z.ltb_lt, ?Z.eqb_eq, ?N.leb_le in *; apply orb_true_iff.
  - left. apply Z.ltb_lt. lia.
  - left. apply Z.ltb_lt. lia.
  - left. apply Z.ltb_lt. lia.
  - right. apply andb_true_iff. rewrite Z.eqb_eq, N.leb_le. split; lia.
Qed.

Lemma insert_reverse_perm (x : Download) (l : list Download) :
  insert_reverse x l ≡ₚ x :: l.
Proof.
  induction l as [|y l IH]; simpl; [done|].
  destruct (key_leb _ _); [done|]. by rewrite IH, Permutation_swap.
Qed.

Lemma sort_reverse_perm (l : list Download) : sort_reverse l ≡ₚ l.
Proof.
  induction l as [|x l IH]; simpl; [done|].
  by rewrite insert_reverse_perm, IH.
Qed.

Lemma insert_reverse_sorted (x : Download) (l : list Download) :
  StronglySorted key_ge l -> StronglySorted key_ge (insert_reverse x l).
Proof.
  induction 1 as [|y l Hs IH Hy]; simpl; [by repeat constructor|].
  destruct (key_leb (sort_key y) (sort_key x)) eqn:Hyx.
  - constructor; [by constructor|].
    constructor; [exact Hyx|].
    eapply Forall_impl; [exact Hy|]. intros z Hz.
    unfold key_ge in *. by eapply key_leb_trans.
  - constructor; [exact IH|].
    rewrite insert_reverse_perm. constructor; [|exact Hy].
    by apply key_leb_total.
Qed.

(** The rows come out in descending key order ... *)
Lemma sort_reverse_sorted (l : list Download) :
  StronglySorted key_ge (sort_reverse l).
Proof.
  induction l as [|x l IH]; simpl; [constructor|].
  by apply insert_reverse_sorted.
Qed.

(** ... and they are the fetched rows that have no task yet. *)
Lemma spawn_order_perm (rows : list Download) (active : gmap Z Task) :
  spawn_order rows active
  ≡ₚ List.filter (fun d => bool_decide (active !! id d = None)) rows.
Proof. apply sort_reverse_perm. Qed.

Lemma spawn_order_sorted (rows : list Download) (active : gmap Z Task) :
  StronglySorted key_ge (spawn_order rows active).
Proof. apply sort_reverse_sorted. Qed.

Lemma py_slice_to_take {A} (n : Z) (l : list A) :
  0 <= n -> py_slice_to n l = take (Z.to_nat n) l.
Proof. intros Hn. unfold py_slice_to. by apply Z.leb_le in Hn as ->. Qed.

(** A row with a strictly greater key is never left behind when a row with
    a smaller key is spawned. *)
Lemma greater_key_first (capacity : Z) (rows : list Download)
    (active : gmap Z Task) (a b : Download) :
  0 <= capacity ->
  a ∈ spawn_order rows active ->
  b ∈ py_slice_to capacity (spawn_order rows active) ->
  key_leb (sort_key a) (sort_key b) = false ->
  a ∈ py_slice_to capacity (spawn_order rows active).
Proof.
  intros Hc Ha Hb Hlt. rewrite py_slice_to_take in * by done.
  pose proof (spawn_order_sorted rows active) as Hs.
  rewrite <- (take_drop (Z.to_nat capacity) (spawn_order rows active)) in Ha, Hs.
  apply elem_of_app in Ha as [Ha|Ha]; [done|].
  pose proof (StronglySorted_app_1_elem_of _ _ _ _ _ Hs Hb Ha) as Hge.
  unfold key_ge in Hge. congruence.
Qed.

Lemma considered (rows : list Download) (active : gmap Z Task) (a : Download) :
  a ∈ rows -> active !! id a = None -> a ∈ spawn_order rows active.
Proof.
  intros Ha Hact. rewrite spawn_order_perm. rewrite list_elem_of_In, filter_In.
  rewrite <- list_elem_of_In. split; [exact Ha|].
  by apply bool_decide_eq_true.
Qed.

(** The part of C2 that holds: a [HIGH] job goes before a [NORMAL] one,
    whichever was created first. *)
Lemma high_before_normal (capacity : Z) (rows : list Download)
    (active : gmap Z Task) (a b : Download) :
  0 <= capacity ->
  priority a = HIGH -> priority b = NORMAL ->
  a ∈ rows -> active !! id a = None ->
  b ∈ py_slice_to capacity (spawn_order rows active) ->
  a ∈ py_slice_to capacity (spawn_order rows active).
Proof.
  intros Hc Hpa Hpb Ha Hact Hb.
  apply (greater_key_first capacity rows active a b);
    [done|by apply considered|done|].
  unfold key_leb, sort_key. rewrite Hpa, Hpb. reflexivity.
Qed.

(** The part of C2 that fails, in general: within one priority the job
    created later goes before the job created earlier. *)
Lemma newer_before_older_in_band (capacity : Z) (rows : list Download)
    (active : gmap Z Task) (a b : Download) (ta tb : datetime) :
  0 <= capacity ->
  priority a = priority b ->
  created_at a = Some ta -> created_at b = Some tb -> (tb < ta)%N ->
  a ∈ rows -> active !! id a = None ->
  b ∈ py_slice_to capacity (spawn_order rows active) ->
  a ∈ py_slice_to capacity (spawn_order rows active).
Proof.
  intros Hc Hp Hta Htb Hlt Ha Hact Hb.
  apply (greater_key_first capacity rows active a b);
    [done|by apply considered|done|].
  unfold key_leb, sort_key. rewrite Hp, Hta, Htb. cbn [fst snd].
  rewrite Z.ltb_irrefl, Z.eqb_refl. simpl. by apply N.leb_gt.
Qed.

(** C2, evaluated where it fails. Two [NORMAL] jobs, the first created at
    time 1 and the second at time 2, with room for one worker: whatever the
    order in which the query returns them, the job created last comes first
    in the dispatch order and is the one that is spawned. The reversed sort
    reverses the creation time together with the priority. *)
Theorem spawn_pending_newest_first_in_band :
  let older := example_job 1 "who" None PENDING NORMAL 1%N in
  let newer := example_job 2 "who" None PENDING NORMAL 2%N in
  spawn_order [older; newer] ∅ = [newer; older]
  /\ spawn_order [newer; older] ∅ = [newer; older]
  /\ _spawn_pending 1 [older; newer] ∅ = ({[2 := Spawned]}, true)
  /\ _spawn_pending 1 [newer; older] ∅ = ({[2 := Spawned]}, true).
Proof. cbv zeta. repeat split. Qed.

End Dispatch.

(* ===================================================================== *)
(** ** Invariants of a run *)
(* ===================================================================== *)

Module Run.
Import StoreFacts.

(** *** Rows under each block *)

Ltac solve_row_ok :=
  unfold row_ok in *; simpl in *;
  repeat match goal with H : _ /\ _ |- _ => destruct H end;
  repeat match goal with
         | |- _ /\ _ => split
         | |- _ -> _ => intro
         | |- _ <> _ => intro
         end;
  repeat match goal with
         | H : ?b = true -> _, H' : ?b = true |- _ => specialize (H H')
         | H : true = true -> _ |- _ => specialize (H eq_refl)
         end;
  repeat match goal with H : _ /\ _ |- _ => destruct H end;
  first [ lia | congruence | tauto
        | left; congruence | right; congruence ].

Lemma row_ok_enqueue i docid src sid u fname pr now b :
  row_ok (mkDownload i docid src sid u None fname PENDING pr 0 0 None None
            (Some 0) None None (Some now) None None) b.
Proof. solve_row_ok. Qed.

Lemma row_ok_cancel d b :
  row_ok d b -> row_ok (set_error_message None (set_status CANCELLED d)) b.
Proof. intros H. solve_row_ok. Qed.

Lemma row_ok_retry d b :
  row_ok d b -> row_ok (if retry_allowed d then retried d else d) b.
Proof.
  intros H. destruct (retry_allowed d) eqn:Ha; [|done].
  unfold retry_allowed in Ha.
  assert (Hs : status d <> DOWNLOADING).
  { intros Hs. rewrite Hs in Ha. discriminate. }
  clear Ha. solve_row_ok.
Qed.

Lemma row_ok_claim E t1 t2 fs d :
  row_ok d false -> row_ok (claimed E t1 t2 fs d) true.
Proof. intros H. solve_row_ok. Qed.

Lemma row_ok_progress dl tb sp pr d :
  row_ok d true ->
  row_ok (set_progress (Z.max 0 (Z.min pr 99))
            (set_speed sp (set_total_bytes tb (set_downloaded_bytes dl d)))) true.
Proof. intros H. solve_row_ok. Qed.

Lemma row_ok_cancelled now d :
  row_ok d true ->
  row_ok (set_speed None (set_completed_at (Some now) (set_status CANCELLED d)))
         false.
Proof. intros H. solve_row_ok. Qed.

Lemma row_ok_failed msg now d :
  row_ok d true ->
  row_ok (set_speed None (set_completed_at (Some now)
            (set_error_message (Some (PyStr.slice_to 512 msg))
               (set_status FAILED d)))) false.
Proof. intros H. solve_row_ok. Qed.

Lemma row_ok_completed dl tb now d :
  row_ok d true ->
  row_ok (set_error_message None (set_speed None (set_total_bytes tb
            (set_downloaded_bytes dl (set_progress 100
               (set_completed_at (Some now) (set_status COMPLETED d)))))))
         false.
Proof. intros H. solve_row_ok. Qed.

(** A worker that has not claimed, or has ended, is as good as none. *)
Lemma row_ok_grounded d b : row_ok d b -> status d <> DOWNLOADING -> row_ok d false.
Proof. intros H Hs. solve_row_ok. Qed.

(** *** The active map under the loop *)

Lemma spawn_all_lookup (chosen : list Download) (active : gmap Z Task) (i : Z) :
  spawn_all chosen active !! i
  = if decide (i ∈ map id chosen) then Some Spawned else active !! i.
Proof.
  revert active. induction chosen as [|d chosen IH]; intros active.
  - change (spawn_all [] active) with active. change (map id []) with (@nil Z).
    case_decide as H; [by apply elem_of_nil in H|done].
  - change (spawn_all (d :: chosen) active)
      with (spawn_all chosen (<[id d := Spawned]> active)).
    rewrite IH. simpl map.
    destruct (decide (i ∈ map id chosen)) as [Hin|Hin].
    + by rewrite decide_True by (by apply list_elem_of_further).
    + destruct (decide (i = id d)) as [->|Hne].
      * rewrite lookup_insert_eq. by rewrite decide_True by apply list_elem_of_here.
      * rewrite lookup_insert_ne by done.
        rewrite decide_False; [done|].
        intros [?|?]%elem_of_cons; done.
Qed.

Lemma spawn_all_size (chosen : list Download) (active : gmap Z Task) :
  (size (spawn_all chosen active) <= size active + length chosen)%nat.
Proof.
  revert active. induction chosen as [|d chosen IH]; intros active; [simpl; lia|].
  change (spawn_all (d :: chosen) active)
    with (spawn_all chosen (<[id d := Spawned]> active)).
  etrans; [apply IH|]. rewrite map_size_insert. simpl.
  destruct (active !! id d); unfold Datatypes.id; lia.
Qed.

Lemma py_slice_to_sublist {A} (n : Z) (l : list A) (x : A) :
  x ∈ py_slice_to n l -> x ∈ l.
Proof.
  unfold py_slice_to. destruct (Z.leb 0 n); intros H;
    by apply elem_of_take in H as (k & H%list_elem_of_lookup_2 & _).
Qed.

Lemma py_slice_to_length {A} (n : Z) (l : list A) :
  0 <= n -> Z.of_nat (length (py_slice_to n l)) <= n.
Proof.
  intros Hn. rewrite Dispatch.py_slice_to_take by done.
  rewrite length_take. lia.
Qed.

(** Only rows without a task are chosen. *)
Lemma chosen_not_active (c : Z) (rows : list Download) (active : gmap Z Task)
    (d : Download) :
  d ∈ py_slice_to c (spawn_order rows active) -> active !! id d = None.
Proof.
  intros H%py_slice_to_sublist. rewrite Dispatch.spawn_order_perm in H.
  apply list_elem_of_In, filter_In in H as [_ H].
  by apply bool_decide_eq_true in H.
Qed.

(** One call of [_spawn_pending] adds at most [capacity] tasks and replaces
    no task that exists. *)
Lemma spawn_pending_adds_at_most (c : Z) (rows : list Download)
    (active : gmap Z Task) :
  0 <= c ->
  Z.of_nat (size (_spawn_pending c rows active).1) <= Z.of_nat (size active) + c
  /\ forall i t, active !! i = Some t ->
       (_spawn_pending c rows active).1 !! i = Some t.
Proof.
  intros Hc. unfold _spawn_pending. cbn [fst]. split.
  - pose proof (spawn_all_size (py_slice_to c (spawn_order rows active)) active).
    pose proof (py_slice_to_length c (spawn_order rows active) Hc). lia.
  - intros i t Hi. rewrite spawn_all_lookup.
    destruct (decide _) as [Hin|]; [|done].
    apply list_elem_of_fmap in Hin as (d & -> & Hd).
    apply chosen_not_active in Hd. congruence.
Qed.

Lemma spawn_pending_flight (c : Z) (rows : list Download)
    (active : gmap Z Task) (i : Z) :
  flight ((_spawn_pending c rows active).1 !! i) = flight (active !! i).
Proof.
  unfold _spawn_pending. cbn [fst]. rewrite spawn_all_lookup.
  destruct (decide _) as [Hin|]; [|done].
  apply list_elem_of_fmap in Hin as (d & -> & Hd).
  apply chosen_not_active in Hd. by rewrite Hd.
Qed.

Lemma reap_flight (active : gmap Z Task) (i : Z) :
  flight (reap active !! i) = flight (active !! i).
Proof.
  unfold reap. destruct (active !! i) as [t|] eqn:Hi.
  - destruct (is_done t) eqn:Hd.
    + rewrite (proj2 (map_lookup_filter_None _ _ _)).
      * by destruct t.
      * right. intros t' Ht'. simpl. congruence.
    + by rewrite (map_lookup_filter_Some_2 _ _ _ _ Hi Hd).
  - rewrite (proj2 (map_lookup_filter_None _ _ _)); [done|]. by left.
Qed.

Lemma reap_size (active : gmap Z Task) : (size (reap active) <= size active)%nat.
Proof. apply map_subseteq_size, map_filter_subseteq. Qed.

(** *** Rows and tasks together *)

Lemma rows_ok_worker (rows rows' : gmap Z Download) (act : gmap Z Task)
    (i : Z) (t t' : Task) (f : Download -> Download) :
  rows_ok rows act ->
  act !! i = Some t ->
  (forall j, rows' !! j = if decide (i = j) then f <$> rows !! j else rows !! j) ->
  (forall d, rows !! i = Some d ->
     id (f d) = id d
     /\ (row_ok d (in_flight t) -> row_ok (f d) (in_flight t'))) ->
  rows_ok rows' (<[i := t']> act).
Proof.
  intros Hok Hi Hrows Hf j d' Hd'. rewrite Hrows in Hd'.
  destruct (decide (i = j)) as [<-|Hne].
  - destruct (rows !! i) as [d|] eqn:Hd; [|discriminate].
    injection Hd' as <-. rewrite lookup_insert_eq.
    destruct (Hok _ _ Hd) as [Hid Hrow], (Hf _ eq_refl) as [Hid' Hrow'].
    rewrite Hi in Hrow. split; [congruence|by apply Hrow'].
  - rewrite lookup_insert_ne by done. by apply Hok.
Qed.

Lemma rows_ok_handler (rows rows' : gmap Z Download) (act : gmap Z Task)
    (i : Z) (f : Download -> Download) :
  rows_ok rows act ->
  (forall j, rows' !! j = if decide (i = j) then f <$> rows !! j else rows !! j) ->
  (forall d b, id (f d) = id d /\ (row_ok d b -> row_ok (f d) b)) ->
  rows_ok rows' act.
Proof.
  intros Hok Hrows Hf j d' Hd'. rewrite Hrows in Hd'.
  destruct (decide (i = j)) as [<-|Hne]; [|by apply Hok].
  destruct (rows !! i) as [d|] eqn:Hd; [|discriminate].
  injection Hd' as <-.
  destruct (Hok _ _ Hd) as [Hid Hrow], (Hf d (flight (act !! i))) as [Hid' Hrow'].
  split; [congruence|by apply Hrow'].
Qed.

Lemma rows_ok_flight (rows : gmap Z Download) (act act' : gmap Z Task) :
  rows_ok rows act ->
  (forall i, flight (act' !! i) = flight (act !! i)) ->
  rows_ok rows act'.
Proof. intros Hok Hfl j d Hd. rewrite Hfl. by apply Hok. Qed.

Lemma chunk_row i total dl len persist db j :
  downloads (_download_one_chunk i total dl len persist db).2 !! j
  = if decide (i = j) then
      (fun d => match persist with
                | Some sp =>
                    set_progress
                      (Z.max 0 (Z.min (_download_one_progress (dl + len) total) 99))
                      (set_speed (Some sp) (set_total_bytes total
                         (set_downloaded_bytes (dl + len) d)))
                | None => d
                end) <$> downloads db !! j
    else downloads db !! j.
Proof.
  unfold _download_one_chunk. destruct persist as [sp|]; cbn [snd].
  - apply update_progress_row.
  - case_decide; [|done]. by destruct (downloads db !! j).
Qed.

Lemma target_in_flight (t : Task) (p : Path) :
  target_of t = Some p -> in_flight t = true.
Proof. by destruct t. Qed.

Lemma loop_ok_same (cfg : DownloadManagerConfig) (s s' : Sys) :
  loop s' = loop s -> size (active s') = size (active s) ->
  loop_ok cfg s -> loop_ok cfg s'.
Proof. unfold loop_ok. by intros -> ->. Qed.

Lemma size_insert_same (act : gmap Z Task) (i : Z) (t t' : Task) :
  act !! i = Some t -> size (<[i := t']> act) = size act.
Proof. intros Hi. by apply map_size_insert_Some. Qed.

(** *** Every step keeps the invariant *)

Section Preservation.

Variable cfg : DownloadManagerConfig.
Variable E : Env.

Lemma initial_inv docs fs0 : Inv cfg (initial docs fs0).
Proof.
  split; [|split].
  - intros i d Hd. simpl in Hd. by rewrite lookup_empty in Hd.
  - simpl. rewrite map_size_empty. lia.
  - exact I.
Qed.

Lemma worker_step_inv (s : Sys) (db' : DB) (fs' : FS) (i : Z) (t t' : Task)
    (f : Download -> Download) :
  Inv cfg s ->
  active s !! i = Some t ->
  (forall j, downloads db' !! j
             = if decide (i = j) then f <$> downloads (db s) !! j
               else downloads (db s) !! j) ->
  (forall d, downloads (db s) !! i = Some d ->
     id (f d) = id d
     /\ (row_ok d (in_flight t) -> row_ok (f d) (in_flight t'))) ->
  Inv cfg (mkSys db' fs' (<[i := t']> (active s)) (loop s)).
Proof.
  intros (Hrows & Hsize & Hloop) Hi Hdb Hf.
  split; [|split].
  - by apply (rows_ok_worker (downloads (db s)) _ _ i t t' f).
  - simpl. by rewrite (size_insert_same _ _ _ _ Hi).
  - apply (loop_ok_same cfg s); [done| |done].
    simpl. by apply (size_insert_same _ _ t).
Qed.

Lemma handler_step_inv (s : Sys) (db' : DB) (i : Z) (f : Download -> Download) :
  Inv cfg s ->
  (forall j, downloads db' !! j
             = if decide (i = j) then f <$> downloads (db s) !! j
               else downloads (db s) !! j) ->
  (forall d b, id (f d) = id d /\ (row_ok d b -> row_ok (f d) b)) ->
  Inv cfg (mkSys db' (fs s) (active s) (loop s)).
Proof.
  intros (Hrows & Hsize & Hloop) Hdb Hf.
  split; [|split]; [|done|done].
  by apply (rows_ok_handler (downloads (db s)) _ _ i f).
Qed.

Lemma step_inv (s s' : Sys) (a : Action) :
  Inv cfg s -> step cfg E s a s' -> Inv cfg s'.
Proof.
  intros Hinv Hstep. destruct Hstep.
  - (* enqueue *)
    destruct Hinv as (Hrows & Hsize & Hloop).
    split; [|split]; [|done|done].
    intros j d Hd. simpl in Hd. rewrite enqueue_row in Hd.
    destruct (priority_map_get _); [|by apply Hrows].
    destruct (decide (new_id = j)) as [<-|]; [|by apply Hrows].
    injection Hd as <-. split; [done|apply row_ok_enqueue].
  - (* cancel *)
    apply (handler_step_inv s _ i _ Hinv (cancel_row i (db s))).
    intros d b. split; [done|apply row_ok_cancel].
  - (* retry *)
    apply (handler_step_inv s _ i _ Hinv (retry_row i (db s))).
    intros d b. split; [by destruct (retry_allowed d)|apply row_ok_retry].
  - (* the top of the loop *)
    destruct Hinv as (Hrows & Hsize & Hloop).
    pose proof (reap_size (active s)) as Hreap.
    split; [|split].
    + apply (rows_ok_flight _ (active s)); [done|]. apply reap_flight.
    + simpl. subst active'. lia.
    + unfold loop_ok. simpl.
      destruct (Z.ltb_spec 0 capacity); [|done].
      subst capacity active'. unfold _run_loop_capacity in *. lia.
  - (* the query *)
    destruct Hinv as (Hrows & Hsize & Hloop).
    split; [|split]; [done|done|].
    unfold loop_ok in *. simpl. by rewrite H in Hloop.
  - (* the spawning *)
    destruct Hinv as (Hrows & Hsize & Hloop).
    unfold loop_ok in Hloop. rewrite H in Hloop. destruct Hloop as [Hc Hroom].
    destruct (spawn_pending_adds_at_most capacity rows (active s)) as [Hadd _];
      [lia|].
    split; [|split]; [| |exact I].
    + apply (rows_ok_flight _ (active s)); [done|]. apply spawn_pending_flight.
    + cbn [active]. lia.
  - (* the claim *)
    apply (worker_step_inv s _ _ i Spawned _ _ Hinv H
             (claim_row E i t1 t2 (db s) (fs s))).
    intros d Hd. subst r. rewrite Blocks.claim_result, Hd.
    destruct (bool_decide (status d = PENDING)) eqn:Hp.
    + split; [done|]. apply row_ok_claim.
    + split; [done|]. done.
  - (* the answer of the server *)
    apply (worker_step_inv s (db s) _ i (Claimed u p) _ (fun d => d) Hinv H).
    + intros j. case_decide; [|done]. by destruct (downloads (db s) !! j).
    + intros d Hd. done.
  - (* a chunk *)
    apply (worker_step_inv s _ _ i (Streaming p total downloaded) _ _ Hinv H
             (chunk_row i total downloaded chunk_len persist (db s))).
    intros d Hd. destruct persist; [|done].
    split; [done|apply row_ok_progress].
  - (* the cancellation seen in the store *)
    apply (worker_step_inv s _ _ i (Streaming p total downloaded) _ _ Hinv H
             (mark_cancelled_row i now (db s))).
    intros d Hd. split; [done|apply row_ok_cancelled].
  - (* the task cancelled *)
    apply (worker_step_inv s _ _ i t _ _ Hinv H
             (mark_cancelled_row i now (db s))).
    intros d Hd. rewrite (target_in_flight _ _ H0).
    split; [done|apply row_ok_cancelled].
  - (* the failure *)
    apply (worker_step_inv s _ _ i t _ _ Hinv H
             (mark_failed_row i message now (db s))).
    intros d Hd. rewrite (target_in_flight _ _ H0).
    split; [done|apply row_ok_failed].
  - (* the completion *)
    apply (worker_step_inv s _ _ i (Streaming p total downloaded) _ _ Hinv H
             (mark_completed_row i downloaded total p now (db s) (fs s))).
    intros d Hd. split; [done|apply row_ok_completed].
Qed.

Lemma reachable_inv (s : Sys) : reachable cfg E s -> Inv cfg s.
Proof.
  induction 1 as [docs fs0|s a s' _ IH Hstep]; [apply initial_inv|].
  by apply (step_inv s s' a).
Qed.

End Preservation.

(** *** The example run *)

Lemma step_to cfg E (s s' s'' : Sys) (a : Action) :
  step cfg E s a s' -> s' = s'' -> step cfg E s a s''.
Proof. by intros H <-. Qed.

Lemma run_snoc cfg E (s s' s'' : Sys) (l : list Action) (a : Action) :
  run cfg E s l s' -> step cfg E s' a s'' -> run cfg E s (l ++ [a])%list s''.
Proof.
  induction 1 as [s|s b s1 l s2 Hb _ IH]; intros Ha; simpl.
  - by apply (run_cons _ _ _ _ s''); [|apply run_nil].
  - apply (run_cons _ _ _ _ s1); [done|by apply IH].
Qed.

Lemma run_reachable cfg E (s s' : Sys) (l : list Action) :
  reachable cfg E s -> run cfg E s l s' -> reachable cfg E s'.
Proof.
  intros Hs Hrun. induction Hrun as [s|s a s1 l s2 Ha _ IH]; [done|].
  apply IH. by apply (reach_step _ _ s a).
Qed.

Ltac example_step lem :=
  eapply step_to; [eapply lem; first [vm_compute; reflexivity | lia | idtac]
                  | vm_compute; reflexivity].

Lemma example_run_prefixes :
  let go := run example_cfg example_env (initial ∅ empty_fs) in
  go (take 1 example_actions) st_enqueued
  /\ go (take 5 example_actions) st_claimed
  /\ go (take 8 example_actions) st_completed
  /\ go example_actions st_cancelled.
Proof.
  cbv zeta.
  assert (R1 : run example_cfg example_env (initial ∅ empty_fs)
                 (take 1 example_actions) st_enqueued).
  { apply (run_snoc _ _ _ _ _ [] _ (run_nil _ _ _)). example_step step_enqueue. }
  assert (R2 : run example_cfg example_env (initial ∅ empty_fs)
                 (take 2 example_actions) st_querying).
  { apply (run_snoc _ _ _ _ _ _ _ R1). example_step step_loop_top. }
  assert (R3 : run example_cfg example_env (initial ∅ empty_fs)
                 (take 3 example_actions) st_fetched).
  { apply (run_snoc _ _ _ _ _ _ _ R2). example_step step_query. }
  assert (R4 : run example_cfg example_env (initial ∅ empty_fs)
                 (take 4 example_actions) st_spawned).
  { apply (run_snoc _ _ _ _ _ _ _ R3). example_step step_spawn. }
  assert (R5 : run example_cfg example_env (initial ∅ empty_fs)
                 (take 5 example_actions) st_claimed).
  { apply (run_snoc _ _ _ _ _ _ _ R4). example_step step_claim. }
  assert (R6 : run example_cfg example_env (initial ∅ empty_fs)
                 (take 6 example_actions) st_open).
  { apply (run_snoc _ _ _ _ _ _ _ R5). example_step step_open. discriminate. }
  assert (R7 : run example_cfg example_env (initial ∅ empty_fs)
                 (take 7 example_actions) st_streaming).
  { apply (run_snoc _ _ _ _ _ _ _ R6). example_step step_chunk. }
  assert (R8 : run example_cfg example_env (initial ∅ empty_fs)
                 (take 8 example_actions) st_completed).
  { apply (run_snoc _ _ _ _ _ _ _ R7). example_step step_completed. }
  assert (R9 : run example_cfg example_env (initial ∅ empty_fs)
                 example_actions st_cancelled).
  { apply (run_snoc _ _ _ _ _ _ _ R8). example_step step_cancel. }
  auto.
Qed.

Lemma example_states_reachable :
  let ok := reachable example_cfg example_env in
  ok st_enqueued /\ ok st_claimed /\ ok st_completed /\ ok st_cancelled.
Proof.
  destruct example_run_prefixes as (R1 & R5 & R8 & R9).
  cbv zeta. repeat split;
    eapply run_reachable; try apply reach_initial; eassumption.
Qed.

(** *** Progress and status *)

(** C1, as amended. At every state of a run, every job has its progress
    between 0 and 100; a completed job has progress 100; a job with progress
    100 is completed or cancelled (cancelling a completed job leaves its
    progress where it is), so no pending, downloading, failed or paused job
    shows 100, and a job whose worker is in flight shows at most 99. Every
    write of [_update_progress] is at most 99 and the write of
    [_mark_completed] is 100 together with the status [COMPLETED]. *)
Theorem progress_invariant_amended (cfg : DownloadManagerConfig) (E : Env)
    (s : Sys) (i : Z) (d : Download) :
  reachable cfg E s ->
  downloads (db s) !! i = Some d ->
  0 <= progress d <= 100
  /\ (status d = COMPLETED -> progress d = 100)
  /\ (progress d = 100 -> status d = COMPLETED \/ status d = CANCELLED)
  /\ (flight (active s !! i) = true -> progress d <= 99)
  /\ (forall dl tb sp pr db0 d',
        downloads (_update_progress i dl tb sp pr db0) !! i = Some d' ->
        0 <= progress d' <= 99)
  /\ (forall dl tb p now db0 fs0 d',
        downloads (_mark_completed i dl tb p now (db0, fs0)).1 !! i = Some d' ->
        progress d' = 100 /\ status d' = COMPLETED).
Proof.
  intros Hs Hd.
  destruct (reachable_inv cfg E s Hs) as (Hrows & _ & _).
  destruct (Hrows i d Hd) as (_ & Hr & Hc & Hf & Hfl & _).
  split; [exact Hr|]. split; [exact Hc|]. split; [exact Hf|].
  split; [intros Hb; by destruct (Hfl Hb)|].
  split.
  - intros dl tb sp pr db0 d'. apply Progress.update_progress_range.
  - intros dl tb p now db0 fs0 d' H.
    rewrite mark_completed_row, decide_True in H by done.
    destruct (downloads db0 !! i) as [d0|]; [|done].
    by injection H as <-.
Qed.

(** C1, the claim as worded fails in one direction: after enqueue, dispatch,
    claim, a chunk and the completion, cancelling the job leaves it
    [CANCELLED] with progress 100. *)
Lemma progress_invariant_counterexample :
  run example_cfg example_env (initial ∅ empty_fs) example_actions st_cancelled
  /\ reachable example_cfg example_env st_cancelled
  /\ downloads (db st_cancelled) !! 1 = Some row_cancelled
  /\ progress row_cancelled = 100
  /\ status row_cancelled = CANCELLED
  /\ status row_cancelled <> COMPLETED.
Proof.
  destruct example_run_prefixes as (_ & _ & _ & R9).
  destruct example_states_reachable as (_ & _ & _ & H9).
  repeat split; try done.
Qed.

Lemma progress_invariant_amended_witness :
  reachable example_cfg example_env st_completed
  /\ downloads (db st_completed) !! 1 = Some row_completed
  /\ 0 <= progress row_completed <= 100
  /\ (status row_completed = COMPLETED -> progress row_completed = 100).
Proof.
  destruct example_states_reachable as (_ & _ & H8 & _).
  split; [exact H8|]. split; [reflexivity|].
  destruct (progress_invariant_amended example_cfg example_env st_completed 1
              row_completed H8 eq_refl) as (Hr & Hc & _).
  split; [exact Hr|exact Hc].
Defined.

(** *** The bound on the active map *)



(** *** Cancellation and the error message *)

Lemma step_rows (cfg : DownloadManagerConfig) (E : Env) (s s' : Sys)
    (a : Action) (i : Z) (d : Download) :
  Inv cfg s -> step cfg E s a s' ->
  downloads (db s) !! i = Some d ->
  exists d',
    downloads (db s') !! i = Some d'
    /\ (error_message d' = error_message d
        \/ (exists msg now, a = WFailed i msg now)
        \/ a = ACancel i
        \/ a = ARetry i
        \/ exists t1 t2, a = WClaim i t1 t2).
Proof.
  intros Hinv Hstep Hd. destruct Hstep; cbn [db].
  - rewrite enqueue_row. destruct (priority_map_get _); [|eauto].
    rewrite decide_False by congruence. eauto.
  - rewrite cancel_row. case_decide; [subst|rewrite Hd; eauto].
    rewrite Hd. simpl. eauto 10.
  - rewrite retry_row. case_decide; [subst|rewrite Hd; eauto].
    rewrite Hd. simpl. eauto 10.
  - eauto.
  - eauto.
  - eauto.
  - subst r. rewrite claim_row. case_decide; [subst|rewrite Hd; eauto].
    rewrite Hd. simpl. eauto 10.
  - eauto.
  - subst r. rewrite chunk_row. case_decide; [subst|rewrite Hd; eauto].
    rewrite Hd. simpl. destruct persist; eauto.
  - subst w. unfold _download_one_cancelled. cbn [fst].
    rewrite mark_cancelled_row. case_decide; rewrite Hd; simpl; eauto.
  - subst w. unfold _download_one_cancelled. cbn [fst].
    rewrite mark_cancelled_row. case_decide; rewrite Hd; simpl; eauto.
  - subst w. unfold _download_one_failed. cbn [fst].
    rewrite mark_failed_row. case_decide; [subst|rewrite Hd; eauto].
    rewrite Hd. simpl. eauto 10.
  - subst w. rewrite mark_completed_row.
    case_decide; [subst|rewrite Hd; eauto].
    rewrite Hd. simpl. eexists. split; [reflexivity|]. left. simpl.
    destruct Hinv as (Hrows & _ & _).
    destruct (Hrows _ _ Hd) as (_ & _ & _ & _ & Hfl & _).
    rewrite H in Hfl. by destruct (Hfl eq_refl) as (_ & _ & ->).
Qed.

(** C7, as amended. For a job that exists, [cancel_download] answers with
    the job, sets its status to [CANCELLED] whatever the status was, and
    empties its error message; every other column, every other row and the
    catalog stay as they are. In a run no step removes a job, and the error
    message of a job changes only in four steps on that job: a failure
    (which stores a new message), a cancel, a retry and a claim (which empty
    it). *)
Theorem cancel_and_error_message_amended :
  (forall (i : Z) (db0 : DB) (d : Download),
     downloads db0 !! i = Some d ->
     let r := cancel_download i db0 in
     exists d',
       r.1 = Ok d'
       /\ downloads r.2 !! i = Some d'
       /\ status d' = CANCELLED
       /\ error_message d' = None
       /\ same_request d d'
       /\ progress d' = progress d
       /\ downloaded_bytes d' = downloaded_bytes d
       /\ total_bytes d' = total_bytes d
       /\ speed d' = speed d
       /\ attempts d' = attempts d
       /\ file_path d' = file_path d
       /\ (forall j, j <> i -> downloads r.2 !! j = downloads db0 !! j)
       /\ documents r.2 = documents db0)
  /\ (forall (cfg : DownloadManagerConfig) (E : Env) (s s' : Sys) (a : Action)
             (i : Z) (d : Download),
        reachable cfg E s -> step cfg E s a s' ->
        downloads (db s) !! i = Some d ->
        exists d',
          downloads (db s') !! i = Some d'
          /\ (error_message d' = error_message d
              \/ (exists msg now, a = WFailed i msg now)
              \/ a = ACancel i
              \/ a = ARetry i
              \/ exists t1 t2, a = WClaim i t1 t2)).
Proof.
  split.
  - intros i db0 d Hd r. subst r. unfold cancel_download. rewrite Hd.
    eexists. split; [reflexivity|]. split; [apply commit_at_lookup|].
    do 2 (split; [reflexivity|]). split; [by repeat split|].
    do 6 (split; [reflexivity|]). split; [|reflexivity].
    intros j Hj. by apply commit_at_lookup_ne.
  - intros cfg E s s' a i d Hs Hstep Hd.
    by apply (step_rows cfg E s s' a i d (reachable_inv cfg E s Hs)).
Qed.

(** C7, the claim as worded fails for the error message: cancelling a
    failed job empties the message that the failure had stored, without any
    retry. *)
Lemma cancel_and_error_message_counterexample :
  let db0 := db_of [row_failed] ∅ in
  error_message <$> (downloads db0 !! 1) = Some (Some "connection reset")
  /\ status <$> (downloads db0 !! 1) = Some FAILED
  /\ status <$> (downloads (cancel_download 1 db0).2 !! 1) = Some CANCELLED
  /\ error_message <$> (downloads (cancel_download 1 db0).2 !! 1) = Some None.
Proof. cbv zeta. repeat split. Qed.

Lemma cancel_and_error_message_amended_witness :
  exists d',
    downloads (cancel_download 1 (db_of [row_enqueued] ∅)).2 !! 1 = Some d'
    /\ status d' = CANCELLED /\ error_message d' = None.
Proof.
  destruct (proj1 cancel_and_error_message_amended 1
              (db_of [row_enqueued] ∅) row_enqueued eq_refl)
    as (d' & _ & Hd & Hs & He & _).
  exists d'. split; [exact Hd|]. split; [exact Hs|exact He].
Defined.

End Run.

(* ===================================================================== *)
(** ** The request handlers, one after another *)
(* ===================================================================== *)

Module Handlers.
Import StoreFacts.

Lemma priority_map_get_value (s : string) (p : DownloadPriority) :
  priority_map_get s = Some p <-> s = priority_value p.
Proof.
  unfold priority_map_get.
  destruct (String.eqb_spec s "low") as [->|H1].
  { split; [by intros [= <-]|by destruct p]. }
  destruct (String.eqb_spec s "normal") as [->|H2].
  { split; [by intros [= <-]|by destruct p]. }
  destruct (String.eqb_spec s "high") as [->|H3].
  { split; [by intros [= <-]|by destruct p]. }
  split; [done|]. intros ->. by destruct p.
Qed.

(** X1. [enqueue_download] accepts a request exactly when its priority,
    lowered, is one of the three values of the enumeration, whatever the
    case it was written in. A rejected request is answered with error 400
    and leaves the store as it was. An accepted one adds one row under the
    new id: [PENDING], progress and byte count zero, no attempt, no error,
    no file path, the priority that was named and the request columns as
    sent; the rows under other ids and the catalog are untouched. *)
Theorem enqueue_download_validates (payload : DownloadCreateRequest)
    (i : Z) (now : datetime) (db : DB) :
  let r := enqueue_download payload i now db in
  ((exists d, r.1 = Ok d)
   <-> exists p, PyStr.lower (req_priority payload) = priority_value p)
  /\ ((forall p, PyStr.lower (req_priority payload) <> priority_value p) ->
      r = (HTTPException 400 "Invalid priority. Use low|normal|high", db))
  /\ (forall d, r.1 = Ok d ->
        downloads r.2 !! i = Some d
        /\ id d = i /\ status d = PENDING
        /\ priority_value (priority d) = PyStr.lower (req_priority payload)
        /\ progress d = 0 /\ downloaded_bytes d = 0 /\ attempts d = Some 0
        /\ total_bytes d = None /\ speed d = None
        /\ error_message d = None /\ file_path d = None
        /\ created_at d = Some now
        /\ started_at d = None /\ completed_at d = None
        /\ last_attempt d = None
        /\ url d = req_url payload /\ source d = req_source payload
        /\ source_id d = req_source_id payload
        /\ document_id d = req_document_id payload
        /\ file_name d = req_file_name payload
        /\ (forall j, j <> i -> downloads r.2 !! j = downloads db !! j)
        /\ documents r.2 = documents db).
Proof.
  intros r. subst r. unfold enqueue_download.
  destruct (priority_map_get (PyStr.lower (req_priority payload))) as [p|] eqn:Hp.
  - apply priority_map_get_value in Hp.
    split; [split; eauto|]. split.
    { intros Hn. by destruct (Hn p). }
    intros d [= <-]. cbn [fst snd].
    split; [apply commit_at_lookup|].
    do 2 (split; [reflexivity|]). split; [by rewrite Hp|].
    do 16 (split; [reflexivity|]). split; [|reflexivity].
    intros j Hj. by apply commit_at_lookup_ne.
  - assert (Hn : forall p, PyStr.lower (req_priority payload) <> priority_value p).
    { intros p Hv. apply priority_map_get_value in Hv. congruence. }
    split; [|split; [done|intros d [=]]].
    split; [by intros [d [=]]|]. intros [p Hv]. by destruct (Hn p).
Qed.

(** X2. What [enqueue_download] answers is what [get_download] answers for
    the new id right afterwards, and the answers for the other ids are what
    they were. [get_download] answers 404 for an id without a row. *)
Theorem get_after_enqueue (payload : DownloadCreateRequest) (i : Z)
    (now : datetime) (db : DB) (d : Download) :
  (enqueue_download payload i now db).1 = Ok d ->
  let db' := (enqueue_download payload i now db).2 in
  get_download i db' = Ok (_to_out d)
  /\ (forall j, j <> i -> get_download j db' = get_download j db)
  /\ (forall j, downloads db' !! j = None ->
        get_download j db' = HTTPException 404 "Download not found").
Proof.
  intros Hr db'.
  assert (Hrows : forall j, downloads db' !! j
            = if decide (i = j) then Some d else downloads db !! j).
  { intros j. subst db'. rewrite enqueue_row. unfold enqueue_download in Hr.
    destruct (priority_map_get _); [|done]. by injection Hr as <-. }
  unfold get_download. split; [|split].
  - by rewrite Hrows, decide_True.
  - intros j Hj. by rewrite Hrows, decide_False.
  - intros j Hj. by rewrite Hj.
Qed.

Lemma get_after_enqueue_witness :
  exists d,
    (enqueue_download example_payload 1 5%N (db_of [] ∅)).1 = Ok d
    /\ get_download 1 (enqueue_download example_payload 1 5%N (db_of [] ∅)).2
       = Ok (_to_out d)
    /\ out_status (_to_out d) = "pending".
Proof.
  exists row_enqueued. split; [reflexivity|].
  split; [|reflexivity].
  apply (get_after_enqueue example_payload 1 5%N (db_of [] ∅) row_enqueued eq_refl).
Defined.

Lemma cancel_result (i : Z) (db : DB) :
  cancel_download i db
  = match downloads db !! i with
    | Some d =>
        (Ok (set_error_message None (set_status CANCELLED d)),
         commit_at i (set_error_message None (set_status CANCELLED d)) db)
    | None => (HTTPException 404 "Download not found", db)
    end.
Proof. unfold cancel_download. by destruct (downloads db !! i). Qed.

Lemma retry_result (i : Z) (db : DB) :
  retry_download i db
  = match downloads db !! i with
    | Some d =>
        if retry_allowed d then (Ok (retried d), commit_at i (retried d) db)
        else (HTTPException 400 "Only failed/cancelled downloads can be retried", db)
    | None => (HTTPException 404 "Download not found", db)
    end.
Proof.
  unfold retry_download. destruct (downloads db !! i) as [d|]; [|done].
  fold (retry_allowed d). by destruct (retry_allowed d).
Qed.

Lemma commit_at_twice (i : Z) (d d' : Download) (db : DB) :
  commit_at i d' (commit_at i d db) = commit_at i d' db.
Proof. unfold commit_at. simpl. by rewrite insert_insert_eq. Qed.

(** X4. Cancelling twice is cancelling once: the second [cancel_download]
    answers with the same job and leaves the store of the first. *)
Theorem cancel_download_idempotent (i : Z) (db : DB) :
  cancel_download i (cancel_download i db).2
  = ((cancel_download i db).1, (cancel_download i db).2).
Proof.
  rewrite (cancel_result i db).
  destruct (downloads db !! i) as [d|] eqn:Hd; cbn [fst snd].
  - rewrite cancel_result, commit_at_lookup. by rewrite commit_at_twice.
  - by rewrite cancel_result, Hd.
Qed.

(** X5. A retry is never accepted twice in a row: whatever the first
    [retry_download] of a job did, a second one right after it is answered
    with error 400 and changes nothing. *)
Theorem retry_download_not_twice (i : Z) (db : DB) (d : Download) :
  downloads db !! i = Some d ->
  let db1 := (retry_download i db).2 in
  retry_download i db1
  = (HTTPException 400 "Only failed/cancelled downloads can be retried", db1).
Proof.
  intros Hd db1. subst db1. rewrite (retry_result i db), Hd.
  destruct (retry_allowed d) eqn:Ha; cbn [snd].
  - by rewrite retry_result, commit_at_lookup.
  - by rewrite retry_result, Hd, Ha.
Qed.

Lemma retry_download_not_twice_witness :
  downloads (db_of [row_failed] ∅) !! 1 = Some row_failed
  /\ (exists d, (retry_download 1 (db_of [row_failed] ∅)).1 = Ok d)
  /\ (retry_download 1 (retry_download 1 (db_of [row_failed] ∅)).2).1
     = HTTPException 400 "Only failed/cancelled downloads can be retried".
Proof.
  split; [reflexivity|]. split; [by eexists|].
  by rewrite (retry_download_not_twice 1 (db_of [row_failed] ∅) row_failed eq_refl).
Defined.

(** X6. A cancel followed by a retry puts any job that exists back in the
    queue, whatever its status was, a completed job included: the retry is
    accepted and the row is [PENDING] with progress and byte count zero, no
    total, no speed and no error, while the attempt counter, the file path
    and the request columns are those of before. *)
Theorem cancel_then_retry_requeues (i : Z) (db : DB) (d : Download) :
  downloads db !! i = Some d ->
  let r := retry_download i (cancel_download i db).2 in
  exists d',
    r.1 = Ok d'
    /\ downloads r.2 !! i = Some d'
    /\ status d' = PENDING
    /\ progress d' = 0 /\ downloaded_bytes d' = 0
    /\ total_bytes d' = None /\ speed d' = None /\ error_message d' = None
    /\ attempts d' = attempts d /\ file_path d' = file_path d
    /\ same_request d d'
    /\ (forall j, j <> i -> downloads r.2 !! j = downloads db !! j).
Proof.
  intros Hd r. subst r. rewrite cancel_result, Hd. cbn [snd].
  rewrite retry_result, commit_at_lookup.
  change (retry_allowed (set_error_message None (set_status CANCELLED d)))
    with true. cbn [fst snd].
  eexists. split; [reflexivity|]. split; [apply commit_at_lookup|].
  do 8 (split; [reflexivity|]). split; [by repeat split|].
  intros j Hj. by rewrite !commit_at_lookup_ne.
Qed.

Lemma cancel_then_retry_requeues_witness :
  exists d',
    downloads (retry_download 1 (cancel_download 1 (db_of [row_completed] ∅)).2).2
      !! 1 = Some d'
    /\ status d' = PENDING /\ progress d' = 0.
Proof.
  destruct (cancel_then_retry_requeues 1 (db_of [row_completed] ∅)
              row_completed eq_refl)
    as (d' & _ & Hd & Hs & Hp & _).
  exists d'. split; [exact Hd|]. split; [exact Hs|exact Hp].
Defined.

(** X7. The check of the stream loop sees a cancellation: [_is_cancelled]
    is true exactly for a row that exists with status [CANCELLED]; it is
    false for an id without a row, true right after a [cancel_download] of
    a job that exists, and false again after an accepted retry. *)
Theorem is_cancelled_follows_requests (i : Z) (db : DB) :
  (_is_cancelled i db = true
   <-> exists d, downloads db !! i = Some d /\ status d = CANCELLED)
  /\ (downloads db !! i = None -> _is_cancelled i db = false)
  /\ (downloads db !! i <> None ->
      _is_cancelled i (cancel_download i db).2 = true)
  /\ (forall d, (retry_download i db).1 = Ok d ->
      _is_cancelled i (retry_download i db).2 = false).
Proof.
  split; [|split; [|split]].
  - unfold _is_cancelled. destruct (downloads db !! i) as [d|].
    + rewrite bool_decide_eq_true. split; [eauto|]. by intros (? & [= <-] & ?).
    + split; [done|]. by intros (? & ? & ?).
  - unfold _is_cancelled. by intros ->.
  - intros Hex. rewrite cancel_result.
    destruct (downloads db !! i) as [d|]; [|done]. cbn [snd].
    unfold _is_cancelled. by rewrite commit_at_lookup.
  - intros d. rewrite retry_result.
    destruct (downloads db !! i) as [d0|]; [|done].
    destruct (retry_allowed d0); [|done]. intros _. cbn [snd].
    unfold _is_cancelled. by rewrite commit_at_lookup.
Qed.

(** X8. A job is claimed by one worker only: the first block of
    [_download_one] run again after it has gone on returns at once and
    changes neither the store nor the files; and run after a
    [cancel_download] of the job it returns at once as well, so a job
    cancelled before its worker starts is not downloaded. *)
Theorem claim_not_twice_nor_after_cancel (E : Env) (i : Z)
    (t1 t2 t3 t4 : datetime) (db : DB) (fs : FS) :
  let r := _download_one_claim E i t1 t2 (db, fs) in
  (is_Some r.1 -> _download_one_claim E i t3 t4 r.2 = (None, r.2))
  /\ _download_one_claim E i t1 t2 ((cancel_download i db).2, fs)
     = (None, ((cancel_download i db).2, fs)).
Proof.
  intros r. split.
  - intros Hsome.
    rewrite (surjective_pairing r.2).
    apply Blocks.claim_abort. intros d' Hrow.
    subst r. rewrite claim_row, decide_True in Hrow by done.
    rewrite Blocks.claim_result in Hsome.
    destruct (downloads db !! i) as [d|]; [|by destruct Hsome].
    cbn in Hrow.
    destruct (bool_decide (status d = PENDING)); [|by destruct Hsome].
    injection Hrow as <-. discriminate.
  - apply Blocks.claim_abort. intros d' Hd'.
    rewrite cancel_row, decide_True in Hd' by done.
    destruct (downloads db !! i) as [d|]; [|done].
    injection Hd' as <-. discriminate.
Qed.



End Handlers.

(* ===================================================================== *)
(** ** The blocks of a worker, beyond the claims *)
(* ===================================================================== *)

Module WorkerBlocks.
Import StoreFacts.

(** X3. On an id that has no row nothing is written: [cancel_download],
    [retry_download] and [get_download] answer 404, and the claim,
    [_update_progress], [_mark_failed], [_mark_cancelled] and
    [_mark_completed] return with the store as it was. [_mark_completed]
    has by then moved the temporary file onto the target, if there was
    one. *)
Theorem blocks_on_missing_row (E : Env) (i : Z) (db : DB) (fs : FS) :
  downloads db !! i = None ->
  cancel_download i db = (HTTPException 404 "Download not found", db)
  /\ retry_download i db = (HTTPException 404 "Download not found", db)
  /\ get_download i db = HTTPException 404 "Download not found"
  /\ (forall t1 t2, _download_one_claim E i t1 t2 (db, fs) = (None, (db, fs)))
  /\ (forall dl tb sp pr, _update_progress i dl tb sp pr db = db)
  /\ (forall msg now, _mark_failed i msg now db = db)
  /\ (forall now, _mark_cancelled i now db = db)
  /\ (forall dl tb p now,
        _mark_completed i dl tb p now (db, fs)
        = (db, if exists_ (part_path p) fs
               then replace (part_path p) p fs else fs)).
Proof.
  intros Hn.
  unfold cancel_download, retry_download, get_download, _update_progress,
    _mark_failed, _mark_cancelled, _mark_completed.
  rewrite Hn. repeat split.
  intros t1 t2. apply Blocks.claim_abort. intros d Hd. congruence.
Qed.

Lemma blocks_on_missing_row_witness :
  downloads (db_of [row_enqueued] ∅) !! 2 = None
  /\ cancel_download 2 (db_of [row_enqueued] ∅)
     = (HTTPException 404 "Download not found", db_of [row_enqueued] ∅)
  /\ _mark_failed 2 "boom" 9%N (db_of [row_enqueued] ∅) = db_of [row_enqueued] ∅.
Proof.
  split; [reflexivity|].
  destruct (blocks_on_missing_row example_env 2 (db_of [row_enqueued] ∅)
              empty_fs eq_refl) as (Hc & _ & _ & _ & _ & Hf & _).
  split; [exact Hc|apply Hf].
Defined.

(** X10. [_mark_completed] on a job that exists: the row becomes
    [COMPLETED] with progress 100, the byte count and the total it was
    given, no speed, no error and [completed_at] set, while the attempt
    counter, the file path, the start time and the request columns stay; no
    other row changes. If the temporary file existed, the target exists
    afterwards and (the two paths being different) the temporary file does
    not; if it did not exist, the files are as they were. A linked catalog
    entry that exists is marked downloaded and completed and receives the
    file path of the job and the byte count; its recorded download error is
    not cleared. *)
Theorem mark_completed_effect (i dl : Z) (tb : option Z) (p : Path)
    (now : datetime) (db : DB) (fs : FS) (d : Download) :
  downloads db !! i = Some d ->
  let w := _mark_completed i dl tb p now (db, fs) in
  (exists d',
     downloads w.1 !! i = Some d'
     /\ status d' = COMPLETED /\ progress d' = 100
     /\ downloaded_bytes d' = dl /\ total_bytes d' = tb
     /\ speed d' = None /\ error_message d' = None
     /\ completed_at d' = Some now
     /\ attempts d' = attempts d /\ file_path d' = file_path d
     /\ started_at d' = started_at d /\ last_attempt d' = last_attempt d
     /\ same_request d d')
  /\ (forall j, j <> i -> downloads w.1 !! j = downloads db !! j)
  /\ (part_path p ∈ files fs ->
        p ∈ files w.2 /\ (part_path p <> p -> part_path p ∉ files w.2))
  /\ (part_path p ∉ files fs -> w.2 = fs)
  /\ dirs w.2 = dirs fs
  /\ (forall k doc,
        document_id d = Some k -> k <> 0 -> documents db !! k = Some doc ->
        exists doc',
          documents w.1 !! k = Some doc'
          /\ is_downloaded doc' = true
          /\ download_status doc' = Some "completed"
          /\ doc_file_path doc' = file_path d
          /\ file_size doc' = Some dl
          /\ download_error doc' = download_error doc
          /\ download_attempts doc' = download_attempts doc).
Proof.
  intros Hd w.
  split.
  { subst w. rewrite mark_completed_row, decide_True, Hd by done.
    eexists. split; [reflexivity|]. by repeat split. }
  split.
  { intros j Hj. subst w. by rewrite mark_completed_row, decide_False. }
  assert (Hfs : w.2 = if exists_ (part_path p) fs
                      then replace (part_path p) p fs else fs).
  { subst w. unfold _mark_completed. by rewrite Hd. }
  split; [|split; [|split]].
  - intros Hin. rewrite Hfs. unfold exists_.
    rewrite (bool_decide_eq_true_2 _ Hin). simpl.
    split; [apply elem_of_union; right; by apply elem_of_singleton|].
    intros Hne. rewrite elem_of_union, elem_of_difference, !elem_of_singleton.
    tauto.
  - intros Hout. rewrite Hfs. unfold exists_.
    by rewrite (bool_decide_eq_false_2 _ Hout).
  - rewrite Hfs. by destruct (exists_ _ _).
  - intros k doc Hk Hne Hdoc. subst w. unfold _mark_completed.
    rewrite Hd. cbn [fst].
    eexists. split.
    { apply update_linked_hit; [exact Hk|exact Hne|exact Hdoc]. }
    by repeat split.
Qed.

Lemma mark_completed_effect_witness :
  let fs := mkFS {[part_path example_target]} example_dirs in
  let w := _mark_completed 1 4096 None example_target 20%N
             (db_of [row_claimed] ∅, fs) in
  part_path example_target ∈ files fs
  /\ example_target ∈ files w.2
  /\ exists d', downloads w.1 !! 1 = Some d' /\ status d' = COMPLETED.
Proof.
  cbv zeta.
  assert (Hin : part_path example_target
                ∈ files (mkFS {[part_path example_target]} example_dirs)).
  { simpl. by apply elem_of_singleton. }
  split; [exact Hin|].
  destruct (mark_completed_effect 1 4096 None example_target 20%N
              (db_of [row_claimed] ∅)
              (mkFS {[part_path example_target]} example_dirs)
              row_claimed eq_refl)
    as ((d' & Hd & Hs & _) & _ & Hf & _).
  split; [exact (proj1 (Hf Hin))|].
  exists d'. split; [exact Hd|exact Hs].
Defined.

(** X11. The handler of a cancellation on a job that exists: the row
    becomes [CANCELLED] with no speed and [completed_at] set, and keeps its
    progress, byte count, total, error message, attempt counter and file
    path; the temporary file is gone and no other file is touched; the
    catalog is not written, so a cancellation is not mirrored to the linked
    entry. *)
Theorem download_one_cancelled_effect (i : Z) (p : Path) (now : datetime)
    (db : DB) (fs : FS) (d : Download) :
  downloads db !! i = Some d ->
  let w := _download_one_cancelled i p now (db, fs) in
  (exists d',
     downloads w.1 !! i = Some d'
     /\ status d' = CANCELLED /\ speed d' = None
     /\ completed_at d' = Some now
     /\ progress d' = progress d
     /\ downloaded_bytes d' = downloaded_bytes d
     /\ total_bytes d' = total_bytes d
     /\ error_message d' = error_message d
     /\ attempts d' = attempts d /\ file_path d' = file_path d
     /\ same_request d d')
  /\ (forall j, j <> i -> downloads w.1 !! j = downloads db !! j)
  /\ documents w.1 = documents db
  /\ (part_path p ∉ files w.2)
  /\ (forall q, q <> part_path p -> q ∈ files w.2 <-> q ∈ files fs).
Proof.
  intros Hd w. subst w. unfold _download_one_cancelled. cbn [fst snd].
  split.
  { rewrite mark_cancelled_row, decide_True, Hd by done.
    eexists. split; [reflexivity|]. by repeat split. }
  split.
  { intros j Hj. by rewrite mark_cancelled_row, decide_False. }
  split.
  { unfold _mark_cancelled. by rewrite Hd. }
  split; [apply Failure.unlink_part_gone|].
  intros q Hq. by apply Failure.unlink_part_others.
Qed.

Lemma download_one_cancelled_effect_witness :
  let w := _download_one_cancelled 1 example_target 20%N
             (db_of [row_claimed] ∅,
              mkFS {[part_path example_target]} example_dirs) in
  (part_path example_target ∉ files w.2)
  /\ exists d', downloads w.1 !! 1 = Some d' /\ status d' = CANCELLED.
Proof.
  cbv zeta.
  destruct (download_one_cancelled_effect 1 example_target 20%N
              (db_of [row_claimed] ∅)
              (mkFS {[part_path example_target]} example_dirs)
              row_claimed eq_refl)
    as ((d' & Hd & Hs & _) & _ & _ & Hg & _).
  split; [exact Hg|]. exists d'. split; [exact Hd|exact Hs].
Defined.

Lemma update_linked_dom upd d db :
  dom (documents (update_linked upd d db)) = dom (documents db).
Proof.
  unfold update_linked. destruct (truthy_int _); [|done].
  destruct (documents db !! _) eqn:Hk; [|done]. simpl.
  by apply dom_insert_lookup_L.
Qed.

Lemma update_linked_other upd d db k :
  (document_id d <> Some k \/ k = 0) ->
  documents (update_linked upd d db) !! k = documents db !! k.
Proof.
  intros Hk. unfold update_linked.
  destruct (document_id d) as [k0|] eqn:Hd; [|done]. simpl.
  destruct (Z.eqb_spec k0 0) as [->|Hne]; [done|]. simpl.
  destruct (documents db !! k0); [|done]. simpl.
  apply lookup_insert_ne. intros ->. destruct Hk; congruence.
Qed.

(** X12. The catalog under the two blocks that write it: [_mark_failed] and
    [_mark_completed] never add an entry and never remove one, and they
    leave every entry as it was except the one that the job is linked to; a
    job without a link, with the link 0 or with a link to an entry that does
    not exist leaves the whole catalog as it was. *)
Theorem catalog_written_only_through_link (i : Z) (db : DB) :
  (forall msg now,
     dom (documents (_mark_failed i msg now db)) = dom (documents db))
  /\ (forall dl tb p now fs,
        dom (documents (_mark_completed i dl tb p now (db, fs)).1)
        = dom (documents db))
  /\ (forall k,
        (forall d, downloads db !! i = Some d -> document_id d <> Some k \/ k = 0) ->
        (forall msg now,
           documents (_mark_failed i msg now db) !! k = documents db !! k)
        /\ (forall dl tb p now fs,
              documents (_mark_completed i dl tb p now (db, fs)).1 !! k
              = documents db !! k))
  /\ (forall d,
        downloads db !! i = Some d ->
        (document_id d = None \/ document_id d = Some 0
         \/ documents db !! or_zero (document_id d) = None) ->
        (forall msg now, documents (_mark_failed i msg now db) = documents db)
        /\ (forall dl tb p now fs,
              documents (_mark_completed i dl tb p now (db, fs)).1
              = documents db)).
Proof.
  split; [|split; [|split]].
  - intros msg now. unfold _mark_failed.
    destruct (downloads db !! i); [|done]. by rewrite update_linked_dom.
  - intros dl tb p now fs. unfold _mark_completed.
    destruct (downloads db !! i); [|done]. cbn [fst].
    by rewrite update_linked_dom.
  - intros k Hk. split.
    + intros msg now. unfold _mark_failed.
      destruct (downloads db !! i) as [d|]; [|done].
      rewrite update_linked_other; [done|]. by apply (Hk d).
    + intros dl tb p now fs. unfold _mark_completed.
      destruct (downloads db !! i) as [d|]; [|done]. cbn [fst].
      rewrite update_linked_other; [done|]. by apply (Hk d).
  - intros d Hd Hlink.
    assert (Hnone : forall upd d', document_id d' = document_id d ->
              forall db', documents db' = documents db ->
              documents (update_linked upd d' db') = documents db).
    { intros upd d' Hid db' Hdb'. unfold update_linked. rewrite Hid, Hdb'.
      destruct Hlink as [-> | [-> | Hl]]; [done|done|].
      destruct (truthy_int _); [|done]. by rewrite Hl. }
    split.
    + intros msg now. unfold _mark_failed. rewrite Hd. by apply Hnone.
    + intros dl tb p now fs. unfold _mark_completed. rewrite Hd. cbn [fst].
      by apply Hnone.
Qed.

End WorkerBlocks.

(* ===================================================================== *)
(** ** The dispatch order and the spawning, in general *)
(* ===================================================================== *)

Module Spawning.
Import Dispatch Run.

Lemma key_leb_refl (a : Z * datetime) : key_leb a a = true.
Proof.
  unfold key_leb. rewrite Z.eqb_refl, N.leb_refl. by rewrite orb_true_r.
Qed.

Lemma key_leb_strict (x y : Download) :
  key_leb (sort_key y) (sort_key x) = false -> sort_key y <> sort_key x.
Proof. intros H Heq. rewrite Heq, key_leb_refl in H. done. Qed.

Lemma with_key_insert (k : Z * datetime) (x : Download) (l : list Download) :
  with_key k (insert_reverse x l)
  = if bool_decide (sort_key x = k) then x :: with_key k l else with_key k l.
Proof.
  induction l as [|y l IH]; [done|].
  cbn [insert_reverse].
  destruct (key_leb (sort_key y) (sort_key x)) eqn:Hyx; [done|].
  unfold with_key in *. cbn [List.filter]. rewrite IH.
  case_bool_decide as Hx; [|done].
  rewrite bool_decide_eq_false_2; [done|].
  apply key_leb_strict in Hyx. congruence.
Qed.

Lemma sort_reverse_stable (k : Z * datetime) (l : list Download) :
  with_key k (sort_reverse l) = with_key k l.
Proof.
  induction l as [|x l IH]; [done|].
  cbn [sort_reverse foldr]. fold (sort_reverse l).
  rewrite with_key_insert, IH. unfold with_key. cbn [List.filter].
  by destruct (bool_decide _).
Qed.

(** X13. The order in which [_spawn_pending] considers jobs is a stable
    descending sort of the fetched rows that have no task: it holds exactly
    those rows, each as often as it was fetched; a row never stands before
    one with a greater key (priority rank first, then creation time, a
    missing creation time counting as the earliest); and rows with equal
    keys stand in the order in which the query returned them. *)
Theorem spawn_order_stable_sort (rows : list Download) (active : gmap Z Task) :
  spawn_order rows active ≡ₚ candidates rows active
  /\ StronglySorted key_ge (spawn_order rows active)
  /\ (forall k, with_key k (spawn_order rows active)
                = with_key k (candidates rows active)).
Proof.
  split; [apply spawn_order_perm|]. split; [apply spawn_order_sorted|].
  intros k. apply sort_reverse_stable.
Qed.

Lemma spawn_order_length (rows : list Download) (active : gmap Z Task) :
  length (spawn_order rows active) = length (candidates rows active).
Proof. apply Permutation_length, spawn_order_perm. Qed.

Lemma candidates_elem (rows : list Download) (active : gmap Z Task) (d : Download) :
  d ∈ candidates rows active <-> d ∈ rows /\ active !! id d = None.
Proof.
  unfold candidates. rewrite list_elem_of_In, filter_In, <- list_elem_of_In.
  by rewrite bool_decide_eq_true.
Qed.

Lemma spawn_pending_lookup (c : Z) (rows : list Download)
    (active : gmap Z Task) (j : Z) :
  (_spawn_pending c rows active).1 !! j
  = if decide (j ∈ map id (py_slice_to c (spawn_order rows active)))
    then Some Spawned else active !! j.
Proof. unfold _spawn_pending. cbn [fst]. apply spawn_all_lookup. Qed.

(** X14. Who gets a task from [_spawn_pending] with a non-negative
    capacity: a task it adds is a fresh [Spawned] one for a fetched row
    that had none, and the tasks that existed are kept. When the capacity
    covers all such rows, every one of them gets its task. The returned
    flag tells whether anything was chosen: with a positive capacity it is
    true exactly when a fetched row without a task exists. *)
Theorem spawn_pending_tasks (c : Z) (rows : list Download)
    (active : gmap Z Task) :
  0 <= c ->
  (forall j t, (_spawn_pending c rows active).1 !! j = Some t ->
     active !! j = Some t
     \/ (t = Spawned /\ active !! j = None
         /\ exists d, d ∈ rows /\ id d = j))
  /\ (forall j t, active !! j = Some t ->
        (_spawn_pending c rows active).1 !! j = Some t)
  /\ (Z.of_nat (length (candidates rows active)) <= c ->
      forall d, d ∈ rows -> active !! id d = None ->
        (_spawn_pending c rows active).1 !! id d = Some Spawned)
  /\ (0 < c ->
      ((_spawn_pending c rows active).2 = true
       <-> exists d, d ∈ rows /\ active !! id d = None)).
Proof.
  intros Hc. split; [|split; [|split]].
  - intros j t. rewrite spawn_pending_lookup.
    destruct (decide _) as [Hin|Hout]; [|by left].
    intros [= <-]. right.
    apply list_elem_of_fmap in Hin as (d & -> & Hd).
    pose proof (chosen_not_active _ _ _ _ Hd) as Hnone.
    apply py_slice_to_sublist in Hd. rewrite spawn_order_perm in Hd.
    apply candidates_elem in Hd as [Hd _]. eauto.
  - apply spawn_pending_adds_at_most, Hc.
  - intros Hroom d Hd Hnone. rewrite spawn_pending_lookup.
    rewrite decide_True; [done|].
    apply list_elem_of_fmap. exists d. split; [done|].
    rewrite py_slice_to_take by done.
    rewrite take_ge by (rewrite spawn_order_length; lia).
    rewrite spawn_order_perm. by apply candidates_elem.
  - intros Hpos. unfold _spawn_pending. cbn [snd].
    rewrite py_slice_to_take by done.
    destruct (spawn_order rows active) as [|d0 l] eqn:Ho.
    + rewrite take_nil. split; [done|]. intros (d & Hd & Hn).
      assert (Hin : d ∈ spawn_order rows active).
      { rewrite spawn_order_perm. by apply candidates_elem. }
      rewrite Ho in Hin. by apply elem_of_nil in Hin.
    + destruct (Z.to_nat c) as [|n] eqn:Hn; [lia|]. cbn [take].
      split; [|done]. intros _.
      assert (Hin : d0 ∈ spawn_order rows active)
        by (rewrite Ho; apply list_elem_of_here).
      rewrite spawn_order_perm in Hin. apply candidates_elem in Hin. eauto.
Qed.

Lemma spawn_pending_tasks_witness :
  0 <= 3
  /\ (_spawn_pending 3 [row_enqueued] ∅).1 !! 1 = Some Spawned
  /\ (_spawn_pending 3 [row_enqueued] ∅).2 = true.
Proof.
  assert (H0 : 0 <= 3) by lia. split; [exact H0|].
  destruct (spawn_pending_tasks 3 [row_enqueued] ∅ H0) as (_ & _ & Hall & Hflag).
  split.
  - apply (Hall ltac:(vm_compute; discriminate) row_enqueued);
      [apply list_elem_of_here|reflexivity].
  - apply (proj2 (Hflag ltac:(lia))). exists row_enqueued.
    split; [apply list_elem_of_here|reflexivity].
Defined.

Lemma spawn_all_size_nodup (chosen : list Download) (active : gmap Z Task) :
  NoDup (map id chosen) ->
  (forall d, d ∈ chosen -> active !! id d = None) ->
  size (spawn_all chosen active) = (size active + length chosen)%nat.
Proof.
  revert active. induction chosen as [|d chosen IH]; intros active Hnd Hnone.
  - simpl. lia.
  - change (spawn_all (d :: chosen) active)
      with (spawn_all chosen (<[id d := Spawned]> active)).
    cbn [map] in Hnd. apply NoDup_cons in Hnd as [Hd Hnd].
    rewrite IH; [| done |].
    + rewrite map_size_insert_None by (apply Hnone, list_elem_of_here).
      simpl. lia.
    + intros d' Hd'. rewrite lookup_insert_ne.
      * by apply Hnone, list_elem_of_further.
      * intros Heq. apply Hd. rewrite Heq. by apply list_elem_of_fmap_2.
Qed.

Lemma filter_sublist {A} (f : A -> bool) (l : list A) :
  sublist (List.filter f l) l.
Proof.
  induction l as [|x l IH]; simpl; [constructor|].
  destruct (f x); by constructor.
Qed.

(** X15. How many tasks [_spawn_pending] adds: when the fetched rows have
    distinct ids, as the rows of a table have, the active map grows by the
    capacity or by the number of fetched rows without a task, whichever is
    smaller. *)
Theorem spawn_pending_count (c : Z) (rows : list Download)
    (active : gmap Z Task) :
  0 <= c ->
  NoDup (map id rows) ->
  Z.of_nat (size (_spawn_pending c rows active).1)
  = Z.of_nat (size active)
    + Z.min c (Z.of_nat (length (candidates rows active))).
Proof.
  intros Hc Hnd. unfold _spawn_pending. cbn [fst].
  rewrite py_slice_to_take by done.
  rewrite spawn_all_size_nodup.
  - rewrite length_take, spawn_order_length. lia.
  - assert (Hsub : sublist (take (Z.to_nat c) (spawn_order rows active))
                     (spawn_order rows active)) by apply sublist_take.
    apply (sublist_NoDup _ (map id (spawn_order rows active)));
      [|by apply (fmap_sublist id)].
    assert (Hp : map id (spawn_order rows active)
                 ≡ₚ map id (candidates rows active)).
    { apply (fmap_Permutation id), spawn_order_perm. }
    rewrite Hp.
    apply (sublist_NoDup _ (map id rows)); [done|].
    apply (fmap_sublist id), filter_sublist.
  - intros d Hd. apply (chosen_not_active c rows).
    by rewrite py_slice_to_take.
Qed.

Lemma spawn_pending_count_witness :
  0 <= 1 /\ NoDup (map id [row_enqueued])
  /\ Z.of_nat (size (_spawn_pending 1 [row_enqueued] ∅).1) = 1.
Proof.
  assert (H0 : 0 <= 1) by lia. split; [exact H0|].
  assert (Hnd : NoDup (map id [row_enqueued])) by apply NoDup_singleton.
  split; [exact Hnd|].
  by rewrite (spawn_pending_count 1 [row_enqueued] ∅ H0 Hnd).
Defined.

End Spawning.

(* ===================================================================== *)
(** ** The progress that the stream loop computes *)
(* ===================================================================== *)

Module StreamProgress.



End StreamProgress.

(* ===================================================================== *)
(** ** The sanitizer applied twice, and the temporary path *)
(* ===================================================================== *)

Module Names.
Import PyStr PyStrFacts NameFacts PathFacts.

Lemma sub_class_id cls by_ s :
  has_char cls s = false -> sub_class cls by_ s = s.
Proof.
  induction s as [|c s IH]; [done|]. rewrite has_char_cons.
  intros [Hc Hs]%orb_false_elim. simpl. by rewrite Hc, IH.
Qed.

Lemma sub_runs_clean b s :
  only_plain_spaces s = true -> has_space_pair s = false ->
  (b = true -> starts_space s = false) ->
  sub_runs b s = s.
Proof.
  unfold only_plain_spaces. rewrite negb_true_iff.
  revert b. induction s as [|c s IH]; intros b Hpl Hpair Hb; [done|].
  rewrite has_char_cons in Hpl. apply orb_false_elim in Hpl as [Hc Hpl].
  rewrite has_space_pair_cons in Hpair.
  apply orb_false_elim in Hpair as [Hcs Hpair].
  cbn [sub_runs]. destruct (is_space c) eqn:Hsp.
  - destruct b; [specialize (Hb eq_refl); simpl in Hb; congruence|].
    simpl in Hc, Hcs.
    apply negb_false_iff, Ascii.eqb_eq in Hc as ->.
    f_equal. apply IH; try done.
  - f_equal. apply IH; try done.
Qed.

Lemma lstrip_starts s : starts_space (lstrip s) = false.
Proof.
  induction s as [|c s IH]; [done|]. simpl.
  destruct (is_space c) eqn:Hc; [done|]. simpl. exact Hc.
Qed.

Lemma rstrip_starts s : starts_space s = false -> starts_space (rstrip s) = false.
Proof.
  destruct s as [|c s]; [done|]. simpl. intros Hc.
  destruct (rstrip s); [by rewrite Hc|done].
Qed.

Lemma rstrip_ends s : ends_space (rstrip s) = false.
Proof.
  induction s as [|c s IH]; [done|]. simpl.
  destruct (rstrip s) as [|c' r] eqn:Hr.
  - destruct (is_space c) eqn:Hc; [done|]. simpl. exact Hc.
  - exact IH.
Qed.

Lemma rstrip_clean s : ends_space s = false -> rstrip s = s.
Proof.
  induction s as [|c s IH]; [done|].
  destruct s as [|c' s'].
  - simpl. by intros ->.
  - intros He. change (ends_space (String c' s') = false) in He.
    specialize (IH He). remember (String c' s') as u eqn:Hu.
    cbn [rstrip]. rewrite IH. by subst u.
Qed.

Lemma ends_space_cons c s : s <> "" -> ends_space (String c s) = ends_space s.
Proof. by destruct s. Qed.

Lemma sub_char_space c :
  is_space c = false ->
  is_space (if is_illegal c then "_"%char else c) = false.
Proof. by destruct (is_illegal c). Qed.

Lemma sub_class_starts s :
  starts_space s = false ->
  starts_space (sub_class is_illegal "_" s) = false.
Proof. destruct s as [|c s]; [done|]. simpl. apply sub_char_space. Qed.

Lemma sub_class_ends s :
  ends_space s = false -> ends_space (sub_class is_illegal "_" s) = false.
Proof.
  induction s as [|c s IH]; [done|].
  destruct s as [|c' s'].
  - simpl. apply sub_char_space.
  - intros He. change (ends_space (String c' s') = false) in He.
    specialize (IH He). remember (String c' s') as u eqn:Hu.
    cbn [sub_class]. rewrite ends_space_cons; [exact IH|].
    subst u. discriminate.
Qed.

Lemma sub_runs_starts s :
  starts_space s = false -> starts_space (sub_runs false s) = false.
Proof.
  destruct s as [|c s]; [done|]. simpl. intros Hc. rewrite Hc. simpl. exact Hc.
Qed.

Lemma sub_runs_some b s :
  ends_space s = false -> s <> "" -> sub_runs b s <> "".
Proof.
  revert b. induction s as [|c s IH]; intros b He Hne; [done|].
  cbn [sub_runs]. destruct (is_space c) eqn:Hc; [|done].
  destruct s as [|c' s']; [simpl in He; congruence|].
  destruct b; [|done]. apply IH; [exact He|done].
Qed.

Lemma sub_runs_ends b s : ends_space s = false -> ends_space (sub_runs b s) = false.
Proof.
  revert b. induction s as [|c s IH]; intros b He; [done|].
  destruct s as [|c' s'].
  - simpl in *. rewrite He. simpl. exact He.
  - change (ends_space (String c' s') = false) in He.
    remember (String c' s') as u eqn:Hu.
    assert (Hne : forall b', sub_runs b' u <> "").
    { intros b'. apply sub_runs_some; [done|by subst]. }
    cbn [sub_runs]. destruct (is_space c).
    + destruct b; [by apply IH|].
      rewrite ends_space_cons by apply Hne. by apply IH.
    + rewrite ends_space_cons by apply Hne. by apply IH.
Qed.

Lemma safe_starts name : starts_space (_safe_filename name) = false.
Proof.
  unfold _safe_filename. apply sub_runs_starts, sub_class_starts.
  unfold or_else, strip.
  destruct (truthy (rstrip (lstrip name))); [|done].
  apply rstrip_starts, lstrip_starts.
Qed.

Lemma safe_ends name : ends_space (_safe_filename name) = false.
Proof.
  unfold _safe_filename. apply sub_runs_ends, sub_class_ends.
  unfold or_else, strip.
  destruct (truthy (rstrip (lstrip name))); [|done].
  apply rstrip_ends.
Qed.

Lemma lstrip_length s : (String.length (lstrip s) <= String.length s)%nat.
Proof.
  induction s as [|c s IH]; [done|]. simpl.
  destruct (is_space c); simpl; lia.
Qed.

Lemma rstrip_length s : (String.length (rstrip s) <= String.length s)%nat.
Proof.
  induction s as [|c s IH]; [done|]. simpl.
  destruct (rstrip s); [destruct (is_space c)|]; simpl in *; lia.
Qed.

Lemma sub_runs_length b s : (String.length (sub_runs b s) <= String.length s)%nat.
Proof.
  revert b. induction s as [|c s IH]; intros b; [done|]. simpl.
  pose proof (IH true). pose proof (IH false).
  destruct (is_space c); [destruct b|]; simpl; lia.
Qed.

(** X17. Sanitizing a sanitized name changes nothing. The sanitized name
    has no whitespace at either end; it is [download] when the name holds
    nothing but whitespace, and otherwise it is no longer than the name. *)
Theorem safe_filename_idempotent (name : string) :
  _safe_filename (_safe_filename name) = _safe_filename name
  /\ starts_space (_safe_filename name) = false
  /\ ends_space (_safe_filename name) = false
  /\ (strip name = "" -> _safe_filename name = "download")
  /\ (strip name <> "" ->
      (String.length (_safe_filename name) <= String.length name)%nat).
Proof.
  split; [|split; [apply safe_starts|split; [apply safe_ends|split]]].
  - set (r := _safe_filename name).
    assert (Hs : strip r = r).
    { unfold strip. rewrite lstrip_id by apply safe_starts.
      apply rstrip_clean, safe_ends. }
    assert (Ht : truthy r = true) by apply safe_truthy.
    assert (Hi : has_char is_illegal r = false) by apply safe_no_illegal.
    assert (Hp : only_plain_spaces r = true) by apply safe_plain.
    assert (Hn : has_space_pair r = false) by apply safe_no_pair.
    clearbody r. unfold _safe_filename. rewrite Hs.
    unfold or_else. rewrite Ht. rewrite (sub_class_id _ _ _ Hi).
    by apply sub_runs_clean.
  - intros He. unfold _safe_filename. by rewrite He.
  - intros Hne. unfold _safe_filename, or_else.
    apply truthy_true in Hne as ->.
    etrans; [apply sub_runs_length|]. rewrite sub_class_length.
    unfold strip. etrans; [apply rstrip_length|apply lstrip_length].
Qed.

End Names.

Module TempPath.
Import PyStr PyStrFacts NameFacts PathFacts IntStrFacts.

Lemma app_assoc_str (a b c : string) : (a ++ b) ++ c = a ++ (b ++ c).
Proof.
  induction a as [|x a IH]; [done|].
  change (String x ((a ++ b) ++ c) = String x (a ++ (b ++ c))). by rewrite IH.
Qed.

Lemma wf_part_spec c :
  wf_part c = true <-> has_char is_slash c = false /\ keep_part c = true.
Proof.
  unfold wf_part. rewrite andb_true_iff, negb_true_iff. tauto.
Qed.

Lemma split_slash_some s : split_slash s <> [].
Proof.
  induction s as [|c s IH]; [done|]. simpl.
  destruct (split_slash s); [done|]. by destruct (Ascii.eqb c "/").
Qed.

Lemma split_slash_app x rest :
  has_char is_slash x = false ->
  split_slash (x ++ String "/" rest) = x :: split_slash rest.
Proof.
  induction x as [|c x IH].
  - intros _. simpl. pose proof (split_slash_some rest).
    by destruct (split_slash rest).
  - rewrite has_char_cons. intros [Hc Hx]%orb_false_elim.
    change (String c x ++ String "/" rest)
      with (String c (x ++ String "/" rest)).
    cbn [split_slash]. rewrite (IH Hx). unfold is_slash in Hc. by rewrite Hc.
Qed.

Lemma split_join l :
  l <> [] -> Forall (fun c => wf_part c = true) l ->
  split_slash (join_slash l) = l.
Proof.
  induction l as [|x l IH]; [done|]. intros _ Hwf.
  apply Forall_cons in Hwf as [Hx Hl]. apply wf_part_spec in Hx as [Hx _].
  destruct l as [|y l].
  - simpl. by apply split_slash_component.
  - change (join_slash (x :: y :: l)) with (x ++ String "/" (join_slash (y :: l))).
    rewrite split_slash_app by done. f_equal. by apply IH.
Qed.

Lemma filter_keep l :
  Forall (fun c => wf_part c = true) l -> List.filter keep_part l = l.
Proof.
  induction 1 as [|x l Hx _ IH]; [done|]. simpl.
  apply wf_part_spec in Hx as [_ ->]. by rewrite IH.
Qed.

Lemma join_first l :
  l <> [] -> Forall (fun c => wf_part c = true) l ->
  exists c r, join_slash l = String c r /\ c <> "/"%char.
Proof.
  destruct l as [|x l]; [done|]. intros _ Hwf.
  apply Forall_cons in Hwf as [Hx _]. apply wf_part_spec in Hx as [Hs Hk].
  destruct x as [|c x]; [done|].
  rewrite has_char_cons in Hs. apply orb_false_elim in Hs as [Hc _].
  unfold is_slash in Hc. apply Ascii.eqb_neq in Hc.
  exists c. destruct l; simpl; eauto.
Qed.

Lemma splitroot_rooted r c s :
  (r = "" \/ r = "/" \/ r = "//") -> c <> "/"%char ->
  splitroot (r ++ String c s) = (r, String c s).
Proof.
  assert (Hc : forall (T : Type) (a b : T),
            c <> "/"%char ->
            match c with "/"%char => a | _ => b end = b).
  { intros T a b Hne.
    destruct c as [[] [] [] [] [] [] [] []]; try done. }
  intros [->|[->| ->]] Hne; simpl.
  - destruct c as [[] [] [] [] [] [] [] []]; try done.
  - destruct c as [[] [] [] [] [] [] [] []]; try done.
  - destruct c as [[] [] [] [] [] [] [] []]; try done.
Qed.

Lemma to_str_parts (r : string) (l : list string) :
  l <> [] -> to_str (mkPath r l) = r ++ join_slash l.
Proof. intros Hl. unfold to_str. simpl. destruct r, l; done. Qed.

(** A well-formed path with at least one part is read back from its
    string. *)
Lemma of_str_to_str (p : Path) :
  wf_path p -> parts p <> [] -> of_str (to_str p) = p.
Proof.
  intros [Hr Hwf] Hne. destruct p as [r l]. simpl in *.
  destruct (join_first l Hne Hwf) as (c & s & Hj & Hc).
  rewrite to_str_parts by done. unfold of_str. rewrite Hj, (splitroot_rooted r c s Hr Hc).
  rewrite <- Hj. unfold parse_parts. rewrite (split_join l Hne Hwf).
  by rewrite (filter_keep l Hwf).
Qed.

Lemma join_snoc_suffix (l : list string) (n suffix : string) :
  join_slash (l ++ [n])%list ++ suffix = join_slash (l ++ [(n ++ suffix)%string])%list.
Proof.
  induction l as [|x l IH]; [done|].
  destruct l as [|y l].
  - simpl. by rewrite app_assoc_str.
  - change (join_slash ((x :: y :: l) ++ [n])%list)
      with (x ++ String "/" (join_slash ((y :: l) ++ [n])%list)).
    change (join_slash ((x :: y :: l) ++ [(n ++ suffix)%string])%list)
      with (x ++ String "/" (join_slash ((y :: l) ++ [(n ++ suffix)%string])%list)).
    rewrite app_assoc_str, <- IH. reflexivity.
Qed.

Lemma wf_part_suffix n :
  wf_part n = true -> wf_part (n ++ ".part") = true.
Proof.
  rewrite !wf_part_spec. intros [Hs Hk]. split.
  - rewrite has_char_app, Hs. reflexivity.
  - destruct n as [|c n]; [done|]. unfold keep_part. simpl.
    destruct (Ascii.eqb c "."); [|done]. by destruct n.
Qed.

(** The temporary path of a well-formed path: the same directory, the file
    name with the suffix. *)
Lemma part_path_shape (r : string) (l : list string) (n : string) :
  wf_path (mkPath r (l ++ [n])%list) ->
  part_path (mkPath r (l ++ [n])%list) = mkPath r (l ++ [(n ++ ".part")%string])%list.
Proof.
  intros [Hr Hwf]. cbn [root parts] in *.
  assert (Hwf' : wf_path (mkPath r (l ++ [(n ++ ".part")%string])%list)).
  { split; [exact Hr|]. cbn [root parts]. apply Forall_app in Hwf as [Hl Hn].
    apply Forall_app. split; [exact Hl|].
    rewrite Forall_singleton in Hn. rewrite Forall_singleton.
    by apply wf_part_suffix. }
  rewrite <- (of_str_to_str _ Hwf') by (cbn [parts]; by destruct l).
  unfold part_path. f_equal.
  rewrite !to_str_parts by (by destruct l).
  by rewrite app_assoc_str, join_snoc_suffix.
Qed.

Lemma job_file_name_suffix i f s :
  job_file_name i f ++ s = job_file_name i (f ++ s).
Proof. unfold job_file_name. by rewrite !app_assoc_str. Qed.

Lemma str_length_app (a b : string) :
  String.length (a ++ b) = (String.length a + String.length b)%nat.
Proof.
  induction a as [|c a IH]; [done|].
  change (S (String.length (a ++ b)) = S (String.length a + String.length b)).
  by rewrite IH.
Qed.

Lemma target_wf (E : Env) (d : Download) (fs : FS) :
  wf_path (library_dir E) ->
  exists l n,
    (_build_target_path E d fs).1 = mkPath (root (library_dir E)) (l ++ [n])%list
    /\ wf_path (mkPath (root (library_dir E)) (l ++ [n])%list)
    /\ l = parts (truediv (library_dir E) (_safe_filename (source d)))
    /\ n = job_file_name (id d)
             (_safe_filename (opt_or_else (file_name d)
                                (_default_filename_from_url E (url d)))).
Proof.
  intros [Hr Hwf].
  eexists _, _. split; [apply TargetPath.target_path_parts|].
  split; [|done]. split; [exact Hr|]. simpl.
  apply Forall_app. split.
  - rewrite TargetPath.source_dir_shape. simpl. apply Forall_app.
    split; [exact Hwf|].
    destruct (keep_part (_safe_filename (source d))) eqn:Hk; [|constructor].
    apply Forall_singleton, wf_part_spec. split; [apply safe_no_slash|done].
  - apply Forall_singleton, wf_part_spec. apply job_name_component.
Qed.

Lemma part_paths_apart (E : Env) (d d2 : Download) (fs fs2 : FS) :
  wf_path (library_dir E) -> id d2 <> id d ->
  part_path (_build_target_path E d fs).1 <> (_build_target_path E d2 fs2).1
  /\ part_path (_build_target_path E d fs).1
     <> part_path (_build_target_path E d2 fs2).1.
Proof.
  intros Hlib Hid.
  destruct (target_wf E d fs Hlib) as (l & n & Ht & Hwf & Hl & Hn).
  destruct (target_wf E d2 fs2 Hlib) as (l2 & n2 & Ht2 & Hwf2 & Hl2 & Hn2).
  rewrite Ht, Ht2, (part_path_shape _ l n Hwf), (part_path_shape _ l2 n2 Hwf2).
  split; intros [= Heq]; apply app_inj_tail in Heq as [_ Heq];
    subst n n2; rewrite ?job_file_name_suffix in Heq;
    unfold job_file_name in Heq; apply id_prefix_inj in Heq; congruence.
Qed.

(** X18. The temporary file of a job, for a library root that [pathlib]
    can hold. It lies in the same directory as the target and carries the
    name of the target with [.part] appended. It is a different path from
    the target; and for jobs with different ids it differs from the other
    job's target and from the other job's temporary path, so an unfinished
    transfer never stands in the place of a file of another job. *)
Theorem part_path_next_to_target (E : Env) (d : Download) (fs : FS) :
  wf_path (library_dir E) ->
  let t := (_build_target_path E d fs).1 in
  parent (part_path t) = parent t
  /\ parent t = truediv (library_dir E) (_safe_filename (source d))
  /\ List.last (parts (part_path t)) "" = List.last (parts t) "" ++ ".part"
  /\ part_path t <> t
  /\ (forall d2 fs2, id d2 <> id d ->
        part_path t <> (_build_target_path E d2 fs2).1
        /\ part_path t <> part_path (_build_target_path E d2 fs2).1).
Proof.
  intros Hlib t.
  destruct (target_wf E d fs Hlib) as (l & n & Ht & Hwf & Hl & Hn).
  fold t in Ht. rewrite Ht. rewrite (part_path_shape _ l n Hwf).
  unfold parent. cbn [root parts]. rewrite !removelast_last, !last_last.
  split; [done|]. split.
  { subst l. by rewrite (TargetPath.source_dir_shape E (source d)). }
  split; [done|]. split.
  { intros [= Heq]. apply app_inj_tail in Heq as [_ Heq].
    apply (f_equal String.length) in Heq. rewrite str_length_app in Heq.
    simpl in Heq. lia. }
  intros d2 fs2 Hid. rewrite <- (part_path_shape _ l n Hwf), <- Ht.
  by apply part_paths_apart.
Qed.

Lemma part_path_next_to_target_witness :
  wf_path (library_dir example_env)
  /\ part_path (_build_target_path example_env row_enqueued empty_fs).1
     <> (_build_target_path example_env row_enqueued empty_fs).1.
Proof.
  assert (Hwf : wf_path (library_dir example_env)).
  { split; [right; left; reflexivity|]. by apply Forall_singleton. }
  split; [exact Hwf|].
  destruct (part_path_next_to_target example_env row_enqueued empty_fs Hwf)
    as (_ & _ & _ & Hne & _).
  exact Hne.
Defined.

End TempPath.

(* ===================================================================== *)
(** ** More invariants of a run *)
(* ===================================================================== *)

Module RunShape.
Import StoreFacts Run.

Lemma target_path_same_request (E : Env) (d d' : Download) (fs fs' : FS) :
  same_request d d' ->
  (_build_target_path E d' fs').1 = (_build_target_path E d fs).1.
Proof.
  intros (Hid & _ & Hsrc & _ & Hurl & Hname & _).
  unfold _build_target_path. cbn [fst]. by rewrite Hid, Hsrc, Hurl, Hname.
Qed.

Ltac open_shape H :=
  destruct H as (Hpa & (Hat & Hat0) & Hcr & Hdl & Htb & Herr & Hca & Hdi
                 & Hsp & Hq & Htg & Hur).

Ltac split_shape :=
  unfold row_shape;
  split; [|split; [split|split; [|split; [|split; [|split; [|split;
    [|split; [|split; [|split; [|split]]]]]]]]]].

Ltac shape_auto :=
  try done; try lia;
  try solve [intuition (first [congruence | lia | discriminate])].

Lemma row_shape_idle (E : Env) (d : Download) (t t' : option Task) :
  flight t = false -> flight t' = false ->
  worker_target t' = None -> (forall u p, t' <> Some (Claimed u p)) ->
  row_shape E d t -> row_shape E d t'.
Proof.
  intros Hf Hf' Hw Hc H. open_shape H. split_shape; try done.
  - intros _. by apply Hsp.
  - intros _. by apply Hq.
  - intros p Hp. congruence.
  - intros u p Hp. by destruct (Hc u p).
Qed.

Lemma row_shape_enqueue E i docid src sid u fname pr now t :
  flight t = false -> worker_target t = None ->
  (forall u' p, t <> Some (Claimed u' p)) ->
  row_shape E (mkDownload i docid src sid u None fname PENDING pr 0 0 None None
                 (Some 0) None None (Some now) None None) t.
Proof.
  intros Hf Hw Hc. split_shape; simpl; shape_auto.
Qed.

Lemma dispatched_kept (d d' : Download) :
  file_path d' = file_path d -> started_at d' = started_at d ->
  last_attempt d' = last_attempt d -> attempts d' = attempts d ->
  dispatched d -> dispatched d'.
Proof. unfold dispatched. by intros -> -> -> ->. Qed.

Lemma row_shape_cancel E d t :
  row_ok d (flight t) -> row_shape E d t ->
  row_shape E (set_error_message None (set_status CANCELLED d)) t.
Proof.
  intros Hok H. open_shape H. split_shape; simpl; shape_auto.
Qed.

Lemma row_shape_retry E d t :
  row_ok d (flight t) -> row_shape E d t ->
  row_shape E (if retry_allowed d then retried d else d) t.
Proof.
  intros Hok H. destruct (retry_allowed d) eqn:Ha; [|done].
  open_shape H. split_shape; simpl; shape_auto.
Qed.

Lemma row_shape_claim E t1 t2 fs d :
  status d = PENDING ->
  row_shape E d (Some Spawned) ->
  row_shape E (claimed E t1 t2 fs d)
    (Some (Claimed (url d) (_build_target_path E (claimed E t1 t2 fs d) fs).1)).
Proof.
  intros Hst H. open_shape H.
  assert (Hdisp : dispatched (claimed E t1 t2 fs d)).
  { unfold dispatched. simpl. repeat split; try done. lia. }
  split_shape; simpl; shape_auto.
Qed.

Lemma row_shape_progress E dl tb sp pr d t :
  flight t = true -> 0 <= dl -> (forall x, tb = Some x -> 0 <= x) ->
  row_shape E d t ->
  row_shape E (set_progress pr (set_speed sp (set_total_bytes tb
                 (set_downloaded_bytes dl d)))) t.
Proof.
  intros Hf Hdl' Htot H. open_shape H. split_shape; simpl; shape_auto.
Qed.

Lemma row_shape_cancelled E now d t :
  row_ok d true -> worker_target t <> None ->
  row_shape E d t ->
  row_shape E (set_speed None (set_completed_at (Some now)
                 (set_status CANCELLED d))) (Some Done).
Proof.
  intros Hok Hw H. open_shape H.
  destruct Hok as (_ & _ & _ & Hfl & _). destruct (Hfl eq_refl) as (_ & _ & He).
  split_shape; simpl; shape_auto.
Qed.

Lemma row_shape_failed E msg now d t :
  worker_target t <> None ->
  row_shape E d t ->
  row_shape E (set_speed None (set_completed_at (Some now)
                 (set_error_message (Some (PyStr.slice_to 512 msg))
                    (set_status FAILED d)))) (Some Done).
Proof.
  intros Hw H. open_shape H.
  destruct (worker_target t) as [p|] eqn:Hp; [|done].
  destruct (Htg p eq_refl) as (Hd & _).
  split_shape; simpl; shape_auto.
Qed.

Lemma row_shape_completed E dl tb now d t :
  worker_target t <> None -> 0 <= dl -> (forall x, tb = Some x -> 0 <= x) ->
  row_shape E d t ->
  row_shape E (set_error_message None (set_speed None (set_total_bytes tb
                 (set_downloaded_bytes dl (set_progress 100
                    (set_completed_at (Some now) (set_status COMPLETED d)))))))
            (Some Done).
Proof.
  intros Hw Hdl' Htot H. open_shape H.
  destruct (worker_target t) as [p|] eqn:Hp; [|done].
  destruct (Htg p eq_refl) as (Hd & _).
  split_shape; simpl; shape_auto.
Qed.

Lemma row_shape_quiet (E : Env) (d : Download) (t t' : option Task) :
  t' = t
  \/ (flight t = false /\ flight t' = false /\ worker_target t' = None
      /\ forall u p, t' <> Some (Claimed u p)) ->
  row_shape E d t -> row_shape E d t'.
Proof.
  intros [->|(Hf & Hf' & Hw & Hc)]; [done|]. by apply row_shape_idle.
Qed.

Lemma reap_lookup (active : gmap Z Task) (i : Z) :
  reap active !! i = active !! i
  \/ (active !! i = Some Done /\ reap active !! i = None).
Proof.
  unfold reap. destruct (active !! i) as [t|] eqn:Hi.
  - destruct (is_done t) eqn:Hd.
    + right. split; [by destruct t|].
      apply map_lookup_filter_None. right. intros t' Ht'. simpl. congruence.
    + left. by apply map_lookup_filter_Some_2.
  - left. apply map_lookup_filter_None. by left.
Qed.

Lemma spawn_lookup (c : Z) (rows : list Download) (active : gmap Z Task)
    (i : Z) :
  (_spawn_pending c rows active).1 !! i = active !! i
  \/ (active !! i = None /\ (_spawn_pending c rows active).1 !! i = Some Spawned
      /\ exists d, d ∈ rows /\ id d = i).
Proof.
  unfold _spawn_pending. cbn [fst]. rewrite spawn_all_lookup.
  destruct (decide _) as [Hin|]; [|by left]. right.
  apply list_elem_of_fmap in Hin as (d & -> & Hd).
  split; [by apply chosen_not_active in Hd|]. split; [done|].
  exists d. split; [|done].
  apply py_slice_to_sublist in Hd. rewrite Dispatch.spawn_order_perm in Hd.
  apply list_elem_of_In, filter_In in Hd as [Hd _]. by apply list_elem_of_In.
Qed.

Section ShapePreservation.

Variable cfg : DownloadManagerConfig.
Variable E : Env.

Lemma initial_shape docs fs0 : Shape E (initial docs fs0).
Proof.
  split; [|split].
  - intros i d Hd. simpl in Hd. by rewrite lookup_empty in Hd.
  - intros i t Ht. simpl in Ht. by rewrite lookup_empty in Ht.
  - exact I.
Qed.

Lemma fetched_kept (s : Sys) (db' : DB) (fs' : FS) (act' : gmap Z Task) :
  (forall j, downloads (db s) !! j <> None -> downloads db' !! j <> None) ->
  match loop s with
  | Fetched _ rows => forall d, d ∈ rows -> downloads (db s) !! id d <> None
  | _ => True
  end ->
  match loop (mkSys db' fs' act' (loop s)) with
  | Fetched _ rows => forall d, d ∈ rows -> downloads db' !! id d <> None
  | _ => True
  end.
Proof.
  intros Hdom H. simpl. destruct (loop s); try done.
  intros d Hd. by apply Hdom, H.
Qed.

Lemma row_written_dom (rows rows' : gmap Z Download) (i : Z)
    (f : Download -> Download) :
  (forall j, rows' !! j = if decide (i = j) then f <$> rows !! j else rows !! j) ->
  forall j, rows !! j <> None -> rows' !! j <> None.
Proof.
  intros Hrows j Hj. rewrite Hrows. case_decide; [|done].
  by destruct (rows !! j).
Qed.

Lemma worker_step_shape (s : Sys) (db' : DB) (fs' : FS) (i : Z) (t t' : Task)
    (f : Download -> Download) :
  Shape E s -> Inv cfg s ->
  active s !! i = Some t ->
  (forall j, downloads db' !! j
             = if decide (i = j) then f <$> downloads (db s) !! j
               else downloads (db s) !! j) ->
  (forall d, downloads (db s) !! i = Some d ->
     row_ok d (in_flight t) -> task_shape t -> row_shape E d (Some t) ->
     task_shape t' /\ row_shape E (f d) (Some t')) ->
  Shape E (mkSys db' fs' (<[i := t']> (active s)) (loop s)).
Proof.
  intros (Hrows & Htasks & Hloop) (Hok & _ & _) Hi Hdb Hf.
  pose proof (row_written_dom _ _ _ _ Hdb) as Hdom.
  destruct (Htasks _ _ Hi) as [Hrow Hts].
  destruct (downloads (db s) !! i) as [d|] eqn:Hd; [|done].
  pose proof (Hrows _ _ Hd) as Hsh. rewrite Hi in Hsh.
  destruct (Hok _ _ Hd) as [_ Hrok]. rewrite Hi in Hrok. simpl in Hrok.
  destruct (Hf d eq_refl Hrok Hts Hsh) as [Hts' Hsh'].
  split; [|split].
  - intros j d' Hd'. cbn [db active] in *. rewrite Hdb in Hd'.
    destruct (decide (i = j)) as [<-|Hne].
    + rewrite Hd in Hd'. injection Hd' as <-. by rewrite lookup_insert_eq.
    + rewrite lookup_insert_ne by done. by apply Hrows.
  - intros j t0 Ht0. cbn [db active] in *.
    destruct (decide (i = j)) as [<-|Hne].
    + rewrite lookup_insert_eq in Ht0. injection Ht0 as <-.
      split; [|done]. apply Hdom. by rewrite Hd.
    + rewrite lookup_insert_ne in Ht0 by done.
      destruct (Htasks _ _ Ht0) as [H1 H2]. split; [by apply Hdom|done].
  - by apply fetched_kept.
Qed.

Lemma handler_step_shape (s : Sys) (db' : DB) (i : Z) (f : Download -> Download) :
  Shape E s -> Inv cfg s ->
  (forall j, downloads db' !! j
             = if decide (i = j) then f <$> downloads (db s) !! j
               else downloads (db s) !! j) ->
  (forall d t, row_ok d (flight t) -> row_shape E d t -> row_shape E (f d) t) ->
  Shape E (mkSys db' (fs s) (active s) (loop s)).
Proof.
  intros (Hrows & Htasks & Hloop) (Hok & _ & _) Hdb Hf.
  pose proof (row_written_dom _ _ _ _ Hdb) as Hdom.
  split; [|split].
  - intros j d' Hd'. cbn [db active] in *. rewrite Hdb in Hd'.
    destruct (decide (i = j)) as [<-|Hne]; [|by apply Hrows].
    destruct (downloads (db s) !! i) as [d|] eqn:Hd; [|discriminate].
    injection Hd' as <-. apply Hf; [by apply (Hok _ _ Hd)|by apply Hrows].
  - intros j t0 Ht0. cbn [db active] in *.
    destruct (Htasks _ _ Ht0) as [H1 H2]. split; [by apply Hdom|done].
  - by apply fetched_kept.
Qed.

Lemma tasks_step_shape (s : Sys) (act' : gmap Z Task) (l : LoopPhase) :
  Shape E s ->
  (forall j, act' !! j = active s !! j
     \/ (active s !! j = Some Done /\ act' !! j = None)
     \/ (active s !! j = None /\ act' !! j = Some Spawned
         /\ downloads (db s) !! j <> None)) ->
  match l with
  | Fetched _ rows => forall d, d ∈ rows -> downloads (db s) !! id d <> None
  | _ => True
  end ->
  Shape E (mkSys (db s) (fs s) act' l).
Proof.
  intros (Hrows & Htasks & Hloop) Hact Hl.
  split; [|split]; [| |done].
  - intros j d Hd. cbn [db active] in *.
    apply (row_shape_quiet E d (active s !! j)); [|by apply Hrows].
    destruct (Hact j) as [->|[[H1 ->]|(H1 & -> & _)]]; [by left|right..];
      rewrite H1; done.
  - intros j t Ht. cbn [db active] in *.
    destruct (Hact j) as [H1|[[_ H1]|(_ & H1 & Hrow)]].
    + rewrite H1 in Ht. by apply Htasks.
    + congruence.
    + rewrite H1 in Ht. injection Ht as <-. done.
Qed.

Lemma step_shape (s s' : Sys) (a : Action) :
  Inv cfg s -> Shape E s -> step cfg E s a s' -> Shape E s'.
Proof.
  intros Hinv Hsh Hstep. destruct Hstep.
  - (* enqueue *)
    destruct Hsh as (Hrows & Htasks & Hloop).
    assert (Hdom : forall j, downloads (db s) !! j <> None ->
              downloads (enqueue_download payload new_id now (db s)).2 !! j
              <> None).
    { intros j Hj. rewrite enqueue_row. destruct (priority_map_get _); [|done].
      by case_decide. }
    split; [|split].
    + intros j d Hd. cbn [db active] in *. rewrite enqueue_row in Hd.
      destruct (priority_map_get _); [|by apply Hrows].
      destruct (decide (new_id = j)) as [<-|]; [|by apply Hrows].
      injection Hd as <-.
      destruct (active s !! new_id) as [t|] eqn:Ht.
      { destruct (Htasks _ _ Ht) as [Hrow _]. done. }
      by apply row_shape_enqueue.
    + intros j t Ht. cbn [db active] in *.
      destruct (Htasks _ _ Ht) as [H1 H2]. split; [by apply Hdom|done].
    + by apply fetched_kept.
  - (* cancel *)
    apply (handler_step_shape s _ i _ Hsh Hinv (cancel_row i (db s))).
    intros d t. apply row_shape_cancel.
  - (* retry *)
    apply (handler_step_shape s _ i _ Hsh Hinv (retry_row i (db s))).
    intros d t. apply row_shape_retry.
  - (* the top of the loop *)
    apply tasks_step_shape; [done| |by destruct (0 <? capacity)%Z].
    intros j. subst active'.
    destruct (reap_lookup (active s) j) as [->|[H1 H2]]; [by left|].
    right. by left.
  - (* the query *)
    apply tasks_step_shape; [done|by left|].
    intros d Hd. rewrite H0 in Hd.
    apply list_elem_of_In, filter_In in Hd as [Hd _].
    apply list_elem_of_In, list_elem_of_fmap in Hd as ([j d'] & -> & Hd).
    apply elem_of_map_to_list in Hd. simpl.
    destruct Hinv as (Hok & _). destruct (Hok _ _ Hd) as [-> _]. by rewrite Hd.
  - (* the spawning *)
    apply tasks_step_shape; [done| |done].
    intros j. destruct (spawn_lookup capacity rows (active s) j)
      as [->|(H1 & H2 & d & Hd & <-)]; [by left|].
    right. right. split; [done|]. split; [done|].
    destruct Hsh as (_ & _ & Hloop). rewrite H in Hloop. by apply Hloop.
  - (* the claim *)
    apply (worker_step_shape s _ _ i Spawned _ _ Hsh Hinv H
             (claim_row E i t1 t2 (db s) (fs s))).
    intros d Hd Hok _ Hrow. subst r. rewrite Blocks.claim_result, Hd.
    destruct (bool_decide (status d = PENDING)) eqn:Hp.
    + split; [done|]. apply row_shape_claim; [|done].
      by apply bool_decide_eq_true in Hp.
    + split; [done|]. by apply (row_shape_idle E d (Some Spawned)).
  - (* the answer of the server *)
    apply (worker_step_shape s (db s) _ i (Claimed u p) _ (fun d => d) Hsh Hinv H).
    + intros j. case_decide; [|done]. by destruct (downloads (db s) !! j).
    + intros d Hd Hok _ Hrow. split; [by split|].
      open_shape Hrow. split_shape; shape_auto.
  - (* a chunk *)
    apply (worker_step_shape s _ _ i (Streaming p total downloaded) _ _ Hsh Hinv H
             (chunk_row i total downloaded chunk_len persist (db s))).
    intros d Hd Hok [Hdl0 Htot0] Hrow.
    assert (Hr1 : r.1 = downloaded + chunk_len).
    { subst r. unfold _download_one_chunk. by destruct persist. }
    rewrite Hr1. split; [split; [lia|done]|].
    assert (Hrow' : row_shape E d (Some (Streaming p total (downloaded + chunk_len)))).
    { open_shape Hrow. split_shape; shape_auto. }
    destruct persist; [|done].
    apply row_shape_progress; [done|lia|done|done].
  - (* the cancellation seen in the store *)
    apply (worker_step_shape s _ _ i (Streaming p total downloaded) _ _ Hsh Hinv H
             (mark_cancelled_row i now (db s))).
    intros d Hd Hok _ Hrow. split; [done|].
    by apply (row_shape_cancelled E now d (Some (Streaming p total downloaded))).
  - (* the task cancelled *)
    apply (worker_step_shape s _ _ i t _ _ Hsh Hinv H
             (mark_cancelled_row i now (db s))).
    intros d Hd Hok _ Hrow. rewrite (target_in_flight _ _ H0) in Hok.
    split; [done|].
    apply (row_shape_cancelled E now d (Some t)); [done| |done].
    simpl. by rewrite H0.
  - (* the failure *)
    apply (worker_step_shape s _ _ i t _ _ Hsh Hinv H
             (mark_failed_row i message now (db s))).
    intros d Hd Hok _ Hrow. split; [done|].
    apply (row_shape_failed E _ now d (Some t)); [|done].
    simpl. by rewrite H0.
  - (* the completion *)
    apply (worker_step_shape s _ _ i (Streaming p total downloaded) _ _ Hsh Hinv H
             (mark_completed_row i downloaded total p now (db s) (fs s))).
    intros d Hd Hok [Hdl Htot] Hrow. split; [done|].
    by apply (row_shape_completed E _ _ now d
                (Some (Streaming p total downloaded))).
Qed.

Lemma reachable_shape (s : Sys) : reachable cfg E s -> Shape E s.
Proof.
  induction 1 as [docs fs0|s a s' Hs IH Hstep]; [apply initial_shape|].
  apply (step_shape s s' a); [|done|done]. by apply (reachable_inv cfg E).
Qed.

End ShapePreservation.

End RunShape.

(* ===================================================================== *)
(** ** What a run shows of its jobs, and what one step may change *)
(* ===================================================================== *)

Module RunFacts.
Import StoreFacts Run RunShape.

(** *** The run with two workers *)

Lemma example_run2 :
  run example_cfg example_env (initial ∅ empty_fs) example_actions2 st2_claimed.
Proof.
  destruct example_run_prefixes as (R1 & _).
  assert (R2 : run example_cfg example_env (initial ∅ empty_fs)
                 (take 2 example_actions2) st2_enqueued).
  { apply (run_snoc _ _ _ _ _ _ _ R1). example_step step_enqueue. }
  assert (R3 : run example_cfg example_env (initial ∅ empty_fs)
                 (take 3 example_actions2) st2_querying).
  { apply (run_snoc _ _ _ _ _ _ _ R2). example_step step_loop_top. }
  assert (R4 : run example_cfg example_env (initial ∅ empty_fs)
                 (take 4 example_actions2) st2_fetched).
  { apply (run_snoc _ _ _ _ _ _ _ R3).
    eapply step_to; [|vm_compute; reflexivity].
    eapply step_query; [reflexivity|].
    vm_compute. first [reflexivity | apply perm_swap]. }
  assert (R5 : run example_cfg example_env (initial ∅ empty_fs)
                 (take 5 example_actions2) st2_spawned).
  { apply (run_snoc _ _ _ _ _ _ _ R4). example_step step_spawn. }
  assert (R6 : run example_cfg example_env (initial ∅ empty_fs)
                 (take 6 example_actions2) st2_claimed_one).
  { apply (run_snoc _ _ _ _ _ _ _ R5). example_step step_claim. }
  apply (run_snoc _ _ _ _ _ _ _ R6). example_step step_claim.
Qed.

Lemma example_run2_reachable : reachable example_cfg example_env st2_claimed.
Proof.
  eapply run_reachable; [apply reach_initial|apply example_run2].
Qed.

Lemma example_states2_reachable :
  reachable example_cfg example_env st2_claimed
  /\ reachable example_cfg example_env st_completed
  /\ reachable example_cfg example_env st_claimed.
Proof.
  destruct example_states_reachable as (_ & H5 & H8 & _).
  split; [apply example_run2_reachable|]. by split.
Qed.

(** *** The columns of a job at every state of a run *)

(** X19. At every state of a run a job sits under its own id, is never
    [PAUSED], has an attempt counter that is set and not negative, has its
    creation time, and shows a byte count and a total, when it has one, that
    are not negative (the worker takes the total from a header of digits
    only). *)
Theorem row_columns_in_run (cfg : DownloadManagerConfig) (E : Env) (s : Sys)
    (i : Z) (d : Download) :
  reachable cfg E s ->
  downloads (db s) !! i = Some d ->
  id d = i
  /\ status d <> PAUSED
  /\ (exists n, attempts d = Some n /\ 0 <= n)
  /\ created_at d <> None
  /\ 0 <= downloaded_bytes d
  /\ (forall tb, total_bytes d = Some tb -> 0 <= tb).
Proof.
  intros Hs Hd.
  destruct (reachable_inv cfg E s Hs) as (Hrows & _ & _).
  destruct (reachable_shape cfg E s Hs) as (Hsh & _ & _).
  destruct (Hrows i d Hd) as [Hid _].
  pose proof (Hsh i d Hd) as H. open_shape H.
  split; [done|]. split; [done|]. split; [|by split].
  destruct (attempts d) as [n|]; [|done]. exists n. by split.
Qed.

Lemma row_columns_in_run_witness :
  reachable example_cfg example_env st_completed
  /\ downloads (db st_completed) !! 1 = Some row_completed
  /\ exists n, attempts row_completed = Some n /\ 0 <= n.
Proof.
  destruct example_states2_reachable as (_ & H8 & _).
  split; [exact H8|]. split; [reflexivity|].
  destruct (row_columns_in_run example_cfg example_env st_completed 1
              row_completed H8 eq_refl) as (_ & _ & Hn & _).
  exact Hn.
Defined.



(** *** The workers *)

(** X21. The worker of a job, at every state of a run. Every task of the
    active map belongs to a job of the store. While the worker is in flight
    the job is [PENDING], [DOWNLOADING] or [CANCELLED], never [COMPLETED] or
    [FAILED]. The target path that the worker holds is the path in the file
    path column of the job, and it is the path that [_build_target_path]
    gives for the row as it stands, whatever cancel and retry requests came
    in between; and the URL that the worker fetches is the URL of the job. *)
Theorem worker_target_recorded (cfg : DownloadManagerConfig) (E : Env)
    (s : Sys) (i : Z) (t : Task) :
  reachable cfg E s ->
  active s !! i = Some t ->
  exists d,
    downloads (db s) !! i = Some d
    /\ (in_flight t = true ->
        status d = PENDING \/ status d = DOWNLOADING \/ status d = CANCELLED)
    /\ (forall p, target_of t = Some p ->
          dispatched d /\ file_path d = Some (to_str p)
          /\ p = (_build_target_path E d empty_fs).1)
    /\ (forall u p, t = Claimed u p -> u = url d).
Proof.
  intros Hs Ht.
  destruct (reachable_inv cfg E s Hs) as (Hrows & _ & _).
  destruct (reachable_shape cfg E s Hs) as (Hsh & Htasks & _).
  destruct (Htasks i t Ht) as [Hrow _].
  destruct (downloads (db s) !! i) as [d|] eqn:Hd; [|done].
  exists d. split; [done|].
  destruct (Hrows i d Hd) as (_ & _ & _ & _ & Hfl & _).
  pose proof (Hsh i d Hd) as H. rewrite Ht in H, Hfl. open_shape H.
  split; [|split].
  - intros Hf. simpl in Hfl. destruct (Hfl Hf) as (_ & Hnc & Hne).
    destruct (status d) eqn:Hst; auto; try done.
    destruct Herr as [_ Herr]. specialize (Herr eq_refl). congruence.
  - intros p Hp. by apply Htg.
  - intros u p ->. by apply (Hur u p).
Qed.

Lemma worker_target_recorded_witness :
  reachable example_cfg example_env st_claimed
  /\ active st_claimed !! 1 = Some (Claimed "/files/guide.pdf" example_target)
  /\ exists d,
       downloads (db st_claimed) !! 1 = Some d
       /\ file_path d = Some (to_str example_target).
Proof.
  destruct example_states2_reachable as (_ & _ & H5).
  split; [exact H5|]. split; [reflexivity|].
  destruct (worker_target_recorded example_cfg example_env st_claimed 1
              (Claimed "/files/guide.pdf" example_target) H5 eq_refl)
    as (d & Hd & _ & Htg & _).
  exists d. split; [exact Hd|].
  destruct (Htg example_target eq_refl) as (_ & Hp & _). exact Hp.
Defined.

Lemma targets_apart (E : Env) (d1 d2 : Download) (fs1 fs2 : FS) :
  id d1 <> id d2 ->
  (_build_target_path E d1 fs1).1 <> (_build_target_path E d2 fs2).1.
Proof.
  intros Hid Heq. apply Hid.
  rewrite !TargetPath.target_path_parts in Heq.
  injection Heq as Heq.
  apply (f_equal (fun l => List.last l "")) in Heq.
  rewrite !last_last in Heq.
  by apply IntStrFacts.id_prefix_inj in Heq.
Qed.

(** X22. Two workers never write to the same place. At every state of a
    run, the target paths of the workers of two different jobs differ; and,
    for a library root that [pathlib] can hold, the temporary file of the
    one is neither the temporary file nor the target of the other. *)
Theorem workers_write_apart (cfg : DownloadManagerConfig) (E : Env) (s : Sys)
    (i j : Z) (ti tj : Task) (p q : Path) :
  reachable cfg E s ->
  i <> j ->
  active s !! i = Some ti -> target_of ti = Some p ->
  active s !! j = Some tj -> target_of tj = Some q ->
  p <> q
  /\ (wf_path (library_dir E) ->
      part_path p <> part_path q /\ part_path p <> q /\ p <> part_path q).
Proof.
  intros Hs Hij Hi Hp Hj Hq.
  destruct (reachable_inv cfg E s Hs) as (Hrows & _ & _).
  destruct (reachable_shape cfg E s Hs) as (Hsh & Htasks & _).
  destruct (Htasks i ti Hi) as [Hri _], (Htasks j tj Hj) as [Hrj _].
  destruct (downloads (db s) !! i) as [di|] eqn:Hdi; [|done].
  destruct (downloads (db s) !! j) as [dj|] eqn:Hdj; [|done].
  destruct (Hrows i di Hdi) as [Hidi _], (Hrows j dj Hdj) as [Hidj _].
  pose proof (Hsh i di Hdi) as H1. rewrite Hi in H1.
  pose proof (Hsh j dj Hdj) as H2. rewrite Hj in H2.
  destruct H1 as (_ & _ & _ & _ & _ & _ & _ & _ & _ & _ & H1 & _).
  destruct H2 as (_ & _ & _ & _ & _ & _ & _ & _ & _ & _ & H2 & _).
  destruct (H1 p Hp) as (_ & _ & ->), (H2 q Hq) as (_ & _ & ->).
  assert (Hne : id di <> id dj) by congruence.
  split; [by apply targets_apart|].
  intros Hlib.
  destruct (TempPath.part_paths_apart E di dj empty_fs empty_fs Hlib)
    as [Ha Hb]; [congruence|].
  destruct (TempPath.part_paths_apart E dj di empty_fs empty_fs Hlib)
    as [Hc _]; [congruence|].
  split; [done|]. split; [done|]. intros Heq. by apply Hc.
Qed.

Lemma workers_write_apart_witness :
  reachable example_cfg example_env st2_claimed
  /\ active st2_claimed !! 1 = Some (Claimed "/files/guide.pdf" example_target)
  /\ active st2_claimed !! 2 = Some (Claimed "/files/atlas.pdf" example_target2)
  /\ example_target <> example_target2.
Proof.
  destruct example_states2_reachable as (H7 & _).
  split; [exact H7|]. split; [reflexivity|]. split; [reflexivity|].
  assert (Hne : (1 : Z) <> 2) by lia.
  destruct (workers_write_apart example_cfg example_env st2_claimed 1 2
              (Claimed "/files/guide.pdf" example_target)
              (Claimed "/files/atlas.pdf" example_target2)
              example_target example_target2 H7 Hne
              eq_refl eq_refl eq_refl eq_refl) as [Hpq _].
  exact Hpq.
Defined.

End RunFacts.

(* ===================================================================== *)
(** ** What one step may change *)
(* ===================================================================== *)

Module StepFacts.
Import StoreFacts Run RunShape RunFacts.

Lemma step_row_write (cfg : DownloadManagerConfig) (E : Env) (s s' : Sys)
    (a : Action) (i : Z) (d : Download) :
  step cfg E s a s' ->
  downloads (db s) !! i = Some d ->
  exists d', downloads (db s') !! i = Some d' /\ row_write E s i d a d'.
Proof.
  intros Hstep Hd. destruct Hstep; cbn [db].
  - rewrite enqueue_row. destruct (priority_map_get _).
    + rewrite decide_False by congruence. eauto using row_write.
    + eauto using row_write.
  - rewrite cancel_row. case_decide; [subst|rewrite Hd; eauto using row_write].
    rewrite Hd. simpl. eauto using row_write.
  - rewrite retry_row. case_decide; [subst|rewrite Hd; eauto using row_write].
    rewrite Hd. simpl. destruct (retry_allowed d) eqn:Ha; eauto using row_write.
  - eauto using row_write.
  - eauto using row_write.
  - eauto using row_write.
  - subst r. rewrite claim_row.
    case_decide; [subst|rewrite Hd; eauto using row_write].
    rewrite Hd. simpl. destruct (bool_decide (status d = PENDING)) eqn:Hp.
    + apply bool_decide_eq_true in Hp. eauto using row_write.
    + eauto using row_write.
  - eauto using row_write.
  - subst r. rewrite chunk_row.
    case_decide; [subst|rewrite Hd; eauto using row_write].
    rewrite Hd. simpl. destruct persist; eauto using row_write.
  - subst w. unfold _download_one_cancelled. cbn [fst].
    rewrite mark_cancelled_row.
    case_decide; [subst|rewrite Hd; eauto using row_write].
    rewrite Hd. simpl. eexists. split; [done|].
    eapply write_cancelled; [done|done|by left].
  - subst w. unfold _download_one_cancelled. cbn [fst].
    rewrite mark_cancelled_row.
    case_decide; [subst|rewrite Hd; eauto using row_write].
    rewrite Hd. simpl. eexists. split; [done|].
    eapply write_cancelled; [done|by eapply target_in_flight|by right].
  - subst w. unfold _download_one_failed. cbn [fst].
    rewrite mark_failed_row.
    case_decide; [subst|rewrite Hd; eauto using row_write].
    rewrite Hd. simpl. eexists. split; [done|].
    eapply write_failed; [done|by eapply target_in_flight].
  - subst w. rewrite mark_completed_row.
    case_decide; [subst|rewrite Hd; eauto using row_write].
    rewrite Hd. simpl. eauto using row_write.
Qed.

Lemma step_new_row (cfg : DownloadManagerConfig) (E : Env) (s s' : Sys)
    (a : Action) (i : Z) (d' : Download) :
  step cfg E s a s' ->
  downloads (db s) !! i = None ->
  downloads (db s') !! i = Some d' ->
  exists payload now pr,
    a = AEnqueue payload i now
    /\ priority_map_get (PyStr.lower (req_priority payload)) = Some pr
    /\ d' = mkDownload i (req_document_id payload) (req_source payload)
              (req_source_id payload) (req_url payload) None
              (req_file_name payload) PENDING pr 0 0 None None
              (Some 0) None None (Some now) None None.
Proof.
  intros Hstep Hd Hd'. destruct Hstep; cbn [db] in Hd'.
  - rewrite enqueue_row in Hd'.
    destruct (priority_map_get _) as [pr|] eqn:Hpr; [|congruence].
    case_decide; [subst|congruence]. injection Hd' as <-. eauto 10.
  - rewrite cancel_row, Hd in Hd'. by case_decide.
  - rewrite retry_row, Hd in Hd'. by case_decide.
  - congruence.
  - congruence.
  - congruence.
  - subst r. rewrite claim_row, Hd in Hd'. by case_decide.
  - congruence.
  - subst r. rewrite chunk_row, Hd in Hd'. by case_decide.
  - subst w. unfold _download_one_cancelled in Hd'. cbn [fst] in Hd'.
    rewrite mark_cancelled_row, Hd in Hd'. by case_decide.
  - subst w. unfold _download_one_cancelled in Hd'. cbn [fst] in Hd'.
    rewrite mark_cancelled_row, Hd in Hd'. by case_decide.
  - subst w. unfold _download_one_failed in Hd'. cbn [fst] in Hd'.
    rewrite mark_failed_row, Hd in Hd'. by case_decide.
  - subst w. rewrite mark_completed_row, Hd in Hd'. by case_decide.
Qed.




(** X24. What no step takes from a job. A step of the system never removes
    a job, and it never changes what the request gave: id, document link,
    source, source id, URL, file name, priority and creation time. The
    attempt counter changes only by the claim of the worker of the job,
    which adds one, and the file path column changes only by that claim. A
    job that appears in a step comes from an enqueue request with that id,
    and is [PENDING] with progress 0 and no attempt. *)
Theorem step_keeps_request (cfg : DownloadManagerConfig) (E : Env)
    (s s' : Sys) (a : Action) (i : Z) :
  step cfg E s a s' ->
  (forall d, downloads (db s) !! i = Some d ->
     exists d',
       downloads (db s') !! i = Some d'
       /\ same_request d d'
       /\ (attempts d' = attempts d
           \/ (attempts d' = Some (or_zero (attempts d) + 1)
               /\ exists t1 t2, a = WClaim i t1 t2))
       /\ (file_path d' = file_path d \/ exists t1 t2, a = WClaim i t1 t2))
  /\ (forall d', downloads (db s) !! i = None ->
        downloads (db s') !! i = Some d' ->
        (exists payload now, a = AEnqueue payload i now)
        /\ id d' = i /\ status d' = PENDING /\ progress d' = 0
        /\ attempts d' = Some 0 /\ error_message d' = None).
Proof.
  intros Hstep. split.
  - intros d Hd.
    destruct (step_row_write cfg E s s' a i d Hstep Hd) as (d' & Hd' & Hw).
    exists d'. split; [done|].
    destruct Hw; (split; [by repeat split|]); simpl; eauto 10.
  - intros d' Hd Hd'.
    destruct (step_new_row cfg E s s' a i d' Hstep Hd Hd')
      as (payload & now & pr & -> & _ & ->).
    split; [eauto|]. done.
Qed.

Lemma step_keeps_request_witness :
  step example_cfg example_env st_completed (ACancel 1) st_cancelled
  /\ downloads (db st_completed) !! 1 = Some row_completed
  /\ exists d', downloads (db st_cancelled) !! 1 = Some d'
                /\ same_request row_completed d'.
Proof.
  assert (Hstep : step example_cfg example_env st_completed (ACancel 1)
                    st_cancelled).
  { example_step step_cancel. }
  split; [exact Hstep|]. split; [reflexivity|].
  destruct (step_keeps_request example_cfg example_env st_completed st_cancelled
              (ACancel 1) 1 Hstep) as [Hk _].
  destruct (Hk row_completed eq_refl) as (d' & Hd' & Hsame & _).
  exists d'. split; [exact Hd'|exact Hsame].
Defined.

(** *** The catalog *)

Lemma update_linked_frame upd d db :
  documents (update_linked upd d db) = documents db
  \/ (truthy_int (document_id d) = true
      /\ forall k, k <> or_zero (document_id d) ->
           documents (update_linked upd d db) !! k = documents db !! k).
Proof.
  unfold update_linked. destruct (truthy_int (document_id d)); [|by left].
  destruct (documents db !! _); [|by left].
  right. split; [done|]. intros k Hk. simpl. by apply lookup_insert_ne.
Qed.

Lemma step_documents (cfg : DownloadManagerConfig) (E : Env) (s s' : Sys)
    (a : Action) :
  step cfg E s a s' ->
  documents (db s') = documents (db s)
  \/ exists i d upd,
       ((exists now, a = WCompleted i now)
        \/ (exists msg now, a = WFailed i msg now))
       /\ downloads (db s) !! i = Some d
       /\ document_id (upd d) = document_id d
       /\ documents (db s')
          = documents (update_linked
                         (match a with
                          | WCompleted _ _ => doc_completed
                          | _ => doc_failed
                          end) (upd d) (commit_at i (upd d) (db s))).
Proof.
  intros Hstep. destruct Hstep; cbn [db].
  - left. unfold enqueue_download. by destruct (priority_map_get _).
  - left. unfold cancel_download. by destruct (downloads (db s) !! i).
  - left. unfold retry_download. destruct (downloads (db s) !! i); [|done].
    by destruct (negb _).
  - by left.
  - by left.
  - by left.
  - left. subst r. apply Blocks.claim_documents.
  - by left.
  - left. subst r. unfold _download_one_chunk, _update_progress.
    destruct persist; [|done]. by destruct (downloads (db s) !! i).
  - left. subst w. unfold _download_one_cancelled, _mark_cancelled. cbn [fst].
    by destruct (downloads (db s) !! i).
  - left. subst w. unfold _download_one_cancelled, _mark_cancelled. cbn [fst].
    by destruct (downloads (db s) !! i).
  - subst w. unfold _download_one_failed, _mark_failed. cbn [fst].
    destruct (downloads (db s) !! i) as [d|] eqn:Hd; [|by left].
    right. exists i, d,
      (fun d => set_speed None (set_completed_at (Some now)
                  (set_error_message (Some (PyStr.slice_to 512 message))
                     (set_status FAILED d)))).
    split; [right; eauto|]. done.
  - subst w. unfold _mark_completed.
    destruct (downloads (db s) !! i) as [d|] eqn:Hd; [|by left].
    right. exists i, d,
      (fun d => set_error_message None (set_speed None (set_total_bytes total
                  (set_downloaded_bytes downloaded (set_progress 100
                     (set_completed_at (Some now) (set_status COMPLETED d))))))).
    split; [left; eauto|]. done.
Qed.

(** X25. The catalog in a run. No step adds an entry to the catalog or
    removes one. A step leaves the whole catalog as it was unless it is the
    completion or the failure of a worker whose job has a true document
    link, and then every entry other than the linked one stays as it was. So
    the entries of the catalog are the same after any run as before it. *)
Theorem catalog_frame (cfg : DownloadManagerConfig) (E : Env) :
  (forall s a s', step cfg E s a s' ->
     dom (documents (db s')) = dom (documents (db s))
     /\ (documents (db s') = documents (db s)
         \/ exists i d,
              downloads (db s) !! i = Some d
              /\ ((exists now, a = WCompleted i now)
                  \/ (exists msg now, a = WFailed i msg now))
              /\ truthy_int (document_id d) = true
              /\ forall k, k <> or_zero (document_id d) ->
                   documents (db s') !! k = documents (db s) !! k))
  /\ (forall docs fs0 l s,
        run cfg E (initial docs fs0) l s ->
        dom (documents (db s)) = dom docs).
Proof.
  assert (Hstep : forall s a s', step cfg E s a s' ->
     dom (documents (db s')) = dom (documents (db s))
     /\ (documents (db s') = documents (db s)
         \/ exists i d,
              downloads (db s) !! i = Some d
              /\ ((exists now, a = WCompleted i now)
                  \/ (exists msg now, a = WFailed i msg now))
              /\ truthy_int (document_id d) = true
              /\ forall k, k <> or_zero (document_id d) ->
                   documents (db s') !! k = documents (db s) !! k)).
  { intros s a s' H.
    destruct (step_documents cfg E s s' a H)
      as [->|(i & d & upd & Ha & Hd & Hid & ->)]; [by split; [|left]|].
    split; [by rewrite WorkerBlocks.update_linked_dom|].
    destruct (update_linked_frame
                (match a with WCompleted _ _ => doc_completed | _ => doc_failed end)
                (upd d) (commit_at i (upd d) (db s))) as [->|[Ht Hk]].
    - by left.
    - right. exists i, d. rewrite Hid in Ht, Hk. done. }
  split; [exact Hstep|].
  intros docs fs0 l s Hrun.
  remember (initial docs fs0) as s0 eqn:Hs0.
  assert (Hdom : dom (documents (db s0)) = dom docs) by by subst.
  clear Hs0. induction Hrun as [s|s a s1 l s2 Ha _ IH]; [done|].
  apply IH. destruct (Hstep s a s1 Ha) as [-> _]. done.
Qed.

End StepFacts.

(* ===================================================================== *)
(** ** The files of a run *)
(* ===================================================================== *)

Module FilesFacts.
Import StoreFacts Run RunShape RunFacts StepFacts.

Lemma job_target_same_request (E : Env) (d d' : Download) :
  same_request d d' -> job_target E d' = job_target E d.
Proof. apply target_path_same_request. Qed.

Lemma task_target (cfg : DownloadManagerConfig) (E : Env) (s : Sys) (i : Z)
    (t : Task) (p : Path) :
  reachable cfg E s ->
  active s !! i = Some t -> target_of t = Some p ->
  exists d, downloads (db s) !! i = Some d /\ id d = i /\ p = job_target E d
            /\ status d <> COMPLETED.
Proof.
  intros Hs Ht Hp.
  destruct (reachable_inv cfg E s Hs) as (Hrows & _ & _).
  destruct (reachable_shape cfg E s Hs) as (Hsh & Htasks & _).
  destruct (Htasks i t Ht) as [Hrow _].
  destruct (downloads (db s) !! i) as [d|] eqn:Hd; [|done].
  exists d. split; [done|].
  destruct (Hrows i d Hd) as (Hid & _ & _ & _ & Hfl & _).
  split; [done|]. rewrite Ht in Hfl. simpl in Hfl.
  rewrite (target_in_flight _ _ Hp) in Hfl.
  destruct (Hfl eq_refl) as (_ & Hnc & _).
  pose proof (Hsh i d Hd) as H. rewrite Ht in H. open_shape H.
  destruct (Htg p Hp) as (_ & _ & ->). done.
Qed.

Lemma row_write_facts (E : Env) (s : Sys) (i : Z) (d d' : Download)
    (a : Action) :
  row_write E s i d a d' ->
  same_request d d'
  /\ (file_path d' = file_path d
      \/ file_path d' = Some (to_str (job_target E d')))
  /\ (status d' = COMPLETED ->
      status d = COMPLETED \/ exists now, a = WCompleted i now).
Proof.
  intros Hw. destruct Hw; (split; [by repeat split|]); simpl;
    (split; [auto|]); try done; eauto.
Qed.

Lemma streaming_insert (act : gmap Z Task) (i : Z) (t' : Task) (j : Z)
    (q : Path) :
  streaming_in (<[i := t']> act) j q
  <-> (j = i /\ exists total dl, t' = Streaming q total dl)
      \/ (j <> i /\ streaming_in act j q).
Proof.
  unfold streaming_in. destruct (decide (j = i)) as [->|Hne].
  - rewrite lookup_insert_eq. split.
    + intros (total & dl & [= ->]). left. eauto.
    + intros [(_ & total & dl & ->)|[? _]]; [eauto|done].
  - rewrite lookup_insert_ne by done. split; [by right|].
    intros [[? _]|[_ H]]; done.
Qed.

Lemma streaming_end (act : gmap Z Task) (i : Z) (t' : Task) (j : Z) (q : Path) :
  (forall q' total dl, t' <> Streaming q' total dl) ->
  streaming_in (<[i := t']> act) j q <-> (j <> i /\ streaming_in act j q).
Proof.
  intros Ht. rewrite streaming_insert. split; [|by right].
  intros [(_ & total & dl & ->)|H]; [by destruct (Ht q total dl)|done].
Qed.

Lemma streaming_kept (act : gmap Z Task) (i : Z) (t t' : Task) (j : Z)
    (q : Path) :
  act !! i = Some t ->
  (forall q', (exists total dl, t' = Streaming q' total dl)
              <-> (exists total dl, t = Streaming q' total dl)) ->
  streaming_in (<[i := t']> act) j q <-> streaming_in act j q.
Proof.
  intros Hi Ht. rewrite streaming_insert. split.
  - intros [[-> H]|[_ H]]; [|done].
    apply Ht in H as (total & dl & ->). by exists total, dl.
  - intros H. destruct (decide (j = i)) as [->|Hne]; [left|by right].
    split; [done|]. apply Ht. destruct H as (total & dl & H).
    exists total, dl. congruence.
Qed.

Lemma unlink_part_files (p : Path) (fs : FS) :
  files (unlink_part p fs) = files fs ∖ {[part_path p]}.
Proof.
  unfold unlink_part, exists_. case_bool_decide as Hin; [done|].
  apply set_eq. intros q. rewrite elem_of_difference, elem_of_singleton.
  split; [|tauto]. intros Hq. split; [done|]. by intros ->.
Qed.

Lemma claim_files (E : Env) (i : Z) (t1 t2 : datetime) (db : DB) (fs : FS) :
  files (_download_one_claim E i t1 t2 (db, fs)).2.2 = files fs.
Proof.
  unfold _download_one_claim.
  destruct (downloads db !! i) as [d|]; [|done].
  destruct (bool_decide (status d <> PENDING)); [done|].
  reflexivity.
Qed.

Lemma mark_completed_files i dl tb p now db fs :
  files (_mark_completed i dl tb p now (db, fs)).2
  = if bool_decide (part_path p ∈ files fs)
    then (files fs ∖ {[part_path p]}) ∪ {[p]} else files fs.
Proof.
  unfold _mark_completed, exists_.
  destruct (downloads db !! i); by case_bool_decide.
Qed.

Lemma step_fs_change (cfg : DownloadManagerConfig) (E : Env) (s s' : Sys)
    (a : Action) :
  step cfg E s a s' ->
  (no_completion a
   /\ files (fs s') = files (fs s)
   /\ forall j q, streaming_in (active s') j q <-> streaming_in (active s) j q)
  \/ (exists i u p,
        no_completion a
        /\ active s !! i = Some (Claimed u p)
        /\ files (fs s') = files (fs s) ∪ {[part_path p]}
        /\ forall j q, streaming_in (active s') j q
             <-> (j = i /\ q = p) \/ (j <> i /\ streaming_in (active s) j q))
  \/ (exists i t p,
        no_completion a
        /\ active s !! i = Some t /\ target_of t = Some p
        /\ files (fs s') = files (fs s) ∖ {[part_path p]}
        /\ forall j q, streaming_in (active s') j q
             <-> (j <> i /\ streaming_in (active s) j q))
  \/ (exists i p total dl now,
        a = WCompleted i now
        /\ active s !! i = Some (Streaming p total dl)
        /\ files (fs s')
           = (if bool_decide (part_path p ∈ files (fs s))
              then (files (fs s) ∖ {[part_path p]}) ∪ {[p]} else files (fs s))
        /\ forall j q, streaming_in (active s') j q
             <-> (j <> i /\ streaming_in (active s) j q)).
Proof.
  intros Hstep. destruct Hstep; cbn [fs active].
  - left. by split.
  - left. by split.
  - left. by split.
  - left. split; [done|]. split; [done|]. intros j q. subst active'.
    unfold streaming_in.
    destruct (reap_lookup (active s) j) as [->|[H1 H2]]; [done|].
    rewrite H1, H2. split; intros (? & ? & ?); done.
  - left. by split.
  - left. split; [done|]. split; [done|]. intros j q. unfold streaming_in.
    destruct (spawn_lookup capacity rows (active s) j)
      as [->|(H1 & H2 & _)]; [done|].
    rewrite H1, H2. split; intros (? & ? & ?); done.
  - left. split; [done|]. split; [subst r; apply claim_files|].
    intros j q. apply (streaming_kept _ _ Spawned); [done|].
    intros q'. split; [|by intros (? & ? & ?)].
    intros (? & ? & Hr). by destruct r.1 as [[? ?]|].
  - right. left. exists i, u, p. split; [done|]. split; [done|].
    split; [done|]. intros j q. rewrite streaming_insert.
    split; intros [[-> H1]|H1]; try (by right); left; split; try done.
    + destruct H1 as (? & ? & [= ->]). done.
    + subst q. eauto.
  - left. split; [done|]. split; [done|]. intros j q.
    apply (streaming_kept _ _ (Streaming p total downloaded)); [done|].
    intros q'. split; intros (? & ? & [= -> _ _]); eauto.
  - right. right. left. exists i, (Streaming p total downloaded), p.
    split; [done|]. split; [done|]. split; [done|].
    split; [subst w; apply unlink_part_files|].
    intros j q. by apply streaming_end.
  - right. right. left. exists i, t, p.
    split; [done|]. split; [done|]. split; [done|].
    split; [subst w; apply unlink_part_files|].
    intros j q. by apply streaming_end.
  - right. right. left. exists i, t, p.
    split; [done|]. split; [done|]. split; [done|].
    split; [subst w; apply unlink_part_files|].
    intros j q. by apply streaming_end.
  - right. right. right. exists i, p, total, downloaded, now.
    split; [done|]. split; [done|].
    split; [subst w; apply mark_completed_files|].
    intros j q. by apply streaming_end.
Qed.

Section FilesPreservation.

Variable cfg : DownloadManagerConfig.
Variable E : Env.
Variable fs0 : FS.
Hypothesis Hlib : wf_path (library_dir E).

Lemma initial_files docs : files_ok E fs0 (initial docs fs0).
Proof.
  split; [|split].
  - intros i p (total & dl & H). simpl in H. by rewrite lookup_empty in H.
  - intros i d H. simpl in H. by rewrite lookup_empty in H.
  - intros q Hq. by left.
Qed.

Lemma part_not_target (s : Sys) (i j : Z) (t : Task) (p : Path) (d : Download) :
  reachable cfg E s ->
  active s !! i = Some t -> target_of t = Some p ->
  downloads (db s) !! j = Some d -> status d = COMPLETED ->
  job_target E d <> part_path p.
Proof.
  intros Hs Ht Hp Hd Hst.
  destruct (task_target cfg E s i t p Hs Ht Hp) as (di & Hdi & Hid & -> & Hnc).
  destruct (reachable_inv cfg E s Hs) as (Hrows & _ & _).
  destruct (Hrows j d Hd) as [Hjd _].
  assert (Hij : id d <> id di).
  { intros Heq. assert (j = i) as -> by congruence. congruence. }
  destruct (TempPath.part_paths_apart E di d empty_fs empty_fs Hlib Hij)
    as [Ha _].
  intros Heq. by apply Ha.
Qed.

Lemma parts_apart (s : Sys) (i j : Z) (t : Task) (p q : Path) :
  reachable cfg E s ->
  active s !! i = Some t -> target_of t = Some p ->
  j <> i -> streaming_in (active s) j q ->
  part_path q <> part_path p.
Proof.
  intros Hs Ht Hp Hne (total & dl & Hq).
  destruct (task_target cfg E s i t p Hs Ht Hp) as (di & Hdi & Hid & -> & _).
  destruct (task_target cfg E s j _ q Hs Hq eq_refl) as (dj & Hdj & Hjd & -> & _).
  assert (Hij : id di <> id dj) by congruence.
  by destruct (TempPath.part_paths_apart E dj di empty_fs empty_fs Hlib Hij)
    as [_ Hb].
Qed.

Lemma step_files_ok (s s' : Sys) (a : Action) :
  reachable cfg E s -> files_ok E fs0 s -> step cfg E s a s' ->
  files_ok E fs0 s'.
Proof.
  intros Hs (Hparts & Hrows & Hall) Hstep.
  pose proof (step_fs_change cfg E s s' a Hstep) as Hfs.
  assert (Hrow : forall j d', downloads (db s') !! j = Some d' ->
            (exists d, downloads (db s) !! j = Some d /\ row_write E s j d a d')
            \/ (file_path d' = None /\ status d' = PENDING)).
  { intros j d' Hd'. destruct (downloads (db s) !! j) as [d|] eqn:Hd.
    - left. exists d. split; [done|].
      destruct (step_row_write cfg E s s' a j d Hstep Hd) as (d0 & Hd0 & Hw).
      congruence.
    - right. destruct (step_new_row cfg E s s' a j d' Hstep Hd Hd')
        as (payload & now & pr & _ & _ & ->). done. }
  assert (Hkeep : forall j d, downloads (db s) !! j = Some d ->
            exists d', downloads (db s') !! j = Some d'
                       /\ job_target E d' = job_target E d).
  { intros j d Hd.
    destruct (step_row_write cfg E s s' a j d Hstep Hd) as (d' & Hd' & Hw).
    exists d'. split; [done|]. apply job_target_same_request.
    by apply (row_write_facts E s j d d' a). }
  assert (Hpath : forall j d', downloads (db s') !! j = Some d' ->
            file_path d' <> None ->
            file_path d' = Some (to_str (job_target E d'))).
  { intros j d' Hd' Hfp. destruct (Hrow j d' Hd') as [(d & Hd & Hw)|[H1 _]];
      [|done].
    destruct (row_write_facts E s j d d' a Hw) as (Hsame & [Hf|Hf] & _);
      [|done].
    rewrite (job_target_same_request E d d' Hsame), Hf.
    apply (Hrows j d Hd). congruence. }
  assert (Hold : forall j d', downloads (db s') !! j = Some d' ->
            status d' = COMPLETED -> no_completion a ->
            exists d, downloads (db s) !! j = Some d /\ status d = COMPLETED
                      /\ job_target E d' = job_target E d
                      /\ job_target E d ∈ files (fs s)).
  { intros j d' Hd' Hst Hno. destruct (Hrow j d' Hd') as [(d & Hd & Hw)|[_ H1]];
      [|congruence].
    destruct (row_write_facts E s j d d' a Hw) as (Hsame & _ & Hc).
    destruct (Hc Hst) as [Hc'|[now ->]]; [|by destruct (Hno j now)].
    exists d. split; [done|]. split; [done|].
    split; [by apply job_target_same_request|]. by apply (Hrows j d Hd). }
  destruct Hfs as [(Hno & Hf & Hst)
                  |[(i & u & p & Hno & Hi & Hf & Hst)
                  |[(i & t & p & Hno & Hi & Hp & Hf & Hst)
                  |(i & p & total & dl & now & -> & Hi & Hf & Hst)]]].
  - (* the files stay *)
    split; [|split].
    + intros j q Hq. rewrite Hf. apply (Hparts j). by apply Hst.
    + intros j d' Hd'. split; [by apply (Hpath j)|]. intros Hc.
      destruct (Hold j d' Hd' Hc Hno) as (d & _ & _ & -> & Hin). by rewrite Hf.
    + intros q Hq. rewrite Hf in Hq.
      destruct (Hall q Hq) as [H|[(j & q' & Hj & ->)|(j & d & Hd & ->)]].
      * by left.
      * right. left. exists j, q'. split; [by apply Hst|done].
      * right. right. destruct (Hkeep j d Hd) as (d' & Hd' & Ht).
        exists j, d'. by split.
  - (* a temporary file is opened *)
    split; [|split].
    + intros j q Hq. rewrite Hf, elem_of_union, elem_of_singleton.
      apply Hst in Hq as [[-> ->]|[_ Hq]]; [by right|].
      left. by apply (Hparts j).
    + intros j d' Hd'. split; [by apply (Hpath j)|]. intros Hc.
      destruct (Hold j d' Hd' Hc Hno) as (d & _ & _ & -> & Hin).
      rewrite Hf, elem_of_union. by left.
    + intros q Hq. rewrite Hf, elem_of_union, elem_of_singleton in Hq.
      destruct Hq as [Hq| ->].
      * destruct (Hall q Hq) as [H|[(j & q' & Hj & ->)|(j & d & Hd & ->)]].
        -- by left.
        -- right. left. exists j, q'. split; [|done]. apply Hst. right.
           split; [|done]. intros ->. destruct Hj as (? & ? & Hj). congruence.
        -- right. right. destruct (Hkeep j d Hd) as (d' & Hd' & Ht).
           exists j, d'. by split.
      * right. left. exists i, p. split; [|done]. apply Hst. by left.
  - (* a temporary file is removed *)
    split; [|split].
    + intros j q Hq. apply Hst in Hq as [Hne Hq].
      rewrite Hf, elem_of_difference, elem_of_singleton.
      split; [by apply (Hparts j)|]. by apply (parts_apart s i j t p q).
    + intros j d' Hd'. split; [by apply (Hpath j)|]. intros Hc.
      destruct (Hold j d' Hd' Hc Hno) as (d & Hd & Hdc & -> & Hin).
      rewrite Hf, elem_of_difference, elem_of_singleton.
      split; [done|]. by apply (part_not_target s i j t p d).
    + intros q Hq. rewrite Hf, elem_of_difference, elem_of_singleton in Hq.
      destruct Hq as [Hq Hqp].
      destruct (Hall q Hq) as [H|[(j & q' & Hj & ->)|(j & d & Hd & ->)]].
      * by left.
      * right. left. exists j, q'. split; [|done]. apply Hst.
        split; [|done]. intros ->. destruct Hj as (? & ? & Hj).
        rewrite Hi in Hj. injection Hj as ->. simpl in Hp. congruence.
      * right. right. destruct (Hkeep j d Hd) as (d' & Hd' & Ht).
        exists j, d'. by split.
  - (* the completion *)
    assert (Hpart : part_path p ∈ files (fs s)).
    { apply (Hparts i). by exists total, dl. }
    rewrite bool_decide_eq_true_2 in Hf by done.
    destruct (task_target cfg E s i _ p Hs Hi eq_refl)
      as (di & Hdi & Hid & Hpi & Hnc).
    split; [|split].
    + intros j q Hq. apply Hst in Hq as [Hne Hq].
      rewrite Hf, elem_of_union, elem_of_difference, elem_of_singleton.
      left. split; [by apply (Hparts j)|].
      by apply (parts_apart s i j (Streaming p total dl) p q).
    + intros j d' Hd'. split; [by apply (Hpath j)|]. intros Hc.
      rewrite Hf, elem_of_union, elem_of_difference, !elem_of_singleton.
      destruct (Hrow j d' Hd') as [(d & Hd & Hw)|[_ H1]]; [|congruence].
      destruct (row_write_facts E s j d d' _ Hw) as (Hsame & _ & Hcc).
      rewrite (job_target_same_request E d d' Hsame).
      destruct (Hcc Hc) as [Hdc|[now' [= -> _]]].
      * left. split; [by apply (Hrows j d Hd)|].
        by apply (part_not_target s i j (Streaming p total dl) p d).
      * right. congruence.
    + intros q Hq.
      rewrite Hf, elem_of_union, elem_of_difference, !elem_of_singleton in Hq.
      destruct Hq as [[Hq Hqp]| ->].
      * destruct (Hall q Hq) as [H|[(j & q' & Hj & ->)|(j & d & Hd & ->)]].
        -- by left.
        -- right. left. exists j, q'. split; [|done]. apply Hst.
           split; [|done]. intros ->. destruct Hj as (? & ? & Hj).
           rewrite Hi in Hj. by injection Hj as -> _ _.
        -- right. right. destruct (Hkeep j d Hd) as (d' & Hd' & Ht).
           exists j, d'. by split.
      * right. right. destruct (Hkeep i di Hdi) as (d' & Hd' & Ht).
        exists i, d'. split; [done|]. congruence.
Qed.

Lemma run_files_from (s0 : Sys) (l : list Action) (s : Sys) :
  run cfg E s0 l s -> reachable cfg E s0 -> files_ok E fs0 s0 ->
  files_ok E fs0 s.
Proof.
  induction 1 as [s|s a s1 l s2 Ha _ IH]; intros Hr Hf; [done|].
  apply IH; [by apply (reach_step cfg E s a)|by apply (step_files_ok s s1 a)].
Qed.

Lemma run_files_ok (docs : gmap Z Document) (l : list Action) (s : Sys) :
  run cfg E (initial docs fs0) l s -> files_ok E fs0 s.
Proof.
  intros Hrun. apply (run_files_from _ _ _ Hrun);
    [apply reach_initial|apply initial_files].
Qed.

End FilesPreservation.

(** X26. The files of a run, for a library root that [pathlib] can hold and
    a file system that only the manager writes to. While a worker streams,
    its temporary file exists. The file of a [COMPLETED] job exists at the
    path in its file path column; and that column, once set, always holds
    the target path of the job. Every file that exists was there before the
    run, or is the temporary file of a worker that is streaming, or lies at
    the target path of a job: a worker that ends leaves no temporary file
    behind. *)
Theorem files_of_a_run (cfg : DownloadManagerConfig) (E : Env)
    (docs : gmap Z Document) (fs0 : FS) (l : list Action) (s : Sys) :
  wf_path (library_dir E) ->
  run cfg E (initial docs fs0) l s ->
  (forall i p total dl,
     active s !! i = Some (Streaming p total dl) ->
     part_path p ∈ files (fs s))
  /\ (forall i d,
        downloads (db s) !! i = Some d -> status d = COMPLETED ->
        file_path d = Some (to_str (job_target E d))
        /\ job_target E d ∈ files (fs s))
  /\ (forall i d,
        downloads (db s) !! i = Some d -> file_path d <> None ->
        file_path d = Some (to_str (job_target E d)))
  /\ (forall q,
        q ∈ files (fs s) ->
        q ∈ files fs0
        \/ (exists i p total dl,
              active s !! i = Some (Streaming p total dl) /\ q = part_path p)
        \/ (exists i d, downloads (db s) !! i = Some d /\ q = job_target E d)).
Proof.
  intros Hlib Hrun.
  destruct (run_files_ok cfg E fs0 Hlib docs l s Hrun) as (Hparts & Hrows & Hall).
  assert (Hs : reachable cfg E s).
  { eapply run_reachable; [apply reach_initial|exact Hrun]. }
  destruct (reachable_shape cfg E s Hs) as (Hsh & _ & _).
  split; [|split; [|split]].
  - intros i p total dl Hi. apply (Hparts i). by exists total, dl.
  - intros i d Hd Hc. destruct (Hrows i d Hd) as [Hf Ht].
    split; [|by apply Ht]. apply Hf.
    pose proof (Hsh i d Hd) as H. open_shape H.
    destruct Hdi as (Hfp & _); [by right; left|done].
  - intros i d Hd. by apply (Hrows i d Hd).
  - intros q Hq.
    destruct (Hall q Hq) as [H|[(j & p & (total & dl & Hj) & ->)|H]];
      [by left| |by right; right].
    right. left. by exists j, p, total, dl.
Qed.

Lemma files_of_a_run_witness :
  wf_path (library_dir example_env)
  /\ run example_cfg example_env (initial ∅ empty_fs) (take 8 example_actions)
       st_completed
  /\ job_target example_env row_completed ∈ files (fs st_completed).
Proof.
  assert (Hwf : wf_path (library_dir example_env)).
  { split; [right; left; reflexivity|]. by apply Forall_singleton. }
  destruct example_run_prefixes as (_ & _ & R8 & _).
  split; [exact Hwf|]. split; [exact R8|].
  destruct (files_of_a_run example_cfg example_env ∅ empty_fs
              (take 8 example_actions) st_completed Hwf R8) as (_ & Hc & _).
  destruct (Hc 1 row_completed eq_refl eq_refl) as [_ Hin]. exact Hin.
Defined.

End FilesFacts.

(* ===================================================================== *)
(** ** A transfer from its first chunk to its completion *)
(* ===================================================================== *)

Module Transfer.
Import StoreFacts Run.

Lemma chunk_counter i total dl len persist db :
  (_download_one_chunk i total dl len persist db).1 = dl + len.
Proof. unfold _download_one_chunk. by destruct persist. Qed.

Lemma chunk_documents i total dl len persist db :
  documents (_download_one_chunk i total dl len persist db).2 = documents db.
Proof.
  unfold _download_one_chunk, _update_progress. destruct persist; [|done].
  by destruct (downloads db !! i).
Qed.

Lemma stream_cons i total len persist rest dl db :
  _download_one_stream i total ((len, persist) :: rest) dl db
  = if _is_cancelled i db then (StreamCancelled, db)
    else _download_one_stream i total rest (dl + len)
           (_download_one_chunk i total dl len persist db).2.
Proof.
  change (_download_one_stream i total ((len, persist) :: rest) dl db)
    with (if _is_cancelled i db then (StreamCancelled, db)
          else _download_one_stream i total rest
                 (_download_one_chunk i total dl len persist db).1
                 (_download_one_chunk i total dl len persist db).2).
  by rewrite chunk_counter.
Qed.

Lemma stream_rows (i : Z) (total : option Z) (chunks : list (Z * option Z))
    (dl : Z) (db : DB) (d : Download) :
  downloads db !! i = Some d -> status d <> CANCELLED ->
  Forall (fun c => 0 <= c.1) chunks -> 0 <= dl ->
  0 <= downloaded_bytes d <= dl ->
  let r := _download_one_stream i total chunks dl db in
  r.1 = StreamFinished (dl + chunk_bytes chunks)
  /\ (forall j, j <> i -> downloads r.2 !! j = downloads db !! j)
  /\ documents r.2 = documents db
  /\ exists d',
       downloads r.2 !! i = Some d'
       /\ status d' = status d /\ same_request d d'
       /\ attempts d' = attempts d /\ file_path d' = file_path d
       /\ error_message d' = error_message d
       /\ downloaded_bytes d <= downloaded_bytes d' <= dl + chunk_bytes chunks
       /\ (Forall (fun c => c.2 = None) chunks -> d' = d).
Proof.
  revert dl db d. induction chunks as [|[len persist] chunks IH];
    intros dl db d Hd Hst Hlen Hdl Hrow r.
  - subst r. simpl. rewrite Z.add_0_r. split; [done|]. split; [done|].
    split; [done|]. exists d. repeat split; try done; lia.
  - subst r.
    assert (Hc : _is_cancelled i db = false).
    { unfold _is_cancelled. rewrite Hd. by apply bool_decide_eq_false_2. }
    rewrite stream_cons, Hc.
    apply Forall_cons in Hlen as [Hl Hlen]. simpl in Hl.
    pose proof (chunk_row i total dl len persist db i) as Hri.
    rewrite decide_True, Hd in Hri by done. simpl in Hri.
    change (chunk_bytes ((len, persist) :: chunks))
      with (len + chunk_bytes chunks).
    set (db1 := (_download_one_chunk i total dl len persist db).2) in *.
    set (d1 := match persist with
               | Some sp =>
                   set_progress
                     (Z.max 0 (Z.min (_download_one_progress (dl + len) total) 99))
                     (set_speed (Some sp) (set_total_bytes total
                        (set_downloaded_bytes (dl + len) d)))
               | None => d
               end) in *.
    assert (H1 : status d1 = status d /\ same_request d d1
                 /\ attempts d1 = attempts d /\ file_path d1 = file_path d
                 /\ error_message d1 = error_message d
                 /\ downloaded_bytes d <= downloaded_bytes d1 <= dl + len
                 /\ (persist = None -> d1 = d)).
    { subst d1. destruct persist; simpl; repeat split; try done; lia. }
    destruct H1 as (Hs1 & Hq1 & Ha1 & Hf1 & He1 & Hb1 & Hn1).
    destruct (IH (dl + len) db1 d1 Hri) as (Hr & Ho & Hdoc & d' & Hd' & Hs' & Hq'
                                            & Ha' & Hf' & He' & Hb' & Hn');
      [congruence|done|lia|lia|].
    split; [rewrite Hr; f_equal; lia|]. split.
    { intros j Hj. rewrite (Ho j Hj). subst db1. rewrite chunk_row.
      by rewrite decide_False by done. }
    split; [rewrite Hdoc; subst db1; apply chunk_documents|].
    exists d'. split; [done|]. split; [congruence|]. split.
    { destruct Hq1 as (?&?&?&?&?&?&?&?), Hq' as (?&?&?&?&?&?&?&?).
      repeat split; congruence. }
    split; [congruence|]. split; [congruence|]. split; [congruence|].
    split; [lia|].
    intros Hall. apply Forall_cons in Hall as [Hp Hall]. simpl in Hp.
    rewrite (Hn' Hall). by apply Hn1.
Qed.

(** X27. A transfer that no other coroutine disturbs counts every byte. For
    a job that is not cancelled, the loop over the chunks runs to its end
    and its counter has grown by the sum of the chunk lengths; the loop
    changes neither the status of the job nor any other row nor the
    catalog, and the byte count of the row never exceeds the counter. The
    completion that follows stores the full count with status [COMPLETED]
    and progress 100. For a job that is cancelled, the loop stops before
    the first chunk and writes nothing; with no chunk at all it has nothing
    to stop at, so an empty response completes even a cancelled job. The
    row is taken as the claim leaves it, with a byte count of zero. *)
Theorem stream_counts_every_byte (i : Z) (total : option Z)
    (chunks : list (Z * option Z)) (db : DB) (d : Download) :
  downloads db !! i = Some d ->
  downloaded_bytes d = 0 ->
  Forall (fun c => 0 <= c.1) chunks ->
  let r := _download_one_stream i total chunks 0 db in
  (status d <> CANCELLED ->
     r.1 = StreamFinished (chunk_bytes chunks)
     /\ (forall j, j <> i -> downloads r.2 !! j = downloads db !! j)
     /\ documents r.2 = documents db
     /\ (exists d',
           downloads r.2 !! i = Some d'
           /\ status d' = status d /\ same_request d d'
           /\ 0 <= downloaded_bytes d' <= chunk_bytes chunks)
     /\ forall p now fs,
          exists d'',
            downloads (_mark_completed i (chunk_bytes chunks) total p now
                         (r.2, fs)).1 !! i = Some d''
            /\ status d'' = COMPLETED /\ progress d'' = 100
            /\ downloaded_bytes d'' = chunk_bytes chunks
            /\ total_bytes d'' = total)
  /\ (status d = CANCELLED -> chunks <> [] -> r = (StreamCancelled, db))
  /\ (chunks = [] -> r = (StreamFinished 0, db)).
Proof.
  intros Hd Hb Hlen r. split; [|split].
  - intros Hst.
    destruct (stream_rows i total chunks 0 db d Hd Hst Hlen) as
      (Hr & Ho & Hdoc & d' & Hd' & Hs' & Hq' & _ & _ & _ & Hb' & _); [lia|lia|].
    fold r in Hr, Ho, Hdoc, Hd'. rewrite Z.add_0_l in *.
    split; [done|]. split; [done|]. split; [done|].
    split; [exists d'; split; [done|]; split; [done|]; split; [done|]; lia|].
    intros p now fs. rewrite mark_completed_row, decide_True, Hd' by done.
    simpl. eexists. split; [reflexivity|]. done.
  - intros Hst Hne. subst r. destruct chunks as [|[len persist] chunks]; [done|].
    rewrite stream_cons. unfold _is_cancelled. rewrite Hd.
    by rewrite bool_decide_eq_true_2.
  - intros ->. done.
Qed.

Lemma stream_counts_every_byte_witness :
  let chunks := [(4096, None); (4096, Some 8192); (1808, None)] in
  downloads (db_of [row_claimed] ∅) !! 1 = Some row_claimed
  /\ (_download_one_stream 1 (Some 10000) chunks 0 (db_of [row_claimed] ∅)).1
     = StreamFinished 10000.
Proof.
  cbv zeta. split; [reflexivity|].
  assert (Hl : Forall (fun c : Z * option Z => 0 <= c.1)
                 [(4096, None); (4096, Some 8192); (1808, None)]).
  { repeat constructor; simpl; lia. }
  assert (Hs : status row_claimed <> CANCELLED) by discriminate.
  destruct (stream_counts_every_byte 1 (Some 10000)
              [(4096, None); (4096, Some 8192); (1808, None)]
              (db_of [row_claimed] ∅) row_claimed eq_refl eq_refl Hl)
    as [H _].
  destruct (H Hs) as [Hr _]. exact Hr.
Defined.

End Transfer.
